(** * bot-fiscal-preco: the price scraper and the price monitor

    A shallow embedding of the scraping and monitoring core of the bot
    ([services/PriceScraper.js], the [PriceMonitor] class of
    [services/NotificationService.js] and the [Product] model) together
    with the properties its specification states about it.

    Conventions of the embedding.
    - A JavaScript string is the list of its UTF-16 code units.
    - A JavaScript number is an exact rational ([Q]); rounding of doubles
      is not modelled.  [NaN] only arises from [parseFloat] and is the
      [None] of its result.
    - [null]/[undefined] are the [None] of an [option].
    - A function that can throw returns a [Result]; state that the code
      mutates is passed explicitly.  The network, the HTML query engine,
      the notifier and the clock are inputs of the functions that use
      them. *)

From Stdlib Require Import ZArith QArith List String Ascii Bool Lia DecimalString.
From stdpp Require Import gmap list sorting.

Local Open Scope Z_scope.

(* ================================================================== *)
(** * JavaScript values *)
(* ================================================================== *)

Module Js.

(** A UTF-16 code unit. *)
Definition char := N.
Definition jsstring := list char.

(** The code units of an ASCII literal. *)
Definition lit (s : string) : jsstring :=
  List.map N_of_ascii (list_ascii_of_string s).

Definition isDigit (c : char) : bool := ((48 <=? c) && (c <=? 57))%N.

(** The code units matched by [\s], which are also the ones that
    [String.prototype.trim] removes (WhiteSpace and LineTerminator). *)
Definition isSpace (c : char) : bool :=
  (((9 <=? c) && (c <=? 13)) || (c =? 32) || (c =? 160) || (c =? 5760)
   || ((8192 <=? c) && (c <=? 8202)) || (c =? 8232) || (c =? 8233)
   || (c =? 8239) || (c =? 8287) || (c =? 12288) || (c =? 65279))%N.

Fixpoint trimStart (s : jsstring) : jsstring :=
  match s with
  | c :: s' => if isSpace c then trimStart s' else s
  | [] => []
  end.

Definition trimEnd (s : jsstring) : jsstring := rev (trimStart (rev s)).

Definition trim (s : jsstring) : jsstring := trimEnd (trimStart s).

(** [s.substring(0, n)]. *)
Definition substring0 (n : nat) (s : jsstring) : jsstring := take n s.

(** [String.prototype.toLowerCase] on the Basic Latin and Latin-1 letters;
    other code units are left as they are. *)
Definition lowerChar (c : char) : char :=
  if (((65 <=? c) && (c <=? 90))
      || ((192 <=? c) && (c <=? 222) && negb (c =? 215)))%N
  then (c + 32)%N else c.

Definition toLowerCase (s : jsstring) : jsstring := List.map lowerChar s.

Definition char_eqb (a b : char) : bool := (a =? b)%N.

Fixpoint startsWith (p s : jsstring) : bool :=
  match p, s with
  | [], _ => true
  | a :: p', b :: s' => char_eqb a b && startsWith p' s'
  | _ :: _, [] => false
  end.

(** [s.includes(p)]. *)
Fixpoint includes (p s : jsstring) : bool :=
  startsWith p s ||
  match s with
  | [] => false
  | _ :: s' => includes p s'
  end.

Definition str_eqb (a b : jsstring) : bool :=
  bool_decide (a = b).

(** Truthiness of a string: the empty string is falsy. *)
Definition truthy (s : jsstring) : bool :=
  match s with [] => false | _ => true end.

(** ** Numbers *)

Definition Qltb (x y : Q) : bool :=
  (Qnum x * Zpos (Qden y) <? Qnum y * Zpos (Qden x))%Z.

Definition Qleb (x y : Q) : bool := Qle_bool x y.

(** Truthiness of a nullable number: [null] and [0] are falsy. *)
Definition truthyNum (x : option Q) : bool :=
  match x with
  | Some q => negb (Qeq_bool q 0)
  | None => false
  end.

(** [ToNumber] of a nullable number in an arithmetic or relational
    position: [null] counts as [0]. *)
Definition toNumber (x : option Q) : Q :=
  match x with Some q => q | None => 0%Q end.

Definition digitVal (c : char) : Z := Z.of_N (c - 48)%N.

Definition digitsVal (ds : jsstring) : Z :=
  fold_left (fun acc c => 10 * acc + digitVal c) ds 0.

Fixpoint takeDigits (s : jsstring) : jsstring * jsstring :=
  match s with
  | c :: s' =>
      if isDigit c then let '(d, r) := takeDigits s' in (c :: d, r)
      else ([], s)
  | [] => ([], [])
  end.

(** [parseFloat] on an unsigned decimal text without exponent: the
    longest prefix of the shape [digits], [digits.digits], [digits.] or
    [.digits] is read, and the result is [NaN] ([None]) when that prefix
    holds no digit.  [parsePrice] only passes it texts made of digits and
    dots, everything else having been stripped before. *)
Definition parseFloat (s : jsstring) : option Q :=
  let '(ip, r) := takeDigits s in
  let fp :=
    match r with
    | c :: r' => if (c =? 46)%N then fst (takeDigits r') else []
    | [] => []
    end in
  match ip, fp with
  | [], [] => None
  | _, _ =>
      Some (Qmake (digitsVal (ip ++ fp))
                  (Z.to_pos (10 ^ Z.of_nat (List.length fp))))
  end.

End Js.

(* ================================================================== *)
(** * Regular expressions *)
(* ================================================================== *)

(** The fragment of JavaScript regular expressions the scraper uses:
    character classes, sequence, alternation, greedy star, the anchors
    and numbered capture groups, with the backtracking order of the
    language (left alternative first, star as long as possible). *)

Module Regex.
Import Js.

Inductive regex : Type :=
| Eps
| Chr (p : char -> bool)
| Seq (a b : regex)
| Alt (a b : regex)
| Star (a : regex)
| Bol
| Eol
| Group (i : nat) (a : regex).

Definition captures := gmap nat jsstring.

Definition slice (input : jsstring) (i j : nat) : jsstring :=
  take (j - i) (drop i input).

Section Match.
Variable input : jsstring.

(** [rmatch r i caps k]: match [r] at index [i] and hand the end index
    and the captures to the continuation [k]; [None] makes the matcher
    backtrack.  An iteration of a star that consumes nothing is
    rejected, as the language does. *)
Fixpoint rmatch (r : regex) (i : nat) (caps : captures)
    (k : nat -> captures -> option captures) {struct r} : option captures :=
  match r with
  | Eps => k i caps
  | Chr p =>
      match input !! i with
      | Some c => if p c then k (S i) caps else None
      | None => None
      end
  | Seq a b => rmatch a i caps (fun j c => rmatch b j c k)
  | Alt a b =>
      match rmatch a i caps k with
      | Some c => Some c
      | None => rmatch b i caps k
      end
  | Star a =>
      (fix star (n : nat) (i : nat) (caps : captures) {struct n} :=
         match n with
         | O => k i caps
         | S n' =>
             match rmatch a i caps
                     (fun j c => if (i <? j)%nat then star n' j c else None) with
             | Some c => Some c
             | None => k i caps
             end
         end) (S (List.length input)) i caps
  | Bol => if (i =? 0)%nat then k i caps else None
  | Eol => if (i =? List.length input)%nat then k i caps else None
  | Group g a => rmatch a i caps (fun j c => k j (<[g := slice input i j]> c))
  end.

(** The leftmost match starting at index [i] or later. *)
Fixpoint searchFrom (r : regex) (fuel i : nat) : option captures :=
  match rmatch r i ∅ (fun _ c => Some c) with
  | Some c => Some c
  | None =>
      match fuel with
      | O => None
      | S fuel' => searchFrom r fuel' (S i)
      end
  end.
End Match.

(** [input.match(r)] for a pattern without the [g] flag. *)
Definition exec (r : regex) (input : jsstring) : option captures :=
  searchFrom input r (List.length input) 0.

(** The capture group [g] of a match ([match[g]]). *)
Definition group (g : nat) (m : captures) : jsstring :=
  default [] (m !! g).

(** Derived forms. *)
Definition digit : regex := Chr isDigit.
Definition chr (c : N) : regex := Chr (fun x => (x =? c)%N).
Definition oneOf (cs : list N) : regex :=
  Chr (fun x => existsb (fun c => (x =? c)%N) cs).
Definition space : regex := Chr isSpace.
Definition opt (a : regex) : regex := Alt a Eps.
Definition plus (a : regex) : regex := Seq a (Star a).
Fixpoint seqs (rs : list regex) : regex :=
  match rs with
  | [] => Eps
  | [r] => r
  | r :: rs' => Seq r (seqs rs')
  end.
Definition lits (s : string) : regex := seqs (List.map chr (lit s)).

End Regex.

(* ================================================================== *)
(** * PriceScraper: parsing of price texts *)
(* ================================================================== *)

Module Price.
Import Js Regex.

(** A pattern object: its source text, which [parsePrice] inspects to
    pick the conversion, and the expression itself. *)
Record pattern := { source : string; re : regex }.

(** [\d{1,3}] and [\d{n}]. *)
Definition digit1to3 : regex := Seq digit (opt (Seq digit (opt digit))).
Definition digit2 : regex := Seq digit digit.
Definition digit3 : regex := Seq digit (Seq digit digit).

(** Thousands separated by dots and a decimal comma: 1.234,56 or 234,56.
    The source text is written in two pieces. *)
Definition pat_br : pattern :=
  {| source := "^(\d{1,3}(?:\.\d{3})*" ++ "),(\d{2})$";
     re := seqs [Bol; Group 1 (Seq digit1to3 (Star (Seq (chr 46) digit3)));
                 chr 44; Group 2 digit2; Eol] |}.

(** [^(\d+)\.(\d{2})$]: 1234.56 *)
Definition pat_us : pattern :=
  {| source := "^(\d+)\.(\d{2})$";
     re := seqs [Bol; Group 1 (plus digit); chr 46; Group 2 digit2; Eol] |}.

(** [^(\d+),(\d{2})$]: 1234,56 *)
Definition pat_comma : pattern :=
  {| source := "^(\d+),(\d{2})$";
     re := seqs [Bol; Group 1 (plus digit); chr 44; Group 2 digit2; Eol] |}.

(** [^(\d+)$]: whole numbers *)
Definition pat_int : pattern :=
  {| source := "^(\d+)$";
     re := seqs [Bol; Group 1 (plus digit); Eol] |}.

Definition patterns : list pattern := [pat_br; pat_us; pat_comma; pat_int].

(** [price > 0 ? price : null]; [NaN > 0] is false. *)
Definition positiveOrNull (price : option Q) : option Q :=
  match price with
  | Some p => if Qltb 0 p then Some p else None
  | None => None
  end.

(** The conversion of a matched text, chosen from the pattern's source. *)
Definition convert (p : pattern) (cleanText : jsstring) (m : captures) : option Q :=
  if includes (lit ",(\d{2})") (lit (source p)) then
    let integerPart := List.filter (fun c => negb (c =? 46)%N) (group 1 m) in
    let decimalPart := group 2 m in
    positiveOrNull (parseFloat (integerPart ++ lit "." ++ decimalPart))
  else if includes (lit "\.(\d{2})") (lit (source p)) then
    positiveOrNull (parseFloat cleanText)
  else
    positiveOrNull (parseFloat (group 1 m)).

(** The loop over the patterns: [Some r] when a pattern matched and the
    function returned [r] from inside the loop, [None] when the loop ran
    to its end. *)
Fixpoint tryPatterns (ps : list pattern) (cleanText : jsstring)
    : option (option Q) :=
  match ps with
  | [] => None
  | p :: ps' =>
      match exec (re p) cleanText with
      | Some m => Some (convert p cleanText m)
      | None => tryPatterns ps' cleanText
      end
  end.

(** The last resort of [parsePrice]: [parseFloat] of the text with every
    comma turned into a dot. *)
Definition directParse (cleanText : jsstring) : option Q :=
  parseFloat (List.map (fun c => if (c =? 44)%N then 46%N else c) cleanText).

Definition fallback (cleanText : jsstring) : option Q :=
  match directParse cleanText with
  | Some d => if Qltb 0 d && Qltb d 1000000 then Some d else None
  | None => None
  end.

(** [cleanText = priceText.replace(/[^\d.,]/g, '')]. *)
Definition clean (priceText : jsstring) : jsstring :=
  List.filter (fun c => isDigit c || (c =? 46)%N || (c =? 44)%N) priceText.

Definition parsePrice (priceText : jsstring) : option Q :=
  if negb (truthy priceText) then None
  else
    let cleanText := clean priceText in
    if negb (truthy cleanText) then None
    else
      match tryPatterns patterns cleanText with
      | Some r => r
      | None => fallback cleanText
      end.

End Price.

(* ================================================================== *)
(** * Results of code that can throw *)
(* ================================================================== *)

(** [Throw msg] is an exception whose [message] is [msg]. *)
Inductive Result (A : Type) : Type :=
| Ok (a : A)
| Throw (message : Js.jsstring).
Arguments Ok {A} a.
Arguments Throw {A} message.

(* ================================================================== *)
(** * PriceScraper: extraction from a parsed page *)
(* ================================================================== *)

Module Extract.
Import Js Regex Price.

(** What the scraper reads of an element of the page. *)
Record Element := {
  text : jsstring;
  attrs : list (jsstring * jsstring)
}.

(** A page loaded by the query engine: [select sel] is [$(sel)] and may
    throw on a selector the engine rejects; [html] is [$.html()]. *)
Record Document := {
  select : jsstring -> Result (list Element);
  html : jsstring
}.

(** A per-site configuration; both selector lists may be missing. *)
Record SiteConfig := {
  selectors : option (list jsstring);
  nameSelectors : option (list jsstring);
  currency : jsstring;
  waitTime : Z
}.

(** [{}], the configuration of a site that has none. *)
Definition noConfig : SiteConfig :=
  {| selectors := None; nameSelectors := None; currency := []; waitTime := 0 |}.

(** [element.attr(name)]. *)
Fixpoint attr (name : jsstring) (l : list (jsstring * jsstring)) : option jsstring :=
  match l with
  | [] => None
  | (k, v) :: l' => if str_eqb k name then Some v else attr name l'
  end.

(** [if (price) return price]: a price is returned when it is truthy. *)
Definition truthyPrice (price : option Q) : option Q :=
  if truthyNum price then price else None.

Definition priceAttributes : list jsstring :=
  [lit "data-price"; lit "value"; lit "content"; lit "title"].

Fixpoint tryAttributes (names : list jsstring) (e : Element) : option Q :=
  match names with
  | [] => None
  | a :: names' =>
      match attr a (attrs e) with
      | Some attrValue =>
          if truthy attrValue then
            match truthyPrice (parsePrice attrValue) with
            | Some price => Some price
            | None => tryAttributes names' e
            end
          else tryAttributes names' e
      | None => tryAttributes names' e
      end
  end.

Definition tryElement (e : Element) : option Q :=
  let t := trim (text e) in
  match (if truthy t then truthyPrice (parsePrice t) else None) with
  | Some price => Some price
  | None => tryAttributes priceAttributes e
  end.

Fixpoint tryElements (es : list Element) : option Q :=
  match es with
  | [] => None
  | e :: es' =>
      match tryElement e with
      | Some price => Some price
      | None => tryElements es'
      end
  end.

(** An exception of the query engine is swallowed. *)
Definition tryExtractPrice (doc : Document) (selector : jsstring) : option Q :=
  match select doc selector with
  | Ok elements => tryElements elements
  | Throw _ => None
  end.

Fixpoint trySelectors (doc : Document) (sels : list jsstring) : option Q :=
  match sels with
  | [] => None
  | s :: sels' =>
      match truthyPrice (tryExtractPrice doc s) with
      | Some price => Some price
      | None => trySelectors doc sels'
      end
  end.

Definition genericSelectors : list jsstring :=
  [lit ".price"; lit ".sale-price"; lit ".current-price"; lit ".offer-price";
   lit "[data-price]"; lit ".price-current"; lit ".product-price";
   lit ".price-box .price"; lit ".price-value"; lit ".price-now";
   lit ".selling-price"; lit ".final-price"; lit ".discount-price";
   lit ".special-price"; lit ".our-price"].

(** The patterns searched in the markup; 34 is the double quote. *)
Definition quote : regex := chr 34.
Definition decimal2 : regex := seqs [plus digit; oneOf [46; 44]%N; digit2].
Definition quotedField (name : string) : regex :=
  seqs [quote; lits name; quote; chr 58; Star space; opt quote;
        Group 1 decimal2; opt quote].

Definition htmlPatterns : list regex :=
  [ quotedField "price";
    quotedField "amount";
    seqs [quote; lits "value"; quote; chr 58; Star space; Group 1 decimal2];
    seqs [lits "R$"; Star space;
          Group 1 (seqs [digit1to3; Star (Seq (chr 46) digit3); chr 44; digit2])];
    seqs [lits "BRL"; Star space; Group 1 decimal2] ].

Fixpoint tryHtmlPatterns (ps : list regex) (htmlText : jsstring) : option Q :=
  match ps with
  | [] => None
  | p :: ps' =>
      match exec p htmlText with
      | Some m =>
          match truthyPrice (parsePrice (group 1 m)) with
          | Some price => Some price
          | None => tryHtmlPatterns ps' htmlText
          end
      | None => tryHtmlPatterns ps' htmlText
      end
  end.

Definition extractPrice (doc : Document) (siteConfig : SiteConfig) : option Q :=
  match (match selectors siteConfig with
         | Some sels => trySelectors doc sels
         | None => None
         end) with
  | Some price => Some price
  | None =>
      match trySelectors doc genericSelectors with
      | Some price => Some price
      | None => tryHtmlPatterns htmlPatterns (html doc)
      end
  end.

(** ** Product names *)

(** [name.replace(/\s+/g, ' ')]: every maximal run of white space becomes
    one space; [inRun] tells that the previous unit was white space. *)
Fixpoint collapseFrom (inRun : bool) (s : jsstring) : jsstring :=
  match s with
  | [] => []
  | c :: s' =>
      if isSpace c then
        if inRun then collapseFrom true s' else 32%N :: collapseFrom true s'
      else c :: collapseFrom false s'
  end.

Definition collapseSpaces (s : jsstring) : jsstring := collapseFrom false s.

(** The separator glyphs: the bar (124), the bullet (U+2022) and the
    middle dot (U+00B7). *)
Definition isSeparator (c : char) : bool :=
  ((c =? 124) || (c =? 8226) || (c =? 183))%N.

Definition cleanProductName (name : jsstring) : jsstring :=
  let s1 := collapseSpaces name in
  let s2 := List.filter (fun c => negb ((c =? 10) || (c =? 13) || (c =? 9))%N) s1 in
  let s3 := List.map (fun c => if isSeparator c then 45%N else c) s2 in
  substring0 150 (trim s3).

(** [$(selector).first().text().trim()]: the text of the first element,
    the empty text when there is none. *)
Definition firstText (doc : Document) (selector : jsstring) : Result jsstring :=
  match select doc selector with
  | Ok [] => Ok []
  | Ok (e :: _) => Ok (trim (text e))
  | Throw m => Throw m
  end.

(** The test on a selector's candidate. *)
Definition nameOk (name : jsstring) : bool :=
  truthy name && (0 <? List.length name)%nat && (List.length name <? 200)%nat.

(** One of the two loops over name selectors: [Ok (Some n)] when the loop
    returned the cleaned name [n], [Ok None] when it ran to its end. *)
Fixpoint tryNameSelectors (doc : Document) (sels : list jsstring)
    : Result (option jsstring) :=
  match sels with
  | [] => Ok None
  | s :: sels' =>
      match firstText doc s with
      | Ok name =>
          if nameOk name then Ok (Some (cleanProductName name))
          else tryNameSelectors doc sels'
      | Throw m => Throw m
      end
  end.

Definition genericNameSelectors : list jsstring :=
  [lit "h1"; lit ".product-title"; lit ".product-name"; lit "#productTitle";
   lit ".item-title"; lit ".title"; lit ".product-info h1";
   lit ".product-header h1"; lit "[data-testid=" ++ [34%N] ++ lit "product-title" ++ [34%N] ++ lit "]"].

(** [$('title').text().trim()]: the texts of all the elements, joined. *)
Definition pageTitleText (doc : Document) : Result jsstring :=
  match select doc (lit "title") with
  | Ok es => Ok (trim (concat (List.map text es)))
  | Throw m => Throw m
  end.

Definition titleFallback (doc : Document) : Result (option jsstring) :=
  match pageTitleText doc with
  | Ok pageTitle =>
      if truthy pageTitle && (0 <? List.length pageTitle)%nat
      then Ok (Some (cleanProductName pageTitle))
      else Ok None
  | Throw m => Throw m
  end.

Definition extractProductName (doc : Document) (siteConfig : SiteConfig)
    : Result (option jsstring) :=
  match (match nameSelectors siteConfig with
         | Some sels => tryNameSelectors doc sels
         | None => Ok None
         end) with
  | Throw m => Throw m
  | Ok (Some name) => Ok (Some name)
  | Ok None =>
      match tryNameSelectors doc genericNameSelectors with
      | Throw m => Throw m
      | Ok (Some name) => Ok (Some name)
      | Ok None => titleFallback doc
      end
  end.

End Extract.

(* ================================================================== *)
(** * PriceScraper: requests, retries and the scrape of one URL *)
(* ================================================================== *)

Module Scraper.
Import Js Regex Price Extract.

(** What the scraper reads of a parsed URL. *)
Record URL := {
  protocol : jsstring;
  hostname : jsstring;
  pathname : jsstring;
  searchParams : list (jsstring * jsstring);
  hash : jsstring
}.

(** What the server, or the network, answers to one request. *)
Inductive Reply : Type :=
| HttpReply (status : N) (statusText : jsstring) (data : jsstring)
| Failure (message : jsstring).

Record Response := {
  status : N;
  statusText : jsstring;
  data : jsstring
}.

(** The decimal text of a number, as a template literal prints it. *)
Definition showN (n : N) : jsstring :=
  lit (NilEmpty.string_of_uint (N.to_uint n)).

(** The HTTP client with [validateStatus: status => status < 500]: a
    status of 500 or more rejects the request. *)
Definition axios (r : Reply) : Result Response :=
  match r with
  | HttpReply st txt d =>
      if (st <? 500)%N
      then Ok {| status := st; statusText := txt; data := d |}
      else Throw (lit "Request failed with status code " ++ showN st)
  | Failure m => Throw m
  end.

(** The environment of the scraper: the platform's URL parser ([None]
    when [new URL] throws) and serializer, the HTML query engine, the
    network (the answer to the [n]-th request issued, for a URL) and
    [config.monitoring.maxRetries]. *)
Record Env := {
  parseURL : jsstring -> option URL;
  urlToString : URL -> jsstring;
  load : jsstring -> Result Document;
  net : nat -> jsstring -> Reply;
  maxRetries : nat
}.

(** The mutable state of the scraper object, with the log of what it did:
    the number of requests sent and the delays awaited (latest first). *)
Record State := {
  retryAttempts : gmap jsstring nat;
  siteConfigs : gmap jsstring SiteConfig;
  sent : nat;
  slept : list Z
}.

Definition setRetryAttempts (f : gmap jsstring nat -> gmap jsstring nat)
    (st : State) : State :=
  {| retryAttempts := f (retryAttempts st); siteConfigs := siteConfigs st;
     sent := sent st; slept := slept st |}.

Definition countRequest (st : State) : State :=
  {| retryAttempts := retryAttempts st; siteConfigs := siteConfigs st;
     sent := S (sent st); slept := slept st |}.

(** [await this.delay(ms)]. *)
Definition delay (ms : Z) (st : State) : State :=
  {| retryAttempts := retryAttempts st; siteConfigs := siteConfigs st;
     sent := sent st; slept := ms :: slept st |}.

Definition siteConfig (selectors nameSelectors : list jsstring) (wait : Z)
    : SiteConfig :=
  {| Extract.selectors := Some selectors;
     Extract.nameSelectors := Some nameSelectors;
     currency := lit "BRL"; waitTime := wait |}.

Definition testidPrice : jsstring :=
  lit "[data-testid=" ++ [34%N] ++ lit "price-value" ++ [34%N] ++ lit "]".

(** The configurations the constructor installs. *)
Definition initialSiteConfigs : gmap jsstring SiteConfig :=
  <[lit "amazon.com.br" :=
      siteConfig [lit ".a-price-whole"; lit ".a-price .a-offscreen"; lit "#priceblock_dealprice"]
                 [lit "#productTitle"; lit "h1.a-size-large"] 3000]>
  (<[lit "mercadolivre.com.br" :=
      siteConfig [lit ".andes-money-amount__fraction"; lit ".price-tag-fraction"]
                 [lit ".ui-pdp-title"; lit ".item-title"] 2000]>
  (<[lit "americanas.com.br" :=
      siteConfig [lit ".price__Value"; lit ".price-value"] [lit ".product-title"; lit "h1"] 2000]>
  (<[lit "magazineluiza.com.br" :=
      {| Extract.selectors := Some [lit ".price-template__text"; testidPrice];
         Extract.nameSelectors := Some [lit ".header-product__title"; lit "h1"];
         currency := lit "BRL"; waitTime := 2000 |}]>
  (<[lit "submarino.com.br" :=
      siteConfig [lit ".price__Value"; lit ".sales-price"] [lit ".product-title"; lit "h1"] 2000]>
  (<[lit "casasbahia.com.br" :=
      siteConfig [lit ".sales-price"; lit ".price-template__text"]
                 [lit ".product-title"; lit ".title"] 2000]> ∅))))).

Definition initialState : State :=
  {| retryAttempts := ∅; siteConfigs := initialSiteConfigs;
     sent := 0%nat; slept := [] |}.

(** [this.siteConfigs[domain] || {}]. *)
Definition configOf (st : State) (domain : jsstring) : SiteConfig :=
  default noConfig (siteConfigs st !! domain).

Definition blockIndicators : list jsstring :=
  [lit "captcha"; lit "blocked"; lit "access denied"; lit "too many requests";
   lit "rate limit"; lit "robot"; lit "bot detection"; lit "cloudflare";
   lit "please verify"; lit "security check"].

Definition isBlocked (html : jsstring) : bool :=
  let lowerHtml := toLowerCase html in
  existsb (fun indicator => includes indicator lowerHtml) blockIndicators.

Definition retryableErrors : list jsstring :=
  [lit "ECONNRESET"; lit "ECONNREFUSED"; lit "ETIMEDOUT"; lit "timeout";
   lit "network"; lit "5"; lit "rate limit"].

Definition shouldRetry (message : jsstring) : bool :=
  let errorMessage := toLowerCase message in
  existsb (fun indicator => includes indicator errorMessage) retryableErrors.

Definition blockedMessage : jsstring := lit "Request bloqueado pelo servidor".

Definition httpErrorMessage (r : Response) : jsstring :=
  lit "HTTP " ++ showN (status r) ++ lit ": " ++ statusText r.

(** The [try] block of [makeRequest]: one request and its checks. *)
Definition attempt (reply : Reply) : Result Response :=
  match axios reply with
  | Ok response =>
      if (400 <=? status response)%N then Throw (httpErrorMessage response)
      else if isBlocked (data response) then Throw blockedMessage
      else Ok response
  | Throw m => Throw m
  end.

(** [this.retryAttempts.get(url) || 0]. *)
Definition retryCountOf (st : State) (url : jsstring) : nat :=
  default 0%nat (retryAttempts st !! url).

(** [Math.pow(2, retryCount) * 1000]. *)
Definition backoff (retryCount : nat) : Z := 2 ^ Z.of_nat retryCount * 1000.

(** The object that [extractData] returns and [scrapePrice] completes. *)
Record ScrapeResult := {
  price : option Q;
  name : option jsstring;
  success : bool;
  error : option jsstring;
  url : jsstring;
  domain : jsstring
}.

Definition noPriceMessage : jsstring :=
  lit "N" ++ [227%N] ++ lit "o foi poss" ++ [237%N] ++ lit "vel extrair o pre"
  ++ [231%N] ++ lit "o".

Definition extractionErrorPrefix : jsstring :=
  lit "Erro na extra" ++ [231%N; 227%N] ++ lit "o: ".

Definition defaultName : jsstring := lit "Produto sem nome".

Section WithEnv.
Variable env : Env.

(** [makeRequest] calls itself after a retryable failure.  The
    recursion is on [budget], the number of retries the counter still
    allows on entry; [makeRequest_eq] below shows that the function
    obeys the equation of the source and never uses the branch of an
    exhausted budget. *)
Fixpoint makeRequestLoop (budget : nat) (url domain : jsstring) (st : State)
    : Result Response * State :=
  let retryCount := retryCountOf st url in
  let st1 := countRequest st in
  match attempt (net env (sent st) url) with
  | Ok response => (Ok response, st1)
  | Throw message =>
      if (retryCount <? maxRetries env)%nat && shouldRetry message then
        match budget with
        | S budget' =>
            makeRequestLoop budget' url domain
              (delay (backoff retryCount)
                 (setRetryAttempts (insert url (retryCount + 1)%nat) st1))
        | O => (Throw message, st1)
        end
      else (Throw message, st1)
  end.

Definition makeRequest (url domain : jsstring) (st : State)
    : Result Response * State :=
  makeRequestLoop (maxRetries env - retryCountOf st url) url domain st.

Definition isValidUrl (url : jsstring) : bool :=
  match parseURL env url with
  | Some urlObj =>
      str_eqb (protocol urlObj) (lit "http:")
      || str_eqb (protocol urlObj) (lit "https:")
  | None => false
  end.

Definition trackingParams : list jsstring :=
  [lit "utm_source"; lit "utm_medium"; lit "utm_campaign"; lit "utm_content";
   lit "utm_term"; lit "gclid"; lit "fbclid"; lit "ref"; lit "referrer";
   lit "_ga"; lit "mc_cid"; lit "mc_eid"].

(** [urlObj.searchParams.delete(param)]. *)
Definition deleteParam (param : jsstring) (urlObj : URL) : URL :=
  {| protocol := protocol urlObj; hostname := hostname urlObj;
     pathname := pathname urlObj;
     searchParams :=
       List.filter (fun kv => negb (str_eqb (fst kv) param)) (searchParams urlObj);
     hash := hash urlObj |}.

Definition normalizeUrl (url : jsstring) : jsstring :=
  match parseURL env url with
  | Some urlObj =>
      urlToString env
        (fold_left (fun u param => deleteParam param u) trackingParams urlObj)
  | None => url
  end.

(** [urlObj.hostname.replace(/^www\./, '')]. *)
Definition extractDomain (url : jsstring) : jsstring :=
  match parseURL env url with
  | Some urlObj =>
      if startsWith (lit "www.") (hostname urlObj)
      then drop 4 (hostname urlObj) else hostname urlObj
  | None => lit "unknown"
  end.

(** The [try] block of [extractData]. *)
Definition extractDataTry (htmlText domain url : jsstring) (st : State)
    : Result ScrapeResult :=
  match load env htmlText with
  | Throw m => Throw m
  | Ok doc =>
      let siteConfig := configOf st domain in
      let price := extractPrice doc siteConfig in
      match extractProductName doc siteConfig with
      | Throw m => Throw m
      | Ok name =>
          let success :=
            match price with
            | Some p => Qltb 0 p
            | None => false
            end in
          Ok {| price := price;
                name := Some (match name with
                              | Some n => if truthy n then n else defaultName
                              | None => defaultName
                              end);
                success := success;
                error := if success then None else Some noPriceMessage;
                url := url; domain := domain |}
      end
  end.

Definition extractData (htmlText domain url : jsstring) (st : State)
    : ScrapeResult :=
  match extractDataTry htmlText domain url st with
  | Ok r => r
  | Throw message =>
      {| price := None; name := None; success := false;
         error := Some (extractionErrorPrefix ++ message);
         url := url; domain := domain |}
  end.

Definition invalidUrlMessage : jsstring :=
  lit "URL inv" ++ [225%N] ++ lit "lida".

(** The [try] block of [scrapePrice].  The counter of retries is read
    and written under the normalized URL by [makeRequest] and deleted
    under the URL as it was given. *)
Definition scrapePriceTry (u : jsstring) (st : State)
    : Result ScrapeResult * State :=
  if negb (isValidUrl u) then (Throw invalidUrlMessage, st)
  else
    let normalizedUrl := normalizeUrl u in
    let dom := extractDomain normalizedUrl in
    match makeRequest normalizedUrl dom st with
    | (Throw m, st1) => (Throw m, st1)
    | (Ok response, st1) =>
        let scrapedData := extractData (data response) dom normalizedUrl st1 in
        let st2 :=
          if success scrapedData
          then setRetryAttempts (delete u) st1
          else st1 in
        (Ok {| price := price scrapedData; name := name scrapedData;
               success := success scrapedData; error := error scrapedData;
               url := normalizedUrl; domain := dom |}, st2)
    end.

(** [scrapePrice]: the [catch] block turns an exception into a failed
    result.  The time stamps of the result are left out. *)
Definition scrapePrice (u : jsstring) (st : State)
    : Result ScrapeResult * State :=
  match scrapePriceTry u st with
  | (Ok r, st') => (Ok r, st')
  | (Throw message, st') =>
      (Ok {| price := None; name := None; success := false;
             error := Some message; url := u; domain := extractDomain u |},
       st')
  end.

End WithEnv.

(** ** Scraping in batches *)

(** [chunkArray(array, size)].  The loop advances its index by [size]:
    with a [size] of zero or less and an array that is not empty it never
    ends, which is the [None] of the result. *)
Fixpoint chunkLoop {A : Type} (fuel size : nat) (array : list A) : list (list A) :=
  match fuel, array with
  | O, _ => []
  | _, [] => []
  | S fuel', _ => take size array :: chunkLoop fuel' size (drop size array)
  end.

Definition chunkArray {A : Type} (array : list A) (size : Z) : option (list (list A)) :=
  match array with
  | [] => Some []
  | _ =>
      if size <=? 0 then None
      else Some (chunkLoop (List.length array) (Z.to_nat size) array)
  end.

(** What [onProgress] is told. *)
Record Progress := {
  completed : nat;
  total : nat;
  progress : Z
}.

(** [Math.round((completed / total) * 100)]. *)
Definition percent (completed total : nat) : Z :=
  (200 * Z.of_nat completed + Z.of_nat total) / (2 * Z.of_nat total).

(** The options of [scrapeBatch]; a missing field takes its default. *)
Record BatchOptions := {
  concurrency : option Z;
  delayBetween : option Z;
  onProgress : option (Progress -> Result unit)
}.

Definition noOptions : BatchOptions :=
  {| concurrency := None; delayBetween := None; onProgress := None |}.

(** An entry of the result: the value of a fulfilled scrape, or the
    object built for a rejected one from its URL and the message of the
    rejection. *)
Inductive BatchEntry : Type :=
| Fulfilled (value : ScrapeResult)
| Rejected (url : jsstring) (error : jsstring).

Definition entryOf (u : jsstring) (settled : Result ScrapeResult) : BatchEntry :=
  match settled with
  | Ok value => Fulfilled value
  | Throw message => Rejected u message
  end.

Section Batch.
Variable env : Env.

(** [Promise.allSettled(chunk.map(url => this.scrapePrice(url)))]:
    every scrape of the group is started and awaited, whatever the
    others do.  Their effects on the state are taken in the order of
    the group. *)
Fixpoint allSettled (chunk : list jsstring) (st : State)
    : list (Result ScrapeResult) * State :=
  match chunk with
  | [] => ([], st)
  | u :: chunk' =>
      let '(r, st1) := scrapePrice env u st in
      let '(rs, st2) := allSettled chunk' st1 in
      (r :: rs, st2)
  end.

(** The loop over the groups.  The callback and the delay are inside the
    [try] of the loop: an exception of [onProgress] is caught and
    logged, the delay that follows it is skipped and the loop goes on
    with the next group. *)
Fixpoint batchLoop (onProgress : option (Progress -> Result unit))
    (delayBetween : Z) (total : nat) (chunks : list (list jsstring))
    (results : list BatchEntry) (st : State) : list BatchEntry * State :=
  match chunks with
  | [] => (results, st)
  | chunk :: chunks' =>
      let '(chunkResults, st1) := allSettled chunk st in
      let results1 :=
        results ++ List.map (fun ur => entryOf (fst ur) (snd ur))
                            (combine chunk chunkResults) in
      let report :=
        {| completed := List.length results1; total := total;
           progress := percent (List.length results1) total |} in
      let reported :=
        match onProgress with
        | Some callback => callback report
        | None => Ok tt
        end in
      match reported with
      | Ok _ =>
          match chunks' with
          | _ :: _ =>
              batchLoop onProgress delayBetween total chunks' results1
                (delay delayBetween st1)
          | [] => batchLoop onProgress delayBetween total chunks' results1 st1
          end
      | Throw _ => batchLoop onProgress delayBetween total chunks' results1 st1
      end
  end.

(** [scrapeBatch(urls, options)]: the results and the scraper
    afterwards; [None] when [chunkArray] does not return. *)
Definition scrapeBatch (urls : list jsstring) (options : BatchOptions) (st : State)
    : option (list BatchEntry * State) :=
  let concurrency := default 3 (concurrency options) in
  let delayBetween := default 2000 (delayBetween options) in
  match chunkArray urls concurrency with
  | None => None
  | Some chunks =>
      Some (batchLoop (onProgress options) delayBetween (List.length urls)
              chunks [] st)
  end.
End Batch.

End Scraper.

(* ================================================================== *)
(** * The Product model and the price history *)
(* ================================================================== *)

Module Db.
Import Js.

(** A row of the table [products], without its key and without the
    columns [created_at], [updated_at] and [metadata], which nothing below
    reads.  A column that can hold [NULL] is an [option]; times are
    seconds. *)
Record Product := {
  name : jsstring;
  url : jsstring;
  current_price : option Q;
  target_price : option Q;
  last_price : option Q;
  channel_id : jsstring;
  guild_id : jsstring;
  user_id : jsstring;
  last_checked : option Z;
  is_active : bool;
  promotion_threshold : option Q;
  check_count : option Z;
  error_count : option Z;
  last_error : option jsstring
}.

(** A row of [price_history]. *)
Record HistoryRecord := {
  product_id : Z;
  price : option Q;
  price_change_percent : option Q;
  checked_at : Z;
  source : jsstring
}.

(** A field of the object given to [Product.update]: one constructor for
    each of the allowed fields, [metadata] included; [Other] is a key
    outside the allowed fields. *)
Inductive Assign : Type :=
| SetName (v : jsstring)
| SetCurrentPrice (v : option Q)
| SetTargetPrice (v : option Q)
| SetLastPrice (v : option Q)
| SetPromotionThreshold (v : option Q)
| SetIsActive (v : bool)
| SetCheckCount (v : option Z)
| SetErrorCount (v : option Z)
| SetLastError (v : option jsstring)
| SetMetadata (v : jsstring)
| Other (key : jsstring).

Definition allowed (a : Assign) : bool :=
  match a with
  | Other _ => false
  | _ => true
  end.

Definition assign (a : Assign) (p : Product) : Product :=
  let mk n cp tp lp pt ia cc ec le :=
    {| name := n; url := url p; current_price := cp; target_price := tp;
       last_price := lp; channel_id := channel_id p; guild_id := guild_id p;
       user_id := user_id p; last_checked := last_checked p; is_active := ia;
       promotion_threshold := pt; check_count := cc; error_count := ec;
       last_error := le |} in
  let n := name p in let cp := current_price p in let tp := target_price p in
  let lp := last_price p in let pt := promotion_threshold p in
  let ia := is_active p in let cc := check_count p in
  let ec := error_count p in let le := last_error p in
  match a with
  | SetName v => mk v cp tp lp pt ia cc ec le
  | SetCurrentPrice v => mk n v tp lp pt ia cc ec le
  | SetTargetPrice v => mk n cp v lp pt ia cc ec le
  | SetLastPrice v => mk n cp tp v pt ia cc ec le
  | SetPromotionThreshold v => mk n cp tp lp v ia cc ec le
  | SetIsActive v => mk n cp tp lp pt v cc ec le
  | SetCheckCount v => mk n cp tp lp pt ia v ec le
  | SetErrorCount v => mk n cp tp lp pt ia cc v le
  | SetLastError v => mk n cp tp lp pt ia cc ec v
  | SetMetadata _ => mk n cp tp lp pt ia cc ec le
  | Other _ => p
  end.

(** [last_checked = CURRENT_TIMESTAMP]. *)
Definition touch (now : Z) (p : Product) : Product :=
  {| name := name p; url := url p; current_price := current_price p;
     target_price := target_price p; last_price := last_price p;
     channel_id := channel_id p; guild_id := guild_id p; user_id := user_id p;
     last_checked := Some now; is_active := is_active p;
     promotion_threshold := promotion_threshold p;
     check_count := check_count p; error_count := error_count p;
     last_error := last_error p |}.

Definition noFieldsMessage : jsstring :=
  lit "Nenhum campo v" ++ [225%N] ++ lit "lido para atualiza" ++ [231%N; 227%N] ++ lit "o".

Definition notFoundMessage : jsstring :=
  lit "Produto n" ++ [227%N] ++ lit "o encontrado".

(** [Product.findById(id)]. *)
Definition findById (id : Z) (products : gmap Z Product) : option Product :=
  products !! id.

(** [Product.update(id, updates)] at time [now]: the allowed fields are
    written and the row is stamped; it throws when no field is allowed
    and when no row has the key. *)
Definition update (now : Z) (id : Z) (updates : list Assign)
    (products : gmap Z Product) : Result unit * gmap Z Product :=
  let fields := List.filter allowed updates in
  match fields with
  | [] => (Throw noFieldsMessage, products)
  | _ =>
      match products !! id with
      | None => (Throw notFoundMessage, products)
      | Some p =>
          (Ok tt,
           <[id := touch now (fold_left (fun q a => assign a q) fields p)]> products)
      end
  end.

(** What [Product.updatePrice] returns. *)
Record PriceUpdate := {
  oldPrice : option Q;
  newPrice : option Q;
  priceChange : Q
}.

(** [(product.check_count || 0) + 1]. *)
Definition orZero (x : option Z) : Z :=
  match x with Some n => n | None => 0 end.

(** [oldPrice ? ((newPrice - oldPrice) / oldPrice) * 100 : 0]. *)
Definition changePercent (oldPrice newPrice : option Q) : Q :=
  if truthyNum oldPrice
  then ((toNumber newPrice - toNumber oldPrice) / toNumber oldPrice * 100)%Q
  else 0%Q.

Definition updatePrice (now : Z) (id : Z) (newPrice : option Q)
    (products : gmap Z Product) : Result PriceUpdate * gmap Z Product :=
  match findById id products with
  | None => (Throw notFoundMessage, products)
  | Some product =>
      let oldPrice := current_price product in
      match update now id
              [SetCurrentPrice newPrice; SetLastPrice oldPrice;
               SetCheckCount (Some (orZero (check_count product) + 1));
               SetErrorCount (Some 0); SetLastError None] products with
      | (Throw m, products') => (Throw m, products')
      | (Ok _, products') =>
          (Ok {| oldPrice := oldPrice; newPrice := newPrice;
                 priceChange := changePercent oldPrice newPrice |}, products')
      end
  end.

(** [product.error_count >= 4]; a [NULL] counter compares as [0]. *)
Definition tooManyErrors (product : Product) : bool :=
  4 <=? orZero (error_count product).

Definition incrementError (now : Z) (id : Z) (errorMessage : option jsstring)
    (products : gmap Z Product) : Result unit * gmap Z Product :=
  match findById id products with
  | None => (Throw notFoundMessage, products)
  | Some product =>
      match update now id
              [SetErrorCount (Some (orZero (error_count product) + 1));
               SetLastError errorMessage] products with
      | (Throw m, products') => (Throw m, products')
      | (Ok _, products') =>
          if tooManyErrors product
          then update now id [SetIsActive false] products'
          else (Ok tt, products')
      end
  end.

(** The order of [ORDER BY last_checked ASC NULLS FIRST]. *)
Definition checkedBefore (a b : Z * Product) : Prop :=
  match last_checked (snd a), last_checked (snd b) with
  | None, _ => True
  | Some _, None => False
  | Some x, Some y => x <= y
  end.

#[export] Instance checkedBefore_dec a b : Decision (checkedBefore a b).
Proof.
  unfold checkedBefore.
  destruct (last_checked (snd a)), (last_checked (snd b)); apply _.
Defined.

(** The [WHERE] clause of [findForCheck]; a comparison with [NULL] does
    not hold. *)
Definition dueForCheck (now : Z) (intervalMinutes : nat) (p : Product) : bool :=
  is_active p
  && match last_checked p with
     | None => true
     | Some t => t <? now - 60 * Z.of_nat intervalMinutes
     end
  && match error_count p with
     | Some n => n <? 5
     | None => false
     end.

(** [Product.findForCheck(intervalMinutes)] at time [now]. *)
Definition findForCheck (now : Z) (intervalMinutes : nat)
    (products : gmap Z Product) : list (Z * Product) :=
  take 50
    (merge_sort checkedBefore
       (List.filter (fun r => dueForCheck now intervalMinutes (snd r))
          (map_to_list products))).

(** [Product.findActive()]. *)
Definition findActive (products : gmap Z Product) : list (Z * Product) :=
  merge_sort checkedBefore
    (List.filter (fun r => is_active (snd r)) (map_to_list products)).

(** The [WHERE] clause of [reactivateErrorProducts]. *)
Definition staleErrored (now : Z) (p : Product) : bool :=
  negb (is_active p)
  && match error_count p with
     | Some n => 0 <? n
     | None => false
     end
  && match last_checked p with
     | Some t => t <? now - 24 * 3600
     | None => false
     end.

Definition reactivate (p : Product) : Product :=
  assign (SetLastError None) (assign (SetErrorCount (Some 0)) (assign (SetIsActive true) p)).

(** [Product.reactivateErrorProducts()] at time [now]: the rows after it
    and the number of rows changed. *)
Definition reactivateErrorProducts (now : Z) (products : gmap Z Product)
    : nat * gmap Z Product :=
  (List.length (List.filter (fun r => staleErrored now (snd r)) (map_to_list products)),
   (fun p => if staleErrored now p then reactivate p else p) <$> products).

Definition historyRequiredMessage : jsstring :=
  lit "ProductId e price s" ++ [227%N] ++ lit "o obrigat" ++ [243%N] ++ lit "rios".

(** The error of the database for an [INSERT] into [price_history].  The
    schema installs on that table the trigger [calculate_price_change],
    whose body is [UPDATE NEW SET ...]: the database compiles the
    triggers of the table with every [INSERT] into it, finds no table
    called [NEW] and rejects the statement, whatever the row. *)
Definition triggerMessage : jsstring :=
  lit "SQLITE_ERROR: no such table: main.NEW".

(** [INSERT INTO price_history ...] on the database that the schema
    creates: the statement fails and the table is left as it is. *)
Definition insertHistory (record : HistoryRecord) (history : list HistoryRecord)
    : Result unit * list HistoryRecord :=
  (Throw triggerMessage, history).

(** [PriceHistory.add(productId, price, priceChangePercent)] at time
    [now]. *)
Definition historyAdd (now : Z) (productId : Z) (price : option Q)
    (priceChangePercent : option Q) (history : list HistoryRecord)
    : Result unit * list HistoryRecord :=
  if (productId =? 0) || negb (bool_decide (is_Some price))
  then (Throw historyRequiredMessage, history)
  else
    insertHistory
      {| product_id := productId; price := price;
         price_change_percent := priceChangePercent;
         checked_at := now; source := lit "scraping" |}
      history.

(** [PriceHistory.cleanup(daysToKeep)] at time [now]: the number of rows
    deleted and the rows kept.  The limit is
    [datetime('now', '-' || daysToKeep || ' days')]: for a negative
    number of days the modifier starts with two signs, the limit is
    [NULL], no row compares as older and nothing is deleted. *)
Definition historyCleanup (now : Z) (daysToKeep : Z) (history : list HistoryRecord)
    : nat * list HistoryRecord :=
  let old r := (0 <=? daysToKeep) && (checked_at r <? now - daysToKeep * 86400) in
  (List.length (List.filter old history),
   List.filter (fun r => negb (old r)) history).

End Db.

(* ================================================================== *)
(** * PriceMonitor *)
(* ================================================================== *)

Module Monitor.
Import Js Db.

Inductive NotificationType : Type :=
| target_reached
| price_drop
| price_increase.

(** A call of one of the three [send...Notification] methods of the
    notification service. *)
Record NotifierCall := {
  kind : NotificationType;
  callProduct : Z * Product;
  callNewPrice : option Q;
  callOldPrice : option Q;
  callChange : option Q
}.

(** An entry of the list that [checkNotifications] returns: the type and
    whether the service reports the notification as sent. *)
Record Notification := {
  type : NotificationType;
  sent : bool
}.

(** The outcome of the check of one product. *)
Record CheckResult := {
  product : Z * Product;
  success : bool;
  error : option jsstring;
  oldPrice : option Q;
  newPrice : option Q;
  priceChange : option Q;
  notifications : option (list Notification)
}.

Definition failedResult (row : Z * Product) (message : option jsstring) : CheckResult :=
  {| product := row; success := false; error := message; oldPrice := None;
     newPrice := None; priceChange := None; notifications := None |}.

Record Stats := {
  totalChecks : nat;
  successfulChecks : nat;
  failedChecks : nat;
  notificationsSent : nat
}.

(** [this.currentCheck]. *)
Record Check := {
  checkProducts : list (Z * Product);
  results : list CheckResult
}.

(** The monitor object; [notificationService] is [false] for the [null]
    it holds until [start] creates the service. *)
Record MonitorState := {
  isRunning : bool;
  currentCheck : option Check;
  stats : Stats;
  notificationService : bool
}.

(** The statistics of one cycle, built by [processCheckResults]. *)
Record CheckStats := {
  total : nat;
  successful : nat;
  failed : nat;
  notificationCount : nat;
  averagePrice : Q;
  biggestDrop : Q;
  biggestIncrease : Q
}.

(** What the monitor asks of its collaborators, in order. *)
Inductive Effect : Type :=
| Notified (call : NotifierCall)
| Summary (s : CheckStats)
| Maintenance (reactivated cleaned : nat)
| Backup
| Slept (ms : Z).

Record World := {
  products : gmap Z Product;
  history : list HistoryRecord;
  scraper : Scraper.State;
  monitor : MonitorState;
  log : list Effect
}.

(** The environment: the scraper's, the answers of the notification
    service (by the number of effects logged so far; its methods catch
    their own exceptions), and the two settings of [config.monitoring]. *)
Record Env := {
  senv : Scraper.Env;
  notifier : nat -> NotifierCall -> bool;
  checkIntervalMinutes : nat;
  requestDelayMs : Z
}.

Definition setProducts (ps : gmap Z Product) (w : World) : World :=
  {| products := ps; history := history w; scraper := scraper w;
     monitor := monitor w; log := log w |}.

Definition setHistory (h : list HistoryRecord) (w : World) : World :=
  {| products := products w; history := h; scraper := scraper w;
     monitor := monitor w; log := log w |}.

Definition setScraper (s : Scraper.State) (w : World) : World :=
  {| products := products w; history := history w; scraper := s;
     monitor := monitor w; log := log w |}.

Definition setMonitor (m : MonitorState) (w : World) : World :=
  {| products := products w; history := history w; scraper := scraper w;
     monitor := m; log := log w |}.

Definition emit (e : Effect) (w : World) : World :=
  {| products := products w; history := history w; scraper := scraper w;
     monitor := monitor w; log := log w ++ [e] |}.

Definition setStats (s : Stats) (m : MonitorState) : MonitorState :=
  {| isRunning := isRunning m; currentCheck := currentCheck m; stats := s;
     notificationService := notificationService m |}.

Definition setCurrentCheck (c : option Check) (m : MonitorState) : MonitorState :=
  {| isRunning := isRunning m; currentCheck := c; stats := stats m;
     notificationService := notificationService m |}.

Definition countNotification (s : Stats) : Stats :=
  {| totalChecks := totalChecks s; successfulChecks := successfulChecks s;
     failedChecks := failedChecks s; notificationsSent := S (notificationsSent s) |}.

Definition countSuccess (s : Stats) : Stats :=
  {| totalChecks := totalChecks s; successfulChecks := S (successfulChecks s);
     failedChecks := failedChecks s; notificationsSent := notificationsSent s |}.

Definition countFailedCycle (s : Stats) : Stats :=
  {| totalChecks := totalChecks s; successfulChecks := successfulChecks s;
     failedChecks := S (failedChecks s); notificationsSent := notificationsSent s |}.

Definition countCycle (s : Stats) : Stats :=
  {| totalChecks := S (totalChecks s); successfulChecks := successfulChecks s;
     failedChecks := failedChecks s; notificationsSent := notificationsSent s |}.

Definition initialMonitor : MonitorState :=
  {| isRunning := false; currentCheck := None;
     stats := {| totalChecks := 0; successfulChecks := 0; failedChecks := 0;
                 notificationsSent := 0 |};
     notificationService := false |}.

(** [start()]: nothing when already running; otherwise the service is
    created and the schedule registered. *)
Definition start (m : MonitorState) : MonitorState :=
  if isRunning m then m
  else {| isRunning := true; currentCheck := currentCheck m; stats := stats m;
          notificationService := true |}.

(** [stop()]: the schedule is cancelled; a cycle in flight is not. *)
Definition stop (m : MonitorState) : MonitorState :=
  if isRunning m
  then {| isRunning := false; currentCheck := currentCheck m; stats := stats m;
          notificationService := notificationService m |}
  else m.

(** ** The notification rules *)

(** The three tests of [checkNotifications], in the order of its
    [if ... else if ... else if]; at most one rule is chosen. *)
Definition targetReached (p : Product) (newPrice : option Q) (u : PriceUpdate) : bool :=
  Qleb (toNumber newPrice) (toNumber (target_price p))
  && truthyNum (Db.oldPrice u)
  && Qltb (toNumber (target_price p)) (toNumber (Db.oldPrice u)).

Definition significantDrop (p : Product) (u : PriceUpdate) : bool :=
  truthyNum (Some (Db.priceChange u))
  && Qleb (Db.priceChange u) (- (toNumber (promotion_threshold p) * 100))%Q.

Definition significantIncrease (p : Product) (u : PriceUpdate) : bool :=
  truthyNum (Some (Db.priceChange u))
  && Qleb (toNumber (promotion_threshold p) * 200)%Q (Db.priceChange u).

Definition chooseCall (row : Z * Product) (newPrice : option Q) (u : PriceUpdate)
    : option NotifierCall :=
  if targetReached (snd row) newPrice u then
    Some {| kind := target_reached; callProduct := row; callNewPrice := newPrice;
            callOldPrice := Db.oldPrice u; callChange := None |}
  else if significantDrop (snd row) u then
    Some {| kind := price_drop; callProduct := row; callNewPrice := newPrice;
            callOldPrice := Db.oldPrice u; callChange := Some (Db.priceChange u) |}
  else if significantIncrease (snd row) u then
    Some {| kind := price_increase; callProduct := row; callNewPrice := newPrice;
            callOldPrice := Db.oldPrice u; callChange := Some (Db.priceChange u) |}
  else None.

Section WithEnv.
Variable env : Env.

(** [checkNotifications(product, newPrice, priceUpdate)].  Calling a
    method of the service while it is still [null] throws; the [catch]
    logs the error and the list stays empty. *)
Definition checkNotifications (row : Z * Product) (newPrice : option Q)
    (u : PriceUpdate) (w : World) : list Notification * World :=
  match chooseCall row newPrice u with
  | Some call =>
      if notificationService (monitor w) then
        let answer := notifier env (List.length (log w)) call in
        let w1 := emit (Notified call) w in
        ([{| type := kind call; sent := answer |}],
         setMonitor (setStats (countNotification (stats (monitor w1))) (monitor w1)) w1)
      else ([], w)
  | None => ([], w)
  end.

(** The [try] block of [checkProduct] at time [now]. *)
Definition checkProductTry (now : Z) (row : Z * Product) (w : World)
    : Result CheckResult * World :=
  let '(scraped, s1) := Scraper.scrapePrice (senv env) (url (snd row)) (scraper w) in
  let w1 := setScraper s1 w in
  match scraped with
  | Throw m => (Throw m, w1)
  | Ok scrapedData =>
      if negb (Scraper.success scrapedData) then
        match incrementError now (fst row) (Scraper.error scrapedData) (products w1) with
        | (Throw m, ps) => (Throw m, setProducts ps w1)
        | (Ok _, ps) =>
            (Ok (failedResult row (Scraper.error scrapedData)), setProducts ps w1)
        end
      else
        match updatePrice now (fst row) (Scraper.price scrapedData) (products w1) with
        | (Throw m, ps) => (Throw m, setProducts ps w1)
        | (Ok priceUpdate, ps) =>
            let w2 := setProducts ps w1 in
            match historyAdd now (fst row) (Scraper.price scrapedData)
                    (Some (Db.priceChange priceUpdate)) (history w2) with
            | (Throw m, h) => (Throw m, setHistory h w2)
            | (Ok _, h) =>
                let w3 := setHistory h w2 in
                let '(notifs, w4) :=
                  checkNotifications row (Scraper.price scrapedData) priceUpdate w3 in
                (Ok {| product := row; success := true; error := None;
                       oldPrice := Db.oldPrice priceUpdate;
                       newPrice := Scraper.price scrapedData;
                       priceChange := Some (Db.priceChange priceUpdate);
                       notifications := Some notifs |},
                 setMonitor (setStats (countSuccess (stats (monitor w4))) (monitor w4)) w4)
            end
        end
  end.

(** [checkProduct(product)]: the [catch] block counts the error on the
    product and returns a failed outcome; it throws in its turn when
    counting the error does. *)
Definition checkProduct (now : Z) (row : Z * Product) (w : World)
    : Result CheckResult * World :=
  match checkProductTry now row w with
  | (Ok r, w1) => (Ok r, w1)
  | (Throw message, w1) =>
      match incrementError now (fst row) (Some message) (products w1) with
      | (Throw m, ps) => (Throw m, setProducts ps w1)
      | (Ok _, ps) => (Ok (failedResult row (Some message)), setProducts ps w1)
      end
  end.

(** ** The check cycle *)

(** [batch.map(product => this.checkProduct(product).catch(...))] under
    [Promise.all]: a check that throws becomes a failed outcome of its
    product.  The checks of a batch are taken in the order of the
    batch. *)
Fixpoint checkBatch (now : Z) (batch : list (Z * Product)) (w : World)
    : list CheckResult * World :=
  match batch with
  | [] => ([], w)
  | row :: batch' =>
      let '(r, w1) := checkProduct now row w in
      let entry :=
        match r with
        | Ok x => x
        | Throw message => failedResult row (Some message)
        end in
      let '(rs, w2) := checkBatch now batch' w1 in
      (entry :: rs, w2)
  end.

(** [this.currentCheck.results.push(...batchResults)]. *)
Definition pushResults (rs : list CheckResult) (w : World) : Result unit * World :=
  match currentCheck (monitor w) with
  | Some c =>
      (Ok tt,
       setMonitor
         (setCurrentCheck
            (Some {| checkProducts := checkProducts c; results := results c ++ rs |})
            (monitor w)) w)
  | None => (Throw (lit "Cannot read properties of null"), w)
  end.

(** The loop over the batches, with the delay between two of them. *)
Fixpoint runBatches (now : Z) (batches : list (list (Z * Product))) (w : World)
    : Result unit * World :=
  match batches with
  | [] => (Ok tt, w)
  | batch :: batches' =>
      let '(rs, w1) := checkBatch now batch w in
      match pushResults rs w1 with
      | (Throw m, w2) => (Throw m, w2)
      | (Ok _, w2) =>
          match batches' with
          | _ :: _ => runBatches now batches' (emit (Slept (requestDelayMs env)) w2)
          | [] => runBatches now batches' w2
          end
      end
  end.

(** [r.notifications?.length || 0]. *)
Definition notificationsOf (r : CheckResult) : nat :=
  match notifications r with
  | Some l => List.length l
  | None => 0%nat
  end.

Definition Qmin_opt (acc : Q) (x : option Q) : Q :=
  match x with
  | Some c => if Qltb c acc then c else acc
  | None => acc
  end.

Definition Qmax_opt (acc : Q) (x : option Q) : Q :=
  match x with
  | Some c => if Qltb acc c then c else acc
  | None => acc
  end.

Definition cycleStats (rs : list CheckResult) : CheckStats :=
  let successful := List.filter success rs in
  let failed := List.filter (fun r => negb (success r)) rs in
  {| total := List.length rs;
     successful := List.length successful;
     failed := List.length failed;
     notificationCount :=
       fold_left (fun sum r => (sum + notificationsOf r)%nat) successful 0%nat;
     averagePrice :=
       match successful with
       | [] => 0%Q
       | _ =>
           (fold_left (fun sum r => sum + toNumber (newPrice r)) successful 0
            / inject_Z (Z.of_nat (List.length successful)))%Q
       end;
     biggestDrop := fold_left (fun m r => Qmin_opt m (priceChange r)) successful 0%Q;
     biggestIncrease := fold_left (fun m r => Qmax_opt m (priceChange r)) successful 0%Q |}.

(** [performMaintenance()] at time [now]: stale errored products are
    reactivated, history older than 90 days is deleted and, when the
    count of cycles is a multiple of 50, a backup is requested. *)
Definition performMaintenance (now : Z) (w : World) : World :=
  let '(reactivated, ps) := reactivateErrorProducts now (products w) in
  let w1 := setProducts ps w in
  let '(cleaned, h) := historyCleanup now 90 (history w1) in
  let w2 := emit (Maintenance reactivated cleaned) (setHistory h w1) in
  if (totalChecks (stats (monitor w2)) mod 50 =? 0)%nat
  then emit Backup w2
  else w2.

(** [processCheckResults()]. *)
Definition processCheckResults (now : Z) (w : World) : World :=
  match currentCheck (monitor w) with
  | None => w
  | Some c =>
      let st := cycleStats (results c) in
      let w1 := if (5 <=? notificationCount st)%nat then emit (Summary st) w else w in
      if (totalChecks (stats (monitor w1)) mod 10 =? 0)%nat
      then performMaintenance now w1
      else w1
  end.

(** [executeCheck()], up to its first [await]: a trigger that finds a
    cycle in flight returns at once ([false]); otherwise the cycle is
    recorded as the current one ([true]). *)
Definition executeCheckEnter (w : World) : bool * World :=
  match currentCheck (monitor w) with
  | Some _ => (false, w)
  | None =>
      (true,
       setMonitor
         (setCurrentCheck (Some {| checkProducts := []; results := [] |}) (monitor w))
         w)
  end.

Definition setCheckProducts (rows : list (Z * Product)) (w : World) : World :=
  match currentCheck (monitor w) with
  | Some c =>
      setMonitor
        (setCurrentCheck
           (Some {| checkProducts := rows; results := results c |}) (monitor w)) w
  | None => w
  end.

(** The [try] block of [executeCheck] at time [now]; the batches have
    the size 5. *)
Definition executeCheckTry (now : Z) (w : World) : Result unit * World :=
  let rows := findForCheck now (checkIntervalMinutes env) (products w) in
  match rows with
  | [] => (Ok tt, w)
  | _ =>
      let w1 := setCheckProducts rows w in
      let batches := Scraper.chunkLoop (List.length rows) 5 rows in
      match runBatches now batches w1 with
      | (Throw m, w2) => (Throw m, w2)
      | (Ok _, w2) => (Ok tt, processCheckResults now w2)
      end
  end.

(** The [catch] and the [finally] of [executeCheck]: a cycle that threw
    is counted as failed; every cycle is counted and the guard is
    cleared. *)
Definition executeCheckLeave (now : Z) (w : World) : World :=
  let '(r, w1) := executeCheckTry now w in
  let w2 :=
    match r with
    | Ok _ => w1
    | Throw _ =>
        setMonitor (setStats (countFailedCycle (stats (monitor w1))) (monitor w1)) w1
    end in
  setMonitor
    (setCurrentCheck None (setStats (countCycle (stats (monitor w2))) (monitor w2)))
    w2.

(** A whole call of [executeCheck], run without interruption. *)
Definition executeCheck (now : Z) (w : World) : World :=
  match executeCheckEnter w with
  | (true, w1) => executeCheckLeave now w1
  | (false, w1) => w1
  end.

(** ** Triggers that arrive while a cycle runs *)

(** The monitor under its scheduler.  [Trigger] is a call of
    [executeCheck], which runs up to its first [await]; [Finish now] is
    the cycle in flight running to its end.  Between the two the
    scheduler may fire again: the code that a cycle runs between its
    [await]s does not write [currentCheck], so a trigger sees the same
    guard wherever in the cycle it arrives.  [inflight] counts the
    cycles that passed the guard and have not reached their [finally];
    [dropped] counts the triggers that were ignored. *)
Inductive Event : Type :=
| Trigger
| Finish (now : Z).

Record System := {
  world : World;
  inflight : nat;
  dropped : nat
}.

Definition step (s : System) (e : Event) : System :=
  match e with
  | Trigger =>
      match executeCheckEnter (world s) with
      | (true, w) => {| world := w; inflight := S (inflight s); dropped := dropped s |}
      | (false, w) => {| world := w; inflight := inflight s; dropped := S (dropped s) |}
      end
  | Finish now =>
      match inflight s with
      | O => s
      | S n =>
          {| world := executeCheckLeave now (world s); inflight := n;
             dropped := dropped s |}
      end
  end.

Definition run (s : System) (es : list Event) : System := fold_left step es s.

Definition idle (w : World) : System :=
  {| world := w; inflight := 0; dropped := 0 |}.

End WithEnv.

End Monitor.

(* ================================================================== *)
(** * Notions used by the statements *)
(* ================================================================== *)

Module Notions.
Import Js Regex Price Extract.

(** A text that reaches the last resort: it is not empty, something is
    left of it after cleaning and no pattern matches what is left. *)
Definition reachesFallback (s : jsstring) : Prop :=
  truthy s = true /\ truthy (clean s) = true /\
  tryPatterns patterns (clean s) = None.

(** White space is collapsed in a text: a white-space code unit is a
    plain space (32) and is not followed by another one. *)
Fixpoint collapsed (s : jsstring) : Prop :=
  match s with
  | [] => True
  | c :: s' =>
      (isSpace c = true ->
       c = 32%N /\ match s' with d :: _ => isSpace d = false | [] => True end)
      /\ collapsed s'
  end.

(** Auxiliary notions for the cleaning of names. *)
Definition headNotSpace (l : jsstring) : Prop :=
  match l with d :: _ => isSpace d = false | [] => True end.

Definition keepsLineBreaks (c : char) : bool :=
  negb ((c =? 10) || (c =? 13) || (c =? 9))%N.

Definition dashSeparator (c : char) : char := if isSeparator c then 45%N else c.

(** The name that the site-specific selectors give. *)
Definition siteNames (doc : Extract.Document) (cfg : Extract.SiteConfig)
    : Result (option jsstring) :=
  match Extract.nameSelectors cfg with
  | Some sels => Extract.tryNameSelectors doc sels
  | None => Ok None
  end.

Definition siteNameSelectors (cfg : Extract.SiteConfig) : list jsstring :=
  default [] (Extract.nameSelectors cfg).

(** The shape of a result of the scraper: [success] tells that the price
    is a positive number; a failure has no price and an error text, a
    success has no error. *)
Definition wellFormed (r : Scraper.ScrapeResult) : Prop :=
  (Scraper.success r = true <-> exists p, Scraper.price r = Some p /\ (0 < p)%Q) /\
  (Scraper.success r = false ->
     Scraper.price r = None /\ exists m, Scraper.error r = Some m) /\
  (Scraper.success r = true -> Scraper.error r = None).

(** ** The store *)

(** The row of a product after a failed check at time [now]. *)
Definition afterFailure (now : Z) (message : option jsstring) (p : Db.Product) : Db.Product :=
  {| Db.name := Db.name p; Db.url := Db.url p;
     Db.current_price := Db.current_price p; Db.target_price := Db.target_price p;
     Db.last_price := Db.last_price p; Db.channel_id := Db.channel_id p;
     Db.guild_id := Db.guild_id p; Db.user_id := Db.user_id p;
     Db.last_checked := Some now;
     Db.is_active := if Db.tooManyErrors p then false else Db.is_active p;
     Db.promotion_threshold := Db.promotion_threshold p;
     Db.check_count := Db.check_count p;
     Db.error_count := Some (Db.orZero (Db.error_count p) + 1);
     Db.last_error := message |}.

(** The row of a product after [updatePrice] at time [now]. *)
Definition afterSuccess (now : Z) (newPrice : option Q) (p : Db.Product) : Db.Product :=
  {| Db.name := Db.name p; Db.url := Db.url p;
     Db.current_price := newPrice; Db.target_price := Db.target_price p;
     Db.last_price := Db.current_price p; Db.channel_id := Db.channel_id p;
     Db.guild_id := Db.guild_id p; Db.user_id := Db.user_id p;
     Db.last_checked := Some now; Db.is_active := Db.is_active p;
     Db.promotion_threshold := Db.promotion_threshold p;
     Db.check_count := Some (Db.orZero (Db.check_count p) + 1);
     Db.error_count := Some 0;
     Db.last_error := None |}.

(** Consecutive failed checks of the product [id], each with its time and
    its message. *)
Definition failTimes (fs : list (Z * option jsstring)) (id : Z)
    (products : gmap Z Db.Product) : gmap Z Db.Product :=
  fold_left (fun ps f => snd (Db.incrementError (fst f) id (snd f) ps)) fs products.

(** ** The notification rules, as the specification words them *)

(** (a) the new price is at or under the target, and there was a previous
    price (a price of zero counts as none), above the target. *)
Definition ruleTarget (p : Db.Product) (newPrice : option Q) (u : Db.PriceUpdate) : Prop :=
  (toNumber newPrice <= toNumber (Db.target_price p))%Q /\
  exists old, Db.oldPrice u = Some old /\ ~ (old == 0)%Q /\
    (toNumber (Db.target_price p) < old)%Q.

(** (b) the change is at or under minus the threshold times 100. *)
Definition ruleDrop (p : Db.Product) (u : Db.PriceUpdate) : Prop :=
  (Db.priceChange u <= - (toNumber (Db.promotion_threshold p) * 100))%Q.

(** (c) the change is at or above the threshold times 200. *)
Definition ruleIncrease (p : Db.Product) (u : Db.PriceUpdate) : Prop :=
  (toNumber (Db.promotion_threshold p) * 200 <= Db.priceChange u)%Q.

(** The change is not zero: the guard that the code puts before (b) and
    (c). *)
Definition changed (u : Db.PriceUpdate) : Prop := ~ (Db.priceChange u == 0)%Q.

(** The notifications fired between two states of the world. *)
Definition firedBetween (w w' : Monitor.World) (ks : list Monitor.NotificationType) : Prop :=
  exists calls,
    Monitor.log w' = Monitor.log w ++ List.map Monitor.Notified calls /\
    List.map Monitor.kind calls = ks.

(** ** The effects of a cycle *)

Definition isNotified (e : Monitor.Effect) : bool :=
  match e with Monitor.Notified _ => true | _ => false end.

Definition isSummary (e : Monitor.Effect) : bool :=
  match e with Monitor.Summary _ => true | _ => false end.

Definition isMaintenance (e : Monitor.Effect) : bool :=
  match e with Monitor.Maintenance _ _ => true | _ => false end.

Definition isBackup (e : Monitor.Effect) : bool :=
  match e with Monitor.Backup => true | _ => false end.

Definition count (f : Monitor.Effect -> bool) (l : list Monitor.Effect) : nat :=
  List.length (List.filter f l).

(** The notifications listed in the successful outcomes of a cycle: the
    number that [processCheckResults] compares with 5. *)
Definition notifiedBy (rs : list Monitor.CheckResult) : nat :=
  fold_left (fun sum r => (sum + Monitor.notificationsOf r)%nat)
    (List.filter Monitor.success rs) 0%nat.

(** The effects between two states are notifications and delays only,
    [n] notifications in all. *)
Definition quietLog (w w' : Monitor.World) (n : nat) : Prop :=
  exists e,
    Monitor.log w' = Monitor.log w ++ e /\ count isNotified e = n /\
    count isSummary e = 0%nat /\ count isMaintenance e = 0%nat /\
    count isBackup e = 0%nat.

(** The monitor keeps its count of cycles, its current cycle and its
    service. *)
Definition sameCycle (w w' : Monitor.World) : Prop :=
  Monitor.totalChecks (Monitor.stats (Monitor.monitor w'))
    = Monitor.totalChecks (Monitor.stats (Monitor.monitor w)) /\
  Monitor.currentCheck (Monitor.monitor w') = Monitor.currentCheck (Monitor.monitor w) /\
  Monitor.notificationService (Monitor.monitor w')
    = Monitor.notificationService (Monitor.monitor w).

Definition quietStep (w w' : Monitor.World) (n : nat) : Prop :=
  quietLog w w' n /\ sameCycle w w'.

Definition nonEmpty {A : Type} (l : list A) : bool :=
  match l with [] => false | _ => true end.

(** The outcome that the cycle records for a check. *)
Definition recorded (row : Z * Db.Product) (r : Result Monitor.CheckResult)
    : Monitor.CheckResult :=
  match r with
  | Ok x => x
  | Throw message => Monitor.failedResult row (Some message)
  end.

(** The notifications of one outcome that the statistics count. *)
Definition paid (r : Monitor.CheckResult) : nat :=
  if Monitor.success r then Monitor.notificationsOf r else 0%nat.

(** The guard tells whether a cycle is in flight. *)
Definition guarded (s : Monitor.System) : Prop :=
  (Monitor.inflight s = 0%nat /\
   Monitor.currentCheck (Monitor.monitor (Monitor.world s)) = None) \/
  (Monitor.inflight s = 1%nat /\
   Monitor.currentCheck (Monitor.monitor (Monitor.world s)) <> None).

(** ** Batches *)

(** The outcome recorded for a URL is the outcome of its scrape, in
    some state. *)
Definition outcomeOf {W : Type}
    (scrape : jsstring -> W -> Result Scraper.ScrapeResult * W)
    (u : jsstring) (e : Scraper.BatchEntry) : Prop :=
  exists w0, e = Scraper.entryOf u (fst (scrape u w0)).

(** A delay of [makeRequest] before a retry. *)
Definition isBackoff (ms : Z) : Prop := exists c : nat, ms = Scraper.backoff c.

(** The delays awaited from the state [st] to the state [st'], in the
    order in which they were awaited. *)
Definition awaited (st st' : Scraper.State) (delays : list Z) : Prop :=
  rev (Scraper.slept st') = rev (Scraper.slept st) ++ delays.

(** The delays of the groups, with one delay [D] between two groups and
    none after the last. *)
Fixpoint joinGroups (D : Z) (groups : list (list Z)) : list Z :=
  match groups with
  | [] => []
  | [g] => g
  | g :: groups' => g ++ D :: joinGroups D groups'
  end.

Definition totalDelay (l : list Z) : Z := fold_right Z.add 0 l.

End Notions.

(* ================================================================== *)
(** * Concrete pages, networks and stores *)
(* ================================================================== *)

Module Fixtures.
Import Js Extract.

(** A page with a title and, under [h1], a heading (none when empty). *)
Definition page (title heading : jsstring) : Document :=
  {| select := fun sel =>
       if str_eqb sel (lit "title") then Ok [{| text := title; attrs := [] |}]
       else if str_eqb sel (lit "h1") then
         match heading with
         | [] => Ok []
         | _ => Ok [{| text := heading; attrs := [] |}]
         end
       else Ok [];
     html := [] |}.

(** A page whose only name is a title of 250 letters. *)
Definition longTitlePage : Document := page (repeat 97%N 250) [].

Definition headingPage : Document :=
  page (lit "Loja") (lit "  Notebook  Gamer | 16GB ").


(** A product page: one element under [.price], a heading and a title. *)
Definition pricePage (priceText : jsstring) : Document :=
  {| select := fun sel =>
       if str_eqb sel (lit ".price") then Ok [{| text := priceText; attrs := [] |}]
       else if str_eqb sel (lit "h1") then Ok [{| text := lit "Notebook"; attrs := [] |}]
       else if str_eqb sel (lit "title") then Ok [{| text := lit "Loja"; attrs := [] |}]
       else Ok [];
     html := [] |}.

(** A URL with a tracking parameter and the same URL without it. *)
Definition trackedUrl : jsstring := lit "https://loja.com/p?utm_source=x".
Definition plainUrl : jsstring := lit "https://loja.com/p".

Definition lojaUrl (params : list (jsstring * jsstring)) : Scraper.URL :=
  {| Scraper.protocol := lit "https:"; Scraper.hostname := lit "loja.com";
     Scraper.pathname := lit "/p"; Scraper.searchParams := params;
     Scraper.hash := [] |}.

(** A URL parser that knows the two URLs, and a serializer. *)
Definition toyParse (u : jsstring) : option Scraper.URL :=
  if str_eqb u trackedUrl then Some (lojaUrl [(lit "utm_source", lit "x")])
  else if str_eqb u plainUrl then Some (lojaUrl [])
  else None.

Definition toySerialize (u : Scraper.URL) : jsstring :=
  Scraper.protocol u ++ lit "//" ++ Scraper.hostname u ++ Scraper.pathname u
  ++ match Scraper.searchParams u with
     | [] => []
     | (k, v) :: _ => lit "?" ++ k ++ lit "=" ++ v
     end.

Definition timeoutMessage : jsstring := lit "timeout of 10000ms exceeded".

(** A network whose second answer is a page and whose other answers are
    time-outs. *)
Definition flakyNet (n : nat) (u : jsstring) : Scraper.Reply :=
  match n with
  | 1%nat => Scraper.HttpReply 200 (lit "OK") (lit "<html>R$ 99,90</html>")
  | _ => Scraper.Failure timeoutMessage
  end.

(** A network that always times out. *)
Definition deadNet (n : nat) (u : jsstring) : Scraper.Reply :=
  Scraper.Failure timeoutMessage.

Definition toyEnv (net : nat -> jsstring -> Scraper.Reply) : Scraper.Env :=
  {| Scraper.parseURL := toyParse; Scraper.urlToString := toySerialize;
     Scraper.load := fun _ => Ok (pricePage (lit "R$ 99,90"));
     Scraper.net := net; Scraper.maxRetries := 3 |}.


(** A product at 120 with a target of 100 and a threshold of 10%. *)
Definition notebook : Db.Product :=
  {| Db.name := lit "Notebook"; Db.url := plainUrl;
     Db.current_price := Some 120%Q; Db.target_price := Some 100%Q;
     Db.last_price := None; Db.channel_id := lit "c"; Db.guild_id := lit "g";
     Db.user_id := lit "u"; Db.last_checked := None; Db.is_active := true;
     Db.promotion_threshold := Some 0.1%Q; Db.check_count := Some 0;
     Db.error_count := Some 0; Db.last_error := None |}.

Definition shop : gmap Z Db.Product := {[ 1 := notebook ]}.


(** The same product with a threshold of zero. *)
Definition steady : Db.Product :=
  Db.assign (Db.SetPromotionThreshold (Some 0%Q)) notebook.

Definition monitorEnv (net : nat -> jsstring -> Scraper.Reply) : Monitor.Env :=
  {| Monitor.senv := toyEnv net; Monitor.notifier := fun _ _ => true;
     Monitor.checkIntervalMinutes := 60; Monitor.requestDelayMs := 2000 |}.

(** The world once the monitor is started, with a store. *)
Definition startedWorld (store : gmap Z Db.Product) : Monitor.World :=
  {| Monitor.products := store; Monitor.history := [];
     Monitor.scraper := Scraper.initialState;
     Monitor.monitor := Monitor.start Monitor.initialMonitor;
     Monitor.log := [] |}.

(** What [updatePrice] returns for a price that goes from [old] to [new]. *)
Definition priceMove (old new : Q) : Db.PriceUpdate :=
  {| Db.oldPrice := Some old; Db.newPrice := Some new;
     Db.priceChange := Db.changePercent (Some old) (Some new) |}.


(** The started world after [n] cycles have been counted. *)
Definition worldAfter (n : nat) (store : gmap Z Db.Product) : Monitor.World :=
  Monitor.setMonitor
    (Monitor.setStats
       {| Monitor.totalChecks := n; Monitor.successfulChecks := 0;
          Monitor.failedChecks := 0; Monitor.notificationsSent := 0 |}
       (Monitor.start Monitor.initialMonitor))
    (startedWorld store).

End Fixtures.

(* ================================================================== *)
(** * Further notions *)
(* ================================================================== *)

Module MoreNotions.
Import Js Regex Price Extract.

(** The delays of [k] consecutive retries that start with a counter at
    [retryCount], in the order in which they are awaited. *)
Definition backoffs (retryCount k : nat) : list Z :=
  List.map Scraper.backoff (seq retryCount k).

(** The indicators of [shouldRetry] that are written in lower case. *)
Definition lowerCaseIndicators : list jsstring :=
  [lit "timeout"; lit "network"; lit "5"; lit "rate limit"].

(** A query parameter that [normalizeUrl] keeps. *)
Definition keptParam (kv : jsstring * jsstring) : bool :=
  negb (existsb (str_eqb (fst kv)) Scraper.trackingParams).

(** The rows of the store that are due for a check, in no order. *)
Definition dueRows (now : Z) (intervalMinutes : nat) (products : gmap Z Db.Product)
    : list (Z * Db.Product) :=
  List.filter (fun r => Db.dueForCheck now intervalMinutes (snd r))
    (map_to_list products).

(** Cycles run one after the other at the given times. *)
Definition cycles (env : Monitor.Env) (times : list Z) (w : Monitor.World)
    : Monitor.World :=
  fold_left (fun w0 t => Monitor.executeCheck env t w0) times w.

(** The product [id] of a store carries the stamp of a check at time
    [now]. *)
Definition stamped (now id : Z) (ps : gmap Z Db.Product) : Prop :=
  exists p : Db.Product, ps !! id = Some p /\ Db.last_checked p = Some now.

(** From the store [ps] to the store [ps'] no product is lost and no
    stamp of time [now] is removed. *)
Definition advance (now : Z) (ps ps' : gmap Z Db.Product) : Prop :=
  forall (id : Z) (p : Db.Product), ps !! id = Some p ->
    exists p' : Db.Product, ps' !! id = Some p' /\
      (Db.last_checked p = Some now -> Db.last_checked p' = Some now).

End MoreNotions.

(* ================================================================== *)
(** * Further concrete inputs *)
(* ================================================================== *)

Module MoreFixtures.
Import Js Extract Fixtures.

(** A network that answers every request with a page of status 200 that
    mentions a robot. *)
Definition robotNet (n : nat) (u : jsstring) : Scraper.Reply :=
  Scraper.HttpReply 200 (lit "OK") (lit "<h1>Aspirador Robot X</h1>").

(** A network that answers every request with a page of status 200. *)
Definition okNet (n : nat) (u : jsstring) : Scraper.Reply :=
  Scraper.HttpReply 200 (lit "OK") (lit "<html>R$ 99,90</html>").

(** A product that failed five times and was last checked at time 0. *)
Definition broken : Db.Product :=
  Db.assign (Db.SetIsActive false)
    (Db.assign (Db.SetErrorCount (Some 5))
       (Db.touch 0 notebook)).

Definition brokenShop : gmap Z Db.Product := {[ 1 := broken ]}.

(** Two records of the history, the first one old. *)
Definition oldRecord : Db.HistoryRecord :=
  {| Db.product_id := 1; Db.price := Some 120%Q; Db.price_change_percent := None;
     Db.checked_at := 0; Db.source := lit "initial" |}.

Definition newRecord : Db.HistoryRecord :=
  {| Db.product_id := 1; Db.price := Some 95%Q;
     Db.price_change_percent := Some (Db.changePercent (Some 120%Q) (Some 95%Q));
     Db.checked_at := 8000000; Db.source := lit "scraping" |}.

End MoreFixtures.

(* ================================================================== *)
(** * The Product model: creation and removal *)
(* ================================================================== *)

Module ProductOps.
Import Js Db.

(** The object given to [Product.create]; a field that is absent is
    [None]. *)
Record ProductData := {
  name : option jsstring;
  url : option jsstring;
  currentPrice : option Q;
  targetPrice : option Q;
  channelId : option jsstring;
  guildId : option jsstring;
  userId : option jsstring;
  promotionThreshold : option Q
}.

(** Truthiness of a string that may be absent. *)
Definition truthyStr (s : option jsstring) : bool :=
  match s with
  | Some x => truthy x
  | None => false
  end.

Definition requiredMessage : jsstring :=
  lit "Dados obrigat" ++ [243%N] ++ lit "rios n" ++ [227%N] ++ lit "o fornecidos".

(** The error of the database for a second row with the same [url]
    (the column is declared [UNIQUE]). *)
Definition uniqueMessage : jsstring :=
  lit "SQLITE_CONSTRAINT: UNIQUE constraint failed: products.url".

Definition deniedMessage : jsstring :=
  lit "Produto n" ++ [227%N] ++ lit "o encontrado ou sem permiss" ++ [227%N] ++ lit "o".

(** Some row of the table has the address [u]. *)
Definition urlTaken (u : jsstring) (products : gmap Z Db.Product) : bool :=
  existsb (fun r => bool_decide (Db.url (snd r) = u)) (map_to_list products).

(** The row that the [INSERT] of [create] writes at time [now]: the
    columns that it does not name take the defaults of the schema. *)
Definition newRow (now : Z) (data : ProductData) : Db.Product :=
  {| Db.name := if truthyStr (name data) then default [] (name data)
                else lit "Produto sem nome";
     Db.url := default [] (url data);
     Db.current_price := currentPrice data;
     Db.target_price := targetPrice data;
     Db.last_price := None;
     Db.channel_id := default [] (channelId data);
     Db.guild_id := default [] (guildId data);
     Db.user_id := default [] (userId data);
     Db.last_checked := Some now;
     Db.is_active := true;
     Db.promotion_threshold := promotionThreshold data;
     Db.check_count := Some 0;
     Db.error_count := Some 0;
     Db.last_error := None |}.

(** The test of [create] on its required fields. *)
Definition complete (data : ProductData) : bool :=
  truthyStr (url data) && truthyNum (targetPrice data) && truthyStr (channelId data)
  && truthyStr (guildId data) && truthyStr (userId data).

(** [Product.create(productData)] at time [now]; [rowid] is the key that
    the database assigns to the new row. *)
Definition create (now rowid : Z) (data : ProductData) (products : gmap Z Db.Product)
    : Result Z * gmap Z Db.Product :=
  if negb (complete data) then (Throw requiredMessage, products)
  else if urlTaken (default [] (url data)) products then (Throw uniqueMessage, products)
  else (Ok rowid, <[rowid := newRow now data]> products).

(** The row that [WHERE id = ?], with [AND guild_id = ?] when a guild is
    given, selects. *)
Definition selected (id : Z) (guild : option jsstring) (products : gmap Z Db.Product)
    : option Db.Product :=
  match products !! id with
  | Some p =>
      if truthyStr guild
      then if bool_decide (Db.guild_id p = default [] guild) then Some p else None
      else Some p
  | None => None
  end.

(** [Product.deactivate(id, guildId)]. *)
Definition deactivate (id : Z) (guild : option jsstring) (products : gmap Z Db.Product)
    : Result unit * gmap Z Db.Product :=
  match selected id guild products with
  | Some p => (Ok tt, <[id := Db.assign (Db.SetIsActive false) p]> products)
  | None => (Throw deniedMessage, products)
  end.

(** [Product.delete(id, guildId)]. *)
Definition delete (id : Z) (guild : option jsstring) (products : gmap Z Db.Product)
    : Result unit * gmap Z Db.Product :=
  match selected id guild products with
  | Some _ => (Ok tt, base.delete id products)
  | None => (Throw deniedMessage, products)
  end.

(** [Product.findActive()]. *)
Definition findActive (products : gmap Z Db.Product) : list (Z * Db.Product) :=
  merge_sort Db.checkedBefore
    (List.filter (fun r => Db.is_active (snd r)) (map_to_list products)).

End ProductOps.

(* ================================================================== *)
(** * PriceMonitor: the manual check and the statistics *)
(* ================================================================== *)

Module ManualCheck.
Import Js Db Monitor.

(** What [forceCheck] returns. *)
Record Summary := {
  total : nat;
  successful : nat;
  failed : nat;
  results : list CheckResult
}.

Section WithEnv.
Variable env : Monitor.Env.

(** The loop of [forceCheck] over the products, at time [now]; [many]
    is [products.length > 1]. *)
Fixpoint forceLoop (now : Z) (many : bool) (rows : list (Z * Product)) (w : World)
    : Result (list CheckResult) * World :=
  match rows with
  | [] => (Ok [], w)
  | row :: rows' =>
      match checkProduct env now row w with
      | (Throw m, w1) => (Throw m, w1)
      | (Ok r, w1) =>
          let w2 := if many then emit (Slept 1000) w1 else w1 in
          match forceLoop now many rows' w2 with
          | (Throw m, w3) => (Throw m, w3)
          | (Ok rs, w3) => (Ok (r :: rs), w3)
          end
      end
  end.

Definition summarize (rs : list CheckResult) : Summary :=
  let n := List.length (List.filter success rs) in
  {| total := List.length rs; successful := n;
     failed := (List.length rs - n)%nat; results := rs |}.

(** [forceCheck(productId)] at time [now]. *)
Definition forceCheck (now : Z) (productId : option Z) (w : World)
    : Result Summary * World :=
  let chosen :=
    match productId with
    | Some id =>
        if id =? 0 then Ok (ProductOps.findActive (products w))
        else match findById id (products w) with
             | Some p => Ok [(id, p)]
             | None => Throw notFoundMessage
             end
    | None => Ok (ProductOps.findActive (products w))
    end in
  match chosen with
  | Throw m => (Throw m, w)
  | Ok rows =>
      match forceLoop now (1 <? List.length rows)%nat rows w with
      | (Throw m, w1) => (Throw m, w1)
      | (Ok rs, w1) => (Ok (summarize rs), w1)
      end
  end.

End WithEnv.

(** [resetStats()]. *)
Definition resetStats (w : World) : World :=
  setMonitor
    (setStats {| totalChecks := 0; successfulChecks := 0; failedChecks := 0;
                 notificationsSent := 0 |} (monitor w)) w.

End ManualCheck.

Module ManualNotions.
Import Js Notions.

Definition isSlept (e : Monitor.Effect) : bool :=
  match e with Monitor.Slept _ => true | _ => false end.

(** From [w] to [w'] no summary was sent, no maintenance was run and no
    backup was requested. *)
Definition calm (w w' : Monitor.World) : Prop :=
  count isSummary (Monitor.log w') = count isSummary (Monitor.log w) /\
  count isMaintenance (Monitor.log w') = count isMaintenance (Monitor.log w) /\
  count isBackup (Monitor.log w') = count isBackup (Monitor.log w).

(** The delays logged in [w]. *)
Definition sleeps (w : Monitor.World) : nat := count isSlept (Monitor.log w).


(** The data of a valid registration of the address [u]. *)
Definition registration (u : jsstring) (target : Q) : ProductOps.ProductData :=
  {| ProductOps.name := None; ProductOps.url := Some u;
     ProductOps.currentPrice := None; ProductOps.targetPrice := Some target;
     ProductOps.channelId := Some (lit "c"); ProductOps.guildId := Some (lit "g");
     ProductOps.userId := Some (lit "u"); ProductOps.promotionThreshold := None |}.

End ManualNotions.

(* ================================================================== *)
(** * NotificationService: the queue and the cooldowns *)
(* ================================================================== *)

Module Notifier.
Import Js.

Section Service.

(** The embed, the buttons and the mention of a notification, as the
    Discord library builds them. *)
Variable Payload : Type.

(** [notificationData]; of the product only the key is read here. *)
Record NotificationData := {
  type : jsstring;
  productId : Z;
  payload : Payload
}.

(** What leaves the service: a message that the channel accepted, a
    message whose sending threw (the error is logged and the message
    dropped), and the delay between two messages. *)
Inductive Effect : Type :=
| Delivered (d : NotificationData)
| Lost (d : NotificationData)
| Delay (ms : Z).

(** The fields of the service; times are milliseconds. *)
Record State := {
  notificationCooldowns : gmap jsstring Z;
  notificationQueue : list NotificationData;
  isProcessingQueue : bool;
  outbox : list Effect
}.

(** The environment: [config.notifications.cooldownMinutes], whether
    [sendDiscordNotification] returns ([true]) or throws ([false]) for
    the message, by the number of messages tried before it, and what
    building the embed of a call gives. *)
Record Env := {
  cooldownMinutes : Z;
  deliver : nat -> NotificationData -> bool;
  embed : Monitor.NotifierCall -> Result Payload
}.

Variable env : Env.

(** The decimal text of a key, as a template literal prints it. *)
Definition showZ (z : Z) : jsstring :=
  match z with
  | Z0 => lit "0"
  | Zpos p => Scraper.showN (Npos p)
  | Zneg p => lit "-" ++ Scraper.showN (Npos p)
  end.

(** The key of a cooldown: the key of the product, an underscore and the
    type. *)
Definition cooldownKey (d : NotificationData) : jsstring :=
  showZ (productId d) ++ lit "_" ++ type d.

Definition cooldownTime : Z := cooldownMinutes env * 60 * 1000.

Definition isAttempt (e : Effect) : bool :=
  match e with
  | Delivered _ | Lost _ => true
  | Delay _ => false
  end.

(** The messages tried so far. *)
Definition attempts (out : list Effect) : nat :=
  List.length (List.filter isAttempt out).

(** The [while] loop of [processNotificationQueue] on the queue it
    finds, no notification being queued while it runs: each message is
    taken from the front and sent; a delay of two seconds follows a
    message that was sent when the queue is not empty yet. *)
Fixpoint drain (queue : list NotificationData) (out : list Effect) : list Effect :=
  match queue with
  | [] => out
  | d :: queue' =>
      if deliver env (attempts out) d then
        drain queue'
          (out ++ Delivered d :: match queue' with [] => [] | _ => [Delay 2000] end)
      else drain queue' (out ++ [Lost d])
  end.

(** [processNotificationQueue()]. *)
Definition processNotificationQueue (st : State) : State :=
  if isProcessingQueue st || match notificationQueue st with [] => true | _ => false end
  then st
  else {| notificationCooldowns := notificationCooldowns st;
          notificationQueue := [];
          isProcessingQueue := false;
          outbox := drain (notificationQueue st) (outbox st) |}.

(** The test of [queueNotification] at time [now]: a notification of the
    same key was queued less than the cooldown ago. *)
Definition inCooldown (now : Z) (d : NotificationData) (st : State) : bool :=
  match notificationCooldowns st !! cooldownKey d with
  | Some lastSent => now - lastSent <? cooldownTime
  | None => false
  end.

(** [queueNotification(notificationData)] at time [now]. *)
Definition queueNotification (now : Z) (d : NotificationData) (st : State) : State :=
  if inCooldown now d st then st
  else
    let st1 :=
      {| notificationCooldowns := <[cooldownKey d := now]> (notificationCooldowns st);
         notificationQueue := notificationQueue st ++ [d];
         isProcessingQueue := isProcessingQueue st;
         outbox := outbox st |} in
    if isProcessingQueue st1 then st1 else processNotificationQueue st1.

(** [cleanupCooldowns()] at time [now]. *)
Definition cleanupCooldowns (now : Z) (st : State) : State :=
  {| notificationCooldowns :=
       filter (fun kv => ~ (now - snd kv > cooldownTime)) (notificationCooldowns st);
     notificationQueue := notificationQueue st;
     isProcessingQueue := isProcessingQueue st;
     outbox := outbox st |}.

(** The text of the [type] of a notification. *)
Definition typeName (k : Monitor.NotificationType) : jsstring :=
  match k with
  | Monitor.target_reached => lit "target_reached"
  | Monitor.price_drop => lit "price_drop"
  | Monitor.price_increase => lit "price_increase"
  end.

(** The numbers on which a method calls [toFixed]; on [null] the call
    throws.  The three methods print the new price and the target price
    of the product; the notifications of a drop and of an increase print
    the old price and the change as well. *)
Definition printable (call : Monitor.NotifierCall) : bool :=
  let product := snd (Monitor.callProduct call) in
  bool_decide (is_Some (Monitor.callNewPrice call))
  && bool_decide (is_Some (Db.target_price product))
  && match Monitor.kind call with
     | Monitor.target_reached => true
     | _ =>
         bool_decide (is_Some (Monitor.callOldPrice call))
         && bool_decide (is_Some (Monitor.callChange call))
     end.

(** [sendTargetReachedNotification], [sendPriceDropNotification] and
    [sendPriceIncreaseNotification] at time [now], by the kind of the
    call: the [sent] of the object returned, and the service
    afterwards.  An exception raised while the embed is built is caught
    and gives [sent: false]; otherwise the notification is handed to
    [queueNotification] and [sent: true] is returned. *)
Definition send (now : Z) (call : Monitor.NotifierCall) (st : State) : bool * State :=
  if printable call then
    match embed env call with
    | Ok body =>
        (true,
         queueNotification now
           {| type := typeName (Monitor.kind call);
              productId := fst (Monitor.callProduct call);
              payload := body |} st)
    | Throw _ => (false, st)
    end
  else (false, st).

End Service.

Arguments type {Payload} _.
Arguments productId {Payload} _.
Arguments payload {Payload} _.
Arguments Delivered {Payload} _.
Arguments Lost {Payload} _.
Arguments Delay {Payload} _.
Arguments notificationCooldowns {Payload} _.
Arguments notificationQueue {Payload} _.
Arguments isProcessingQueue {Payload} _.
Arguments outbox {Payload} _.
Arguments cooldownMinutes {Payload} _.
Arguments deliver {Payload} _ _ _.
Arguments embed {Payload} _ _.
Arguments cooldownKey {Payload} _.
Arguments cooldownTime {Payload} _.
Arguments isAttempt {Payload} _.
Arguments attempts {Payload} _.
Arguments drain {Payload} _ _ _.
Arguments processNotificationQueue {Payload} _ _.
Arguments inCooldown {Payload} _ _ _ _.
Arguments queueNotification {Payload} _ _ _ _.
Arguments cleanupCooldowns {Payload} _ _ _.
Arguments send {Payload} _ _ _ _.

End Notifier.

Module NotifierNotions.
Import Js Notifier.

Section Service.
Context {Payload : Type}.

(** The message of an attempt. *)
Definition attempted (e : Effect Payload) : option (NotificationData Payload) :=
  match e with
  | Delivered d | Lost d => Some d
  | Delay _ => None
  end.

(** The messages tried, in the order of the attempts. *)
Definition tried (out : list (Effect Payload)) : list (NotificationData Payload) :=
  omap attempted out.

Definition isDelay (e : Effect Payload) : bool :=
  match e with Delay _ => true | _ => false end.

Definition isDelivered (e : Effect Payload) : bool :=
  match e with Delivered _ => true | _ => false end.

(** The service is at rest: nothing is queued and no loop runs. *)
Definition atRest (st : State Payload) : Prop :=
  notificationQueue st = [] /\ isProcessingQueue st = false.

End Service.

(** A service that has sent nothing yet. *)
Definition fresh {Payload : Type} : State Payload :=
  {| notificationCooldowns := ∅; notificationQueue := [];
     isProcessingQueue := false; outbox := [] |}.

(** An environment with a cooldown of ten minutes, whose client is not
    configured (every sending throws) and whose embeds are built. *)
Definition muteEnv : Env unit :=
  {| cooldownMinutes := 10; deliver := fun _ _ => false; embed := fun _ => Ok tt |}.

Definition alert (id : Z) : NotificationData unit :=
  {| type := lit "price_drop"; productId := id; payload := tt |}.

(** The notebook without a target price, and the call that the monitor
    chooses for it when its price goes from 120 to 95. *)
Definition untargeted : Z * Db.Product :=
  (1, Db.assign (Db.SetTargetPrice None) Fixtures.notebook).

Definition dropCall : Monitor.NotifierCall :=
  {| Monitor.kind := Monitor.price_drop; Monitor.callProduct := untargeted;
     Monitor.callNewPrice := Some 95%Q; Monitor.callOldPrice := Some 120%Q;
     Monitor.callChange := Some (Db.changePercent (Some 120%Q) (Some 95%Q)) |}.

End NotifierNotions.

(* ================================================================== *)
(** * PriceScraper: the supported sites *)
(* ================================================================== *)

Module Sites.
Import Js Extract.

Inductive Confidence : Type :=
| high
| medium
| low
| none.

(** What [isSupportedSite] returns. *)
Record Support := {
  supported : bool;
  confidence : Confidence
}.

(** [s.split(sep)] for a separator of one code unit. *)
Definition split (sep : char) (s : jsstring) : list jsstring :=
  fold_right
    (fun c acc =>
       if char_eqb c sep then [] :: acc
       else match acc with
            | h :: t => (c :: h) :: t
            | [] => [[c]]
            end)
    [[]] s.

(** [l.join(sep)]. *)
Fixpoint join (sep : jsstring) (l : list jsstring) : jsstring :=
  match l with
  | [] => []
  | [x] => x
  | x :: l' => x ++ sep ++ join sep l'
  end.

(** [domain.split('.').slice(-2).join('.')]. *)
Definition lastTwoLabels (domain : jsstring) : jsstring :=
  let labels := split 46%N domain in
  join (lit ".") (drop (List.length labels - 2) labels).

Definition ecommerceIndicators : list jsstring :=
  [lit "shop"; lit "store"; lit "loja"; lit "compra"].

(** The keys of the configurations that the constructor installs, in
    the order of [Object.keys]. *)
Definition initialDomains : list jsstring :=
  [lit "amazon.com.br"; lit "mercadolivre.com.br"; lit "americanas.com.br";
   lit "magazineluiza.com.br"; lit "submarino.com.br"; lit "casasbahia.com.br"].

(** The body of [isSupportedSite] for a domain and the keys of
    [this.siteConfigs]. *)
Definition supportOf (supportedDomains : list jsstring) (domain : jsstring) : Support :=
  if bool_decide (domain ∈ supportedDomains) then
    {| supported := true; confidence := high |}
  else
    let partialMatch :=
      List.find
        (fun supported =>
           includes supported domain || includes (lastTwoLabels domain) supported)
        supportedDomains in
    if match partialMatch with Some m => truthy m | None => false end then
      {| supported := true; confidence := medium |}
    else
      let hasEcommerceIndicator :=
        existsb (fun indicator => includes indicator domain) ecommerceIndicators in
      {| supported := hasEcommerceIndicator;
         confidence := if hasEcommerceIndicator then low else none |}.

(** [isSupportedSite(url)]. *)
Definition isSupportedSite (env : Scraper.Env) (supportedDomains : list jsstring)
    (url : jsstring) : Support :=
  supportOf supportedDomains (Scraper.extractDomain env url).

(** The object given to [addSiteConfig], with keys among the four of a
    configuration; a key that is absent is [None]. *)
Record ConfigPatch := {
  patchSelectors : option (list jsstring);
  patchNameSelectors : option (list jsstring);
  patchCurrency : option jsstring;
  patchWaitTime : option Z
}.

Definition setSiteConfigs (cs : gmap jsstring SiteConfig) (st : Scraper.State)
    : Scraper.State :=
  {| Scraper.retryAttempts := Scraper.retryAttempts st; Scraper.siteConfigs := cs;
     Scraper.sent := Scraper.sent st; Scraper.slept := Scraper.slept st |}.

(** The defaults of [addSiteConfig] with the keys of the object spread
    over them. *)
Definition withDefaults (config : ConfigPatch) : SiteConfig :=
  {| selectors := Some (default [] (patchSelectors config));
     nameSelectors := Some (default [] (patchNameSelectors config));
     currency := default (lit "BRL") (patchCurrency config);
     waitTime := default 2000 (patchWaitTime config) |}.

(** [this.siteConfigs] is an object literal, so a name that is not one
    of its own keys is looked up in its prototype.  The name [__proto__]
    is the prototype itself: an assignment to it adds no key but
    installs the object assigned as the prototype, and [delete] does not
    undo that.  In the map of the configurations the key [__proto__]
    stands for the prototype that such an assignment installed: it
    answers the look-up of that name with the configuration, as the
    object does, and it is no key of [Object.keys]. *)
Definition protoKey : jsstring := lit "__proto__".

(** The names of the properties of [Object.prototype]; the value of each
    is a function, or the prototype for [__proto__]. *)
Definition objectPrototypeKeys : list jsstring :=
  [lit "constructor"; lit "__defineGetter__"; lit "__defineSetter__";
   lit "hasOwnProperty"; lit "__lookupGetter__"; lit "__lookupSetter__";
   lit "isPrototypeOf"; lit "propertyIsEnumerable"; lit "toString";
   lit "valueOf"; protoKey; lit "toLocaleString"].

(** The truthiness of [this.siteConfigs[domain]] for a name that is not
    an own key: the name is a property of [Object.prototype], or a
    prototype was installed and the name is one of its keys, with a
    value that is truthy (a list of selectors always is, a currency
    when it is not empty, a wait time when it is not zero). *)
Definition inheritedTruthy (st : Scraper.State) (domain : jsstring) : bool :=
  bool_decide (domain ∈ objectPrototypeKeys)
  || match Scraper.siteConfigs st !! protoKey with
     | Some proto =>
         (str_eqb domain (lit "selectors") && bool_decide (is_Some (selectors proto)))
         || (str_eqb domain (lit "nameSelectors")
             && bool_decide (is_Some (nameSelectors proto)))
         || (str_eqb domain (lit "currency") && truthy (currency proto))
         || (str_eqb domain (lit "waitTime") && negb (waitTime proto =? 0))
     | None => false
     end.

(** [addSiteConfig(domain, config)]: the assignment adds or replaces the
    own key, and installs the prototype for [__proto__]. *)
Definition addSiteConfig (domain : jsstring) (config : ConfigPatch)
    (st : Scraper.State) : Scraper.State :=
  setSiteConfigs (<[domain := withDefaults config]> (Scraper.siteConfigs st)) st.

(** [removeSiteConfig(domain)]: [true] when [this.siteConfigs[domain]]
    is truthy, own or inherited; [delete] removes an own key only. *)
Definition removeSiteConfig (domain : jsstring) (st : Scraper.State)
    : bool * Scraper.State :=
  if str_eqb domain protoKey then (true, st)
  else
    match Scraper.siteConfigs st !! domain with
    | Some _ => (true, setSiteConfigs (delete domain (Scraper.siteConfigs st)) st)
    | None => (inheritedTruthy st domain, st)
    end.

(** A configuration with other price selectors. *)
Definition withSelectors (sels : list jsstring) (cfg : SiteConfig) : SiteConfig :=
  {| selectors := Some sels; nameSelectors := nameSelectors cfg;
     currency := currency cfg; waitTime := waitTime cfg |}.

(** The keys of [this.siteConfigs] are the ones of the list. *)
Definition keysOf (domains : list jsstring) (st : Scraper.State) : Prop :=
  forall k, k ∈ domains <-> is_Some (Scraper.siteConfigs st !! k).

End Sites.

Module SitesFixtures.
Import Js Fixtures.

(** A shop that is not configured, and a parser that knows its
    address. *)
Definition padariaUrl : jsstring := lit "https://www.padaria.com.br/pao".

Definition padariaEnv : Scraper.Env :=
  {| Scraper.parseURL := fun _ =>
       Some {| Scraper.protocol := lit "https:";
               Scraper.hostname := lit "www.padaria" ++ lit ".com.br";
               Scraper.pathname := lit "/pao"; Scraper.searchParams := [];
               Scraper.hash := [] |};
     Scraper.urlToString := toySerialize;
     Scraper.load := fun _ => Ok (pricePage (lit "R$ 99,90"));
     Scraper.net := deadNet; Scraper.maxRetries := 3 |}.

(** A configuration that names one selector. *)
Definition padariaPatch : Sites.ConfigPatch :=
  {| Sites.patchSelectors := Some [lit ".preco"]; Sites.patchNameSelectors := None;
     Sites.patchCurrency := None; Sites.patchWaitTime := None |}.

(** A page whose query engine rejects one selector, and a scraper whose
    configuration of [loja.com] names that selector, for the name or for
    the price. *)
Definition pickyPage : Extract.Document :=
  {| Extract.select := fun sel =>
       if str_eqb sel (lit "h1[") then Throw (lit "Unmatched selector: [")
       else Extract.select (pricePage (lit "R$ 99,90")) sel;
     Extract.html := [] |}.

Definition pickyEnv : Scraper.Env :=
  {| Scraper.parseURL := toyParse; Scraper.urlToString := toySerialize;
     Scraper.load := fun _ => Ok pickyPage;
     Scraper.net := deadNet; Scraper.maxRetries := 3 |}.

Definition pickyNames : Scraper.State :=
  Sites.addSiteConfig (lit "loja.com")
    {| Sites.patchSelectors := None; Sites.patchNameSelectors := Some [lit "h1["];
       Sites.patchCurrency := None; Sites.patchWaitTime := None |}
    Scraper.initialState.

Definition pickyPrices : Scraper.State :=
  Sites.addSiteConfig (lit "loja.com")
    {| Sites.patchSelectors := Some [lit "h1["]; Sites.patchNameSelectors := None;
       Sites.patchCurrency := None; Sites.patchWaitTime := None |}
    Scraper.initialState.

End SitesFixtures.

(* ================================================================== *)
(** * Properties of the price parser *)
(* ================================================================== *)

Import Js Regex Price Notions.

Lemma Qltb_lt (x y : Q) : Qltb x y = true <-> (x < y)%Q.
Proof. unfold Qltb, Qlt. apply Z.ltb_lt. Qed.

Lemma Qleb_le (x y : Q) : Qleb x y = true <-> (x <= y)%Q.
Proof. unfold Qleb. apply Qle_bool_iff. Qed.

Lemma positiveOrNull_Some (x : option Q) (q : Q) :
  positiveOrNull x = Some q -> x = Some q /\ (0 < q)%Q.
Proof.
  destruct x as [p|]; simpl; [|discriminate].
  destruct (Qltb 0 p) eqn:E; [|discriminate].
  intros [= <-]. split; [reflexivity | now apply Qltb_lt].
Qed.

Lemma convert_pos (p : pattern) (c : jsstring) (m : captures) (q : Q) :
  convert p c m = Some q -> (0 < q)%Q.
Proof.
  unfold convert.
  repeat match goal with |- context [if ?b then _ else _] => destruct b end;
    intros H; apply positiveOrNull_Some in H; tauto.
Qed.

Lemma tryPatterns_pos (ps : list pattern) (c : jsstring) (q : Q) :
  tryPatterns ps c = Some (Some q) -> (0 < q)%Q.
Proof.
  induction ps as [|p ps IH]; simpl; [discriminate|].
  destruct (exec (re p) c) as [m|]; [|exact IH].
  intros [= H]. eapply convert_pos; eassumption.
Qed.

(** The last resort accepts exactly the values strictly between 0 and
    1,000,000. *)
Lemma fallback_Some (c : jsstring) (q : Q) :
  fallback c = Some q <->
  directParse c = Some q /\ (0 < q)%Q /\ (q < 1000000)%Q.
Proof.
  unfold fallback. destruct (directParse c) as [d|].
  - destruct (Qltb 0 d && Qltb d 1000000) eqn:E.
    + apply andb_true_iff in E as [E1 E2].
      apply Qltb_lt in E1. apply Qltb_lt in E2.
      split; [intros [= <-]; auto | intros ([= <-] & _); reflexivity].
    + split; [discriminate|]. intros ([= <-] & H1 & H2).
      apply Qltb_lt in H1. apply Qltb_lt in H2. rewrite H1, H2 in E. discriminate.
  - split; [discriminate | intros (H & _); discriminate].
Qed.

Lemma parsePrice_pos (s : jsstring) (q : Q) :
  parsePrice s = Some q -> (0 < q)%Q.
Proof.
  unfold parsePrice.
  destruct (negb (truthy s)); [discriminate|].
  destruct (negb (truthy (clean s))); [discriminate|].
  destruct (tryPatterns patterns (clean s)) as [r|] eqn:E.
  - intros ->. eapply tryPatterns_pos; eassumption.
  - intros H. apply fallback_Some in H. tauto.
Qed.

Lemma parsePrice_fallback (s : jsstring) :
  reachesFallback s -> parsePrice s = fallback (clean s).
Proof.
  intros (H1 & H2 & H3). unfold parsePrice. now rewrite H1, H2, H3.
Qed.

(** C3 (counterexample).  The specification expects [parsePrice("-5")] to
    be [null]; the minus sign is stripped with the other characters that
    are neither digit, dot nor comma, and the text is read as 5. *)
Lemma parsePrice_minus_five_accepted :
  parsePrice (lit "-5") = Some 5%Q /\ parsePrice (lit "-5") <> None.
Proof. split; [vm_compute; reflexivity | vm_compute; discriminate]. Qed.

(** C3 (amended).  [parsePrice] reads "1.234,56" and "1234.56" as 1234.56,
    "R$ 99,90" as 99.90, rejects "abc", and reads "-5" as 5 because the
    sign is stripped before parsing; whatever the text, a result is
    strictly positive (anything else is [null]); and a text that reaches
    the last resort (commas turned into dots, direct numeric parse) is
    accepted exactly when the value read lies strictly between 0 and
    1,000,000. *)
Theorem parsePrice_vectors_and_bounds :
  parsePrice (lit "1.234,56") = Some 1234.56%Q /\
  parsePrice (lit "1234.56") = Some 1234.56%Q /\
  parsePrice (lit "abc") = None /\
  parsePrice (lit "-5") = Some 5%Q /\
  parsePrice (lit "R$ 99,90") = Some 99.90%Q /\
  (forall s q, parsePrice s = Some q -> (0 < q)%Q) /\
  (forall s q, reachesFallback s ->
     (parsePrice s = Some q <->
      directParse (clean s) = Some q /\ (0 < q)%Q /\ (q < 1000000)%Q)).
Proof.
  split; [vm_compute; reflexivity|].
  split; [vm_compute; reflexivity|].
  split; [vm_compute; reflexivity|].
  split; [vm_compute; reflexivity|].
  split; [vm_compute; reflexivity|].
  split; [exact parsePrice_pos|].
  intros s q R. rewrite (parsePrice_fallback _ R). apply fallback_Some.
Qed.

(** "12,5" matches no pattern and is read as 12.5 by the last resort. *)
Lemma parsePrice_vectors_and_bounds_witness :
  reachesFallback (lit "12,5") /\ parsePrice (lit "12,5") = Some 12.5%Q /\
  (0 < 12.5)%Q.
Proof.
  assert (R : reachesFallback (lit "12,5")) by (vm_compute; auto).
  assert (E : parsePrice (lit "12,5") = Some 12.5%Q) by (vm_compute; reflexivity).
  split; [exact R|]. split; [exact E|].
  destruct parsePrice_vectors_and_bounds as (_ & _ & _ & _ & _ & Hpos & Hfb).
  exact (proj1 (proj2 (proj1 (Hfb _ 12.5%Q R) E))).
Defined.

(* ================================================================== *)
(** * Properties of the extraction of names *)
(* ================================================================== *)

Import Extract Fixtures.

Lemma trimStart_drop (l : jsstring) : exists j, trimStart l = drop j l.
Proof.
  induction l as [|c l [j IH]]; simpl.
  - now exists 0%nat.
  - destruct (isSpace c).
    + exists (S j). exact IH.
    + now exists 0%nat.
Qed.

Lemma trimEnd_take (l : jsstring) : exists k, trimEnd l = take k l.
Proof.
  unfold trimEnd. destruct (trimStart_drop (rev l)) as [j ->].
  exists (List.length l - j)%nat.
  rewrite skipn_rev, rev_involutive. reflexivity.
Qed.

Lemma trim_take_drop (l : jsstring) : exists j k, trim l = take k (drop j l).
Proof.
  unfold trim. destruct (trimStart_drop l) as [j ->].
  destruct (trimEnd_take (drop j l)) as [k ->]. now exists j, k.
Qed.

Lemma collapsed_take (k : nat) (l : jsstring) : collapsed l -> collapsed (take k l).
Proof.
  revert k. induction l as [|c l IH]; intros [|k]; simpl; auto.
  intros [Hc Hl]. split; [|now apply IH].
  intros Hs. destruct (Hc Hs) as [-> Hn]. split; [reflexivity|].
  destruct l as [|d l], k as [|k]; simpl; auto.
Qed.

Lemma collapsed_drop (j : nat) (l : jsstring) : collapsed l -> collapsed (drop j l).
Proof.
  revert j. induction l as [|c l IH]; intros [|j]; simpl; auto.
  intros [_ Hl]. now apply IH.
Qed.

Lemma collapseFrom_collapsed (b : bool) (s : jsstring) :
  collapsed (collapseFrom b s) /\ (b = true -> headNotSpace (collapseFrom b s)).
Proof.
  revert b. induction s as [|c s IH]; intros b; simpl; [auto|].
  destruct (isSpace c) eqn:Ec.
  - destruct b.
    + apply IH.
    + split; [|discriminate]. simpl. split; [|apply IH].
      intros _. split; [reflexivity|]. now apply (IH true).
  - split; [|intros _; exact Ec]. simpl. split; [|apply IH].
    rewrite Ec. discriminate.
Qed.

Lemma collapsed_filter_id (l : jsstring) :
  collapsed l -> List.filter keepsLineBreaks l = l.
Proof.
  induction l as [|c l IH]; simpl; [reflexivity|].
  intros [Hc Hl]. rewrite (IH Hl).
  assert (keepsLineBreaks c = true) as ->; [|reflexivity].
  unfold keepsLineBreaks.
  destruct (N.eqb_spec c 10) as [->|]; [now destruct (Hc eq_refl)|].
  destruct (N.eqb_spec c 13) as [->|]; [now destruct (Hc eq_refl)|].
  destruct (N.eqb_spec c 9) as [->|]; [now destruct (Hc eq_refl)|].
  reflexivity.
Qed.

Lemma dashSeparator_space (c : char) :
  isSpace (dashSeparator c) = isSpace c /\
  (isSpace c = true -> dashSeparator c = c) /\
  isSeparator (dashSeparator c) = false.
Proof.
  unfold dashSeparator, isSeparator.
  destruct (N.eqb_spec c 124) as [->|H1]; [now vm_compute|].
  destruct (N.eqb_spec c 8226) as [->|H2]; [now vm_compute|].
  destruct (N.eqb_spec c 183) as [->|H3]; [now vm_compute|].
  simpl. repeat split.
  apply orb_false_iff; split; [apply orb_false_iff; split|]; now apply N.eqb_neq.
Qed.

Lemma collapsed_map_dash (l : jsstring) :
  collapsed l -> collapsed (List.map dashSeparator l).
Proof.
  induction l as [|c l IH]; simpl; [auto|].
  intros [Hc Hl]. split; [|now apply IH].
  destruct (dashSeparator_space c) as (E1 & E2 & _).
  rewrite E1. intros Hs. rewrite (E2 Hs). destruct (Hc Hs) as [Hc1 Hc2].
  split; [exact Hc1|]. destruct l as [|d l]; simpl; [exact I|].
  now rewrite (proj1 (dashSeparator_space d)).
Qed.

Lemma cleanProductName_eq (name : jsstring) :
  cleanProductName name =
  take 150 (trim (List.map dashSeparator (collapseSpaces name))).
Proof.
  unfold cleanProductName, substring0.
  change (fun c : N => negb ((c =? 10) || (c =? 13) || (c =? 9))%N) with keepsLineBreaks.
  change (fun c : N => if isSeparator c then 45%N else c) with dashSeparator.
  rewrite collapsed_filter_id; [reflexivity|].
  apply (collapseFrom_collapsed false).
Qed.

(** What a cleaned name looks like. *)
Lemma cleanProductName_normal (name : jsstring) :
  (List.length (cleanProductName name) <= 150)%nat /\
  Forall (fun c => isSeparator c = false) (cleanProductName name) /\
  collapsed (cleanProductName name).
Proof.
  rewrite cleanProductName_eq.
  destruct (trim_take_drop (List.map dashSeparator (collapseSpaces name)))
    as (j & k & ->).
  split; [rewrite length_take; lia|]. split.
  - apply Forall_take, Forall_take, Forall_drop, Forall_map, Forall_forall.
    intros c _. apply dashSeparator_space.
  - apply collapsed_take, collapsed_take, collapsed_drop, collapsed_map_dash.
    apply (collapseFrom_collapsed false).
Qed.

Lemma nameOk_length (cand : jsstring) :
  nameOk cand = true <-> (0 < List.length cand < 200)%nat.
Proof.
  unfold nameOk. rewrite !andb_true_iff, !Nat.ltb_lt.
  destruct cand; simpl; split; intros; try lia; intuition (try discriminate; lia).
Qed.

Lemma tryNameSelectors_Some (doc : Document) (sels : list jsstring) (n : jsstring) :
  tryNameSelectors doc sels = Ok (Some n) ->
  exists sel cand, sel ∈ sels /\ firstText doc sel = Ok cand /\
    (0 < List.length cand < 200)%nat /\ n = cleanProductName cand.
Proof.
  induction sels as [|s sels IH]; simpl; [discriminate|].
  destruct (firstText doc s) as [cand|m] eqn:E; [|discriminate].
  destruct (nameOk cand) eqn:Eok.
  - intros [= <-]. exists s, cand. apply nameOk_length in Eok.
    repeat split; try tauto. apply list_elem_of_here.
  - intros H. destruct (IH H) as (sel & c & Hin & ?).
    exists sel, c. split; [now apply list_elem_of_further | assumption].
Qed.

Lemma tryNameSelectors_None (doc : Document) (sels : list jsstring) :
  (forall sel, sel ∈ sels ->
     exists cand, firstText doc sel = Ok cand /\ ~ (0 < List.length cand < 200)%nat) ->
  tryNameSelectors doc sels = Ok None.
Proof.
  induction sels as [|s sels IH]; simpl; [reflexivity|].
  intros H. destruct (H s (list_elem_of_here _ _)) as (cand & -> & Hn).
  destruct (nameOk cand) eqn:Eok; [apply nameOk_length in Eok; contradiction|].
  apply IH. intros sel Hin. apply H. now apply list_elem_of_further.
Qed.

Lemma titleFallback_Some (doc : Document) (n : jsstring) :
  titleFallback doc = Ok (Some n) <->
  exists cand, pageTitleText doc = Ok cand /\ (0 < List.length cand)%nat /\
    n = cleanProductName cand.
Proof.
  unfold titleFallback. destruct (pageTitleText doc) as [cand|m].
  - destruct cand as [|c cand]; simpl.
    + split; [discriminate|]. intros (? & [= <-] & H & _). simpl in H. lia.
    + split.
      * intros [= <-]. eexists. repeat split. simpl. lia.
      * intros (? & [= <-] & _ & ->). reflexivity.
  - split; [discriminate|]. intros (? & H & _). discriminate.
Qed.

(** C8 (counterexample).  A page whose only name is a title of 250 letters:
    the title is accepted although its trimmed length is not below 200, and
    its first 150 letters are returned. *)
Lemma extractProductName_long_title_accepted :
  pageTitleText longTitlePage = Ok (repeat 97%N 250) /\
  extractProductName longTitlePage noConfig = Ok (Some (repeat 97%N 150)).
Proof. split; vm_compute; reflexivity. Qed.

(** C8 (amended).  [extractProductName] takes the name of the first
    site-specific selector whose candidate is accepted, otherwise of the
    first generic selector, otherwise of the page title.  The candidate of
    a selector is accepted only if its trimmed length is strictly between
    0 and 200; the page title is accepted whenever its trimmed text is not
    empty, whatever its length.  Every name returned is the candidate
    normalized (white space collapsed to single spaces, no separator glyph
    left) and cut to at most 150 code units, and [null] is returned when
    no selector has a candidate of that length and the title is empty. *)
Theorem extractProductName_cascade (doc : Document) (cfg : SiteConfig) :
  (forall n, siteNames doc cfg = Ok (Some n) ->
     extractProductName doc cfg = Ok (Some n)) /\
  (siteNames doc cfg = Ok None ->
     forall n, tryNameSelectors doc genericNameSelectors = Ok (Some n) ->
       extractProductName doc cfg = Ok (Some n)) /\
  (siteNames doc cfg = Ok None ->
     tryNameSelectors doc genericNameSelectors = Ok None ->
     extractProductName doc cfg = titleFallback doc) /\
  (forall sels n, tryNameSelectors doc sels = Ok (Some n) ->
     exists sel cand, sel ∈ sels /\ firstText doc sel = Ok cand /\
       (0 < List.length cand < 200)%nat /\ n = cleanProductName cand) /\
  (forall n, titleFallback doc = Ok (Some n) <->
     exists cand, pageTitleText doc = Ok cand /\ (0 < List.length cand)%nat /\
       n = cleanProductName cand) /\
  (forall n, extractProductName doc cfg = Ok (Some n) ->
     (List.length n <= 150)%nat /\
     Forall (fun c => isSeparator c = false) n /\ collapsed n) /\
  ((forall sel, sel ∈ siteNameSelectors cfg ++ genericNameSelectors ->
      exists cand, firstText doc sel = Ok cand /\
        ~ (0 < List.length cand < 200)%nat) ->
   pageTitleText doc = Ok [] ->
   extractProductName doc cfg = Ok None).
Proof.
  assert (Hcases : forall n, extractProductName doc cfg = Ok (Some n) ->
            exists cand, n = cleanProductName cand).
  { intros n. unfold extractProductName.
    fold (siteNames doc cfg).
    destruct (siteNames doc cfg) as [[s|]|] eqn:Es; [| |discriminate].
    - intros [= <-]. unfold siteNames in Es.
      destruct (nameSelectors cfg); [|discriminate].
      apply tryNameSelectors_Some in Es as (? & c & _ & _ & _ & ->). now exists c.
    - destruct (tryNameSelectors doc genericNameSelectors) as [[g|]|] eqn:Eg;
        [| |discriminate].
      + intros [= <-].
        apply tryNameSelectors_Some in Eg as (? & c & _ & _ & _ & ->). now exists c.
      + intros H. apply titleFallback_Some in H as (c & _ & _ & ->). now exists c. }
  unfold extractProductName. fold (siteNames doc cfg).
  split; [intros n ->; reflexivity|].
  split; [intros -> n ->; reflexivity|].
  split; [intros -> ->; reflexivity|].
  split; [apply tryNameSelectors_Some|].
  split; [apply titleFallback_Some|].
  split.
  - intros n H. destruct (Hcases n) as [c ->].
    + unfold extractProductName. fold (siteNames doc cfg). exact H.
    + apply cleanProductName_normal.
  - intros Hall Htitle.
    assert (Es : siteNames doc cfg = Ok None).
    { unfold siteNames. unfold siteNameSelectors in Hall.
      destruct (nameSelectors cfg) as [sels|]; [|reflexivity].
      apply tryNameSelectors_None. intros sel Hin. apply Hall. simpl.
      apply elem_of_app. now left. }
    rewrite Es, tryNameSelectors_None.
    + unfold titleFallback. now rewrite Htitle.
    + intros sel Hin. apply Hall. apply elem_of_app. now right.
Qed.

(** On a page with the heading "  Notebook  Gamer | 16GB " the name is
    "Notebook Gamer - 16GB". *)
Lemma extractProductName_cascade_witness :
  extractProductName headingPage noConfig = Ok (Some (lit "Notebook Gamer - 16GB")) /\
  (List.length (lit "Notebook Gamer - 16GB") <= 150)%nat.
Proof.
  assert (E : extractProductName headingPage noConfig
              = Ok (Some (lit "Notebook Gamer - 16GB"))) by (vm_compute; reflexivity).
  split; [exact E|].
  destruct (extractProductName_cascade headingPage noConfig)
    as (_ & _ & _ & _ & _ & H & _).
  exact (proj1 (H _ E)).
Defined.

(* ================================================================== *)
(** * Properties of the scrape of one URL *)
(* ================================================================== *)

Import Scraper.

Lemma truthyPrice_Some (x : option Q) (p : Q) :
  truthyPrice x = Some p -> x = Some p.
Proof. unfold truthyPrice. destruct (truthyNum x); [auto | discriminate]. Qed.

Lemma truthyPrice_parse_pos (s : jsstring) (p : Q) :
  truthyPrice (parsePrice s) = Some p -> (0 < p)%Q.
Proof. intros H. apply truthyPrice_Some in H. eapply parsePrice_pos, H. Qed.

Lemma tryAttributes_pos (names : list jsstring) (e : Element) (p : Q) :
  tryAttributes names e = Some p -> (0 < p)%Q.
Proof.
  induction names as [|a names IH]; simpl; [discriminate|].
  destruct (attr a (attrs e)) as [v|]; [|exact IH].
  destruct (truthy v); [|exact IH].
  destruct (truthyPrice (parsePrice v)) as [q|] eqn:E; [|exact IH].
  intros [= <-]. eapply truthyPrice_parse_pos, E.
Qed.

Lemma tryElement_pos (e : Element) (p : Q) : tryElement e = Some p -> (0 < p)%Q.
Proof.
  unfold tryElement.
  destruct (truthy (trim (text e))).
  - destruct (truthyPrice (parsePrice (trim (text e)))) as [q|] eqn:E.
    + intros [= <-]. eapply truthyPrice_parse_pos, E.
    + apply tryAttributes_pos.
  - apply tryAttributes_pos.
Qed.

Lemma tryElements_pos (es : list Element) (p : Q) :
  tryElements es = Some p -> (0 < p)%Q.
Proof.
  induction es as [|e es IH]; simpl; [discriminate|].
  destruct (tryElement e) as [q|] eqn:E; [|exact IH].
  intros [= <-]. eapply tryElement_pos, E.
Qed.

Lemma trySelectors_pos (doc : Document) (sels : list jsstring) (p : Q) :
  trySelectors doc sels = Some p -> (0 < p)%Q.
Proof.
  induction sels as [|s sels IH]; simpl; [discriminate|].
  destruct (truthyPrice (tryExtractPrice doc s)) as [q|] eqn:E; [|exact IH].
  intros [= <-]. apply truthyPrice_Some in E. unfold tryExtractPrice in E.
  destruct (select doc s); [|discriminate]. eapply tryElements_pos, E.
Qed.

Lemma tryHtmlPatterns_pos (ps : list regex) (h : jsstring) (p : Q) :
  tryHtmlPatterns ps h = Some p -> (0 < p)%Q.
Proof.
  induction ps as [|r ps IH]; simpl; [discriminate|].
  destruct (exec r h) as [m|]; [|exact IH].
  destruct (truthyPrice (parsePrice (group 1 m))) as [q|] eqn:E; [|exact IH].
  intros [= <-]. eapply truthyPrice_parse_pos, E.
Qed.

(** A price extracted from a page is strictly positive. *)
Lemma extractPrice_pos (doc : Document) (cfg : SiteConfig) (p : Q) :
  extractPrice doc cfg = Some p -> (0 < p)%Q.
Proof.
  unfold extractPrice.
  destruct (match selectors cfg with Some sels => trySelectors doc sels | None => None end)
    as [q|] eqn:E.
  - intros [= <-]. destruct (selectors cfg); [|discriminate].
    eapply trySelectors_pos, E.
  - destruct (trySelectors doc genericSelectors) as [q|] eqn:E2.
    + intros [= <-]. eapply trySelectors_pos, E2.
    + apply tryHtmlPatterns_pos.
Qed.

Lemma wellFormed_failure (m u d : jsstring) :
  wellFormed {| price := None; name := None; success := false;
                error := Some m; url := u; domain := d |}.
Proof.
  repeat split; simpl; try discriminate.
  - intros (p & H & _). discriminate.
  - now exists m.
Qed.

Lemma extractData_wellFormed (env : Env) (h d u : jsstring) (st : State) :
  wellFormed (extractData env h d u st).
Proof.
  unfold extractData, extractDataTry.
  destruct (load env h) as [doc|m]; [|apply wellFormed_failure].
  destruct (extractProductName doc (configOf st d)) as [n|m];
    [|apply wellFormed_failure].
  destruct (extractPrice doc (configOf st d)) as [p|] eqn:E.
  - pose proof (extractPrice_pos _ _ _ E) as Hp.
    assert (Qltb 0 p = true) as -> by now apply Qltb_lt.
    repeat split; simpl; try discriminate; eauto.
  - repeat split; simpl; try discriminate; eauto.
    intros (p & H & _). discriminate.
Qed.

(** A scrape returns a result of the expected shape. *)
Lemma scrapePrice_wellFormed (env : Env) (u : jsstring) (st : State) :
  exists r st', scrapePrice env u st = (Ok r, st') /\ wellFormed r.
Proof.
  unfold scrapePrice, scrapePriceTry.
  destruct (negb (isValidUrl env u)).
  - eexists _, _. split; [reflexivity|]. apply wellFormed_failure.
  - destruct (makeRequest env (normalizeUrl env u) _ st) as [[resp|m] st1].
    + eexists _, _. split; [reflexivity|].
      apply (extractData_wellFormed env (data resp)
               (extractDomain env (normalizeUrl env u)) (normalizeUrl env u) st1).
    + eexists _, _. split; [reflexivity|]. apply wellFormed_failure.
Qed.

(** C10.  Whatever the URL, the state and the environment (the network,
    the URL parser, the HTML engine), [scrapePrice] throws nothing: it
    returns a result, in which [success] is true exactly when the price is
    a number strictly greater than 0; when [success] is false the price
    is [null] and the error is a text, and when it is true the error is
    [null]. *)
Theorem scrapePrice_never_throws (env : Env) (u : jsstring) (st : State) :
  exists r st',
    scrapePrice env u st = (Ok r, st') /\
    (success r = true <-> exists p, price r = Some p /\ (0 < p)%Q) /\
    (success r = false -> price r = None /\ exists m, error r = Some m) /\
    (success r = true -> error r = None).
Proof.
  destruct (scrapePrice_wellFormed env u st) as (r & st' & E & H).
  exists r, st'. split; [exact E | exact H].
Qed.

(* ================================================================== *)
(** * Properties of the retries *)
(* ================================================================== *)

Lemma retryCountOf_insert (f : State) (u : jsstring) (n : nat) :
  retryCountOf (setRetryAttempts (insert u n) f) u = n.
Proof. unfold retryCountOf, setRetryAttempts. simpl. now rewrite lookup_insert_eq. Qed.

(** [makeRequest] obeys the equation of the source: the result of the
    request when it succeeds; after a failure that may be retried, the
    counter of the URL is incremented, the delay awaited and the request
    made again; any other failure is thrown at once. *)
Lemma makeRequest_eq (env : Env) (u d : jsstring) (st : State) :
  makeRequest env u d st =
  match attempt (net env (sent st) u) with
  | Ok response => (Ok response, countRequest st)
  | Throw message =>
      if (retryCountOf st u <? maxRetries env)%nat && shouldRetry message
      then makeRequest env u d
             (delay (backoff (retryCountOf st u))
                (setRetryAttempts (insert u (retryCountOf st u + 1)%nat)
                   (countRequest st)))
      else (Throw message, countRequest st)
  end.
Proof.
  unfold makeRequest at 1.
  destruct (Nat.ltb_spec (retryCountOf st u) (maxRetries env)) as [Hlt|Hge].
  - destruct (maxRetries env - retryCountOf st u)%nat as [|b] eqn:Eb; [lia|].
    simpl. apply Nat.ltb_lt in Hlt as Hlt'. rewrite Hlt'.
    destruct (attempt _); [reflexivity|].
    destruct (shouldRetry message); [|reflexivity].
    simpl. unfold makeRequest. f_equal.
    change (retryCountOf (delay ?x ?s) u) with (retryCountOf s u).
    rewrite retryCountOf_insert. lia.
  - assert (E : (maxRetries env - retryCountOf st u = 0)%nat) by lia.
    rewrite E. simpl. apply Nat.ltb_ge in Hge. rewrite Hge.
    destruct (attempt _); reflexivity.
Qed.

(** C4 (what the code does at the failing input).  With 3 retries
    allowed, the URL [trackedUrl] is scraped on a network whose first
    answer is a time-out and whose second is the page: the scrape
    succeeds after one retry, and the counter, kept under the normalized
    URL, is still 1 afterwards because it is deleted under the URL as
    given.  A second scrape on a network that now times out makes
    three requests with two retries (after 2000 and 4000 ms) where a
    fresh URL gets four requests with three retries (after 1000, 2000 and
    4000 ms).  Besides, the message of a connection reset or refused
    is not classified as retryable, the message being matched in lower
    case against indicators in upper case. *)
Theorem retry_counter_survives_success :
  let first := scrapePrice (toyEnv flakyNet) trackedUrl initialState in
  let second := scrapePrice (toyEnv flakyNet) trackedUrl (snd first) in
  let fresh := scrapePrice (toyEnv deadNet) trackedUrl initialState in
  normalizeUrl (toyEnv flakyNet) trackedUrl = plainUrl /\
  (exists r, fst first = Ok r /\ success r = true /\ price r = Some 99.90%Q) /\
  slept (snd first) = [1000] /\
  retryAttempts (snd first) !! plainUrl = Some 1%nat /\
  slept (snd second) = [4000; 2000] ++ slept (snd first) /\
  sent (snd second) = (sent (snd first) + 3)%nat /\
  slept (snd fresh) = [4000; 2000; 1000] /\
  sent (snd fresh) = 4%nat /\
  shouldRetry timeoutMessage = true /\
  shouldRetry (lit "read ECONNRESET") = false /\
  shouldRetry (lit "connect ECONNREFUSED 10.0.0.1:443") = false.
Proof.
  cbv zeta. repeat split; try (vm_compute; reflexivity).
  eexists. repeat split; vm_compute; reflexivity.
Qed.

(* ================================================================== *)
(** * Properties of the batches *)
(* ================================================================== *)

Lemma chunkLoop_concat {A} (size : nat) (fuel : nat) (l : list A) :
  (0 < size)%nat -> (List.length l <= fuel)%nat ->
  concat (chunkLoop fuel size l) = l.
Proof.
  intros Hs. revert l. induction fuel as [|fuel IH]; intros l Hl.
  - destruct l; [reflexivity | simpl in Hl; lia].
  - destruct l as [|a l]; [reflexivity|].
    change (chunkLoop (S fuel) size (a :: l))
      with (take size (a :: l) :: chunkLoop fuel size (drop size (a :: l))).
    simpl concat. rewrite IH; [apply take_drop|].
    rewrite length_drop. simpl in *. lia.
Qed.

Lemma chunkLoop_sizes {A} (size : nat) (fuel : nat) (l : list A) :
  (0 < size)%nat -> (List.length l <= fuel)%nat ->
  forall i c, chunkLoop fuel size l !! i = Some c ->
    (0 < List.length c <= size)%nat /\
    (S i < List.length (chunkLoop fuel size l) -> List.length c = size)%nat.
Proof.
  intros Hs. revert l. induction fuel as [|fuel IH]; intros l Hl i c.
  - destruct l; [discriminate | simpl in Hl; lia].
  - destruct l as [|a l]; [discriminate|].
    change (chunkLoop (S fuel) size (a :: l))
      with (take size (a :: l) :: chunkLoop fuel size (drop size (a :: l))).
    assert (Hd : (List.length (drop size (a :: l)) <= fuel)%nat).
    { rewrite length_drop. simpl in *. lia. }
    destruct i as [|i]; simpl lookup.
    + intros [= <-]. rewrite length_take. split; [simpl; lia|].
      simpl List.length at 1. intros Hlen.
      destruct (drop size (a :: l)) as [|b r] eqn:Er.
      * destruct fuel; simpl in Hlen; lia.
      * assert (List.length (drop size (a :: l)) > 0)%nat by (rewrite Er; simpl; lia).
        rewrite length_drop in H. lia.
    + intros H. destruct (IH _ Hd i c H) as [H1 H2]. split; [exact H1|].
      simpl List.length. intros Hlen. apply H2. lia.
Qed.

Lemma chunkLoop_count {A} (size : nat) (fuel : nat) (l : list A) :
  (0 < size)%nat -> (List.length l <= fuel)%nat ->
  List.length (chunkLoop fuel size l) = ((List.length l + size - 1) / size)%nat.
Proof.
  intros Hs. revert l. induction fuel as [|fuel IH]; intros l Hl.
  - destruct l; [|simpl in Hl; lia]. simpl. symmetry. apply Nat.div_small. lia.
  - destruct l as [|a l]; [simpl; symmetry; apply Nat.div_small; lia|].
    change (chunkLoop (S fuel) size (a :: l))
      with (take size (a :: l) :: chunkLoop fuel size (drop size (a :: l))).
    simpl List.length at 1. rewrite IH by (rewrite length_drop; simpl in *; lia).
    rewrite length_drop.
    set (n := List.length (a :: l)). assert (0 < n)%nat by (subst n; simpl; lia).
    destruct (Nat.le_gt_cases n size) as [Hle|Hgt].
    + replace (n - size)%nat with 0%nat by lia.
      rewrite (Nat.div_small (0 + size - 1)) by lia.
      apply (Nat.div_unique _ _ 1%nat (n - 1)%nat); lia.
    + replace (n + size - 1)%nat with ((n - size + size - 1) + 1 * size)%nat by lia.
      rewrite Nat.div_add by lia. lia.
Qed.

Lemma allSettled_entries (env : Env) (chunk : list jsstring) (st : State) :
  Forall2 (outcomeOf (scrapePrice env)) chunk
    (List.map (fun ur => entryOf (fst ur) (snd ur))
       (combine chunk (fst (allSettled env chunk st)))).
Proof.
  revert st. induction chunk as [|u chunk IH]; intros st; simpl; [constructor|].
  destruct (scrapePrice env u st) as [r st1] eqn:E.
  specialize (IH st1). destruct (allSettled env chunk st1) as [rs st2].
  simpl in *. constructor; [|exact IH].
  exists st. now rewrite E.
Qed.

Lemma awaited_same (st st' : State) : slept st' = slept st -> awaited st st' [].
Proof. intros E. unfold awaited. now rewrite E, app_nil_r. Qed.

Lemma awaited_trans (st1 st2 st3 : State) (l1 l2 : list Z) :
  awaited st1 st2 l1 -> awaited st2 st3 l2 -> awaited st1 st3 (l1 ++ l2).
Proof. unfold awaited. intros H1 H2. now rewrite H2, H1, <- app_assoc. Qed.

Lemma awaited_delay (ms : Z) (st : State) : awaited st (delay ms st) [ms].
Proof. reflexivity. Qed.

Lemma makeRequestLoop_awaited (env : Env) (u d : jsstring) (budget : nat) :
  forall st,
  exists bs, awaited st (snd (makeRequestLoop env budget u d st)) bs /\
             Forall isBackoff bs.
Proof.
  induction budget as [|budget IH]; intros st; cbn [makeRequestLoop];
    destruct (attempt (net env (sent st) u)) as [resp|m];
    try (exists []; split; [now apply awaited_same | constructor]);
    destruct ((retryCountOf st u <? maxRetries env)%nat && shouldRetry m);
    try (exists []; split; [now apply awaited_same | constructor]).
  destruct (IH (delay (backoff (retryCountOf st u))
                  (setRetryAttempts (insert u (retryCountOf st u + 1)%nat)
                     (countRequest st)))) as (bs & Ha & Hb).
  exists (backoff (retryCountOf st u) :: bs). split.
  - change (backoff (retryCountOf st u) :: bs)
      with ([backoff (retryCountOf st u)] ++ bs).
    eapply awaited_trans; [|exact Ha]. reflexivity.
  - constructor; [now exists (retryCountOf st u) | exact Hb].
Qed.

(** The delays that a scrape awaits are the ones of its retries. *)
Lemma scrapePrice_awaited (env : Env) (u : jsstring) (st : State) :
  exists bs, awaited st (snd (scrapePrice env u st)) bs /\ Forall isBackoff bs.
Proof.
  unfold scrapePrice, scrapePriceTry.
  destruct (isValidUrl env u); cbn [negb].
  2: { exists []. split; [now apply awaited_same | constructor]. }
  unfold makeRequest.
  destruct (makeRequestLoop_awaited env (normalizeUrl env u)
              (extractDomain env (normalizeUrl env u))
              (maxRetries env - retryCountOf st (normalizeUrl env u)) st)
    as (bs & Ha & Hb).
  exists bs. split; [|exact Hb].
  destruct (makeRequestLoop env _ _ _ st) as [[resp|m] st1]; cbn [snd] in *.
  - destruct (success (extractData env (data resp) _ _ st1)); exact Ha.
  - exact Ha.
Qed.

Lemma allSettled_awaited (env : Env) (chunk : list jsstring) :
  forall st,
  exists bs, awaited st (snd (allSettled env chunk st)) bs /\ Forall isBackoff bs.
Proof.
  induction chunk as [|u chunk IH]; intros st; cbn [allSettled].
  - exists []. split; [now apply awaited_same | constructor].
  - destruct (scrapePrice_awaited env u st) as (b1 & Ha1 & Hb1).
    destruct (scrapePrice env u st) as [r st1]. cbn [snd] in Ha1.
    destruct (IH st1) as (b2 & Ha2 & Hb2).
    destruct (allSettled env chunk st1) as [rs st2]. cbn [snd] in *.
    exists (b1 ++ b2). split; [eapply awaited_trans; eassumption|].
    now apply Forall_app.
Qed.

(** The outcomes of the loop over the groups, whatever the callback
    does. *)
Lemma batchLoop_entries (env : Env) (cb : option (Progress -> Result unit)) (D : Z)
    (n : nat) (chunks : list (list jsstring)) :
  forall results st,
  exists entries,
    fst (batchLoop env cb D n chunks results st) = results ++ entries /\
    Forall2 (outcomeOf (scrapePrice env)) (concat chunks) entries.
Proof.
  induction chunks as [|chunk chunks IH]; intros results st.
  - exists []. simpl. rewrite app_nil_r. split; [reflexivity | constructor].
  - cbn [batchLoop].
    pose proof (allSettled_entries env chunk st) as Hent.
    destruct (allSettled env chunk st) as [rs st1]. cbn [fst] in Hent.
    set (es := List.map (fun ur => entryOf (fst ur) (snd ur)) (combine chunk rs)) in *.
    assert (Hnext : forall st2, exists entries,
              fst (batchLoop env cb D n chunks (results ++ es) st2)
              = results ++ es ++ entries /\
              Forall2 (outcomeOf (scrapePrice env)) (concat chunks) entries).
    { intros st2. destruct (IH (results ++ es) st2) as (entries & E & Hf).
      exists entries. split; [now rewrite E, <- app_assoc | exact Hf]. }
    assert (Hgoal : forall st2, exists entries,
              fst (batchLoop env cb D n chunks (results ++ es) st2)
              = results ++ entries /\
              Forall2 (outcomeOf (scrapePrice env)) (concat (chunk :: chunks)) entries).
    { intros st2. destruct (Hnext st2) as (entries & E & Hf).
      exists (es ++ entries). split; [exact E|].
      simpl. now apply Forall2_app. }
    destruct (match cb with Some callback => _ | None => _ end) as [x|m].
    + destruct chunks as [|c2 chunks]; apply Hgoal.
    + apply Hgoal.
Qed.

(** The delays of the loop over the groups, for a callback that does
    not throw. *)
Lemma batchLoop_delays (env : Env) (cb : option (Progress -> Result unit)) (D : Z)
    (n : nat) (chunks : list (list jsstring)) :
  (forall f p, cb = Some f -> exists x, f p = Ok x) ->
  forall results st,
  exists groups,
    List.length groups = List.length chunks /\
    Forall (Forall isBackoff) groups /\
    awaited st (snd (batchLoop env cb D n chunks results st)) (joinGroups D groups).
Proof.
  intros Hcb. induction chunks as [|chunk chunks IH]; intros results st.
  - exists []. split; [reflexivity|]. split; [constructor | now apply awaited_same].
  - cbn [batchLoop].
    destruct (allSettled_awaited env chunk st) as (bs & Ha & Hb).
    destruct (allSettled env chunk st) as [rs st1]. cbn [snd] in Ha.
    set (es := List.map (fun ur => entryOf (fst ur) (snd ur)) (combine chunk rs)).
    set (report := {| completed := _; total := _; progress := _ |}).
    assert (Hrep : exists x, match cb with
                             | Some callback => callback report
                             | None => Ok tt
                             end = Ok x).
    { destruct cb as [f|]; [now apply (Hcb f report) | now exists tt]. }
    destruct Hrep as (x & ->).
    destruct chunks as [|c2 chunks].
    + cbn [batchLoop snd]. exists [bs]. split; [reflexivity|].
      split; [now repeat constructor | exact Ha].
    + destruct (IH (results ++ es) (delay D st1)) as (groups & Hl & Hf & Hw).
      exists (bs :: groups). split; [simpl; now rewrite Hl|].
      split; [now constructor|].
      destruct groups as [|g groups]; [discriminate|].
      change (joinGroups D (bs :: g :: groups))
        with (bs ++ [D] ++ joinGroups D (g :: groups)).
      eapply awaited_trans; [exact Ha|].
      eapply awaited_trans; [apply awaited_delay | exact Hw].
Qed.

Lemma totalDelay_app (a b : list Z) : totalDelay (a ++ b) = totalDelay a + totalDelay b.
Proof. unfold totalDelay. induction a as [|x a IH]; simpl; lia. Qed.

Lemma totalDelay_rev (l : list Z) : totalDelay (rev l) = totalDelay l.
Proof.
  induction l as [|x l IH]; [reflexivity|].
  simpl rev. rewrite totalDelay_app, IH. unfold totalDelay. simpl. lia.
Qed.

Lemma totalDelay_backoffs (l : list Z) : Forall isBackoff l -> 0 <= totalDelay l.
Proof.
  induction 1 as [|x l [c ->] _ IH]; unfold totalDelay in *; simpl; [lia|].
  unfold backoff. pose proof (Z.pow_nonneg 2 (Z.of_nat c)). lia.
Qed.

Lemma totalDelay_joinGroups (D : Z) (groups : list (list Z)) :
  totalDelay (joinGroups D groups)
  = totalDelay (concat groups) + Z.of_nat (List.length groups - 1) * D.
Proof.
  induction groups as [|g [|g2 groups] IH].
  - reflexivity.
  - simpl. rewrite app_nil_r. lia.
  - change (joinGroups D (g :: g2 :: groups))
      with (g ++ [D] ++ joinGroups D (g2 :: groups)).
    change (concat (g :: g2 :: groups)) with (g ++ concat (g2 :: groups)).
    rewrite !totalDelay_app, IH. unfold totalDelay at 2. simpl fold_right.
    replace (List.length (g :: g2 :: groups) - 1)%nat
      with (S (List.length (g2 :: groups) - 1)) by (simpl; lia).
    rewrite Nat2Z.inj_succ. lia.
Qed.

Lemma totalDelay_groups (groups : list (list Z)) :
  Forall (Forall isBackoff) groups -> 0 <= totalDelay (concat groups).
Proof.
  induction 1 as [|g groups Hg _ IH]; [unfold totalDelay; simpl; lia|].
  simpl. rewrite totalDelay_app. pose proof (totalDelay_backoffs g Hg). lia.
Qed.

(** A progress callback that throws, and a concurrency of zero. *)
Lemma throwing_progress_skips_delay :
  let urls := [trackedUrl; plainUrl; trackedUrl; plainUrl] in
  let throwing :=
    {| concurrency := None; delayBetween := None;
       onProgress := Some (fun _ => Throw (lit "callback")) |} in
  let stuck :=
    {| concurrency := Some 0; delayBetween := None; onProgress := None |} in
  (exists results st',
     scrapeBatch (toyEnv MoreFixtures.okNet) urls throwing initialState
     = Some (results, st') /\
     List.length results = 4%nat /\
     slept st' = [] /\
     totalDelay (slept st') < ((4 + 3 - 1) / 3 - 1) * 2000) /\
  scrapeBatch (toyEnv MoreFixtures.okNet) urls stuck initialState = None.
Proof.
  intros urls throwing stuck. split; [|reflexivity].
  destruct (scrapeBatch (toyEnv MoreFixtures.okNet) urls throwing initialState)
    as [[results st']|] eqn:E; [|vm_compute in E; discriminate].
  exists results, st'. split; [reflexivity|].
  assert (Hl : List.length results = 4%nat /\ slept st' = []).
  { assert (H : option_map (fun rs => (List.length (fst rs), slept (snd rs)))
                  (scrapeBatch (toyEnv MoreFixtures.okNet) urls throwing initialState)
                = Some (4%nat, [])) by (vm_compute; reflexivity).
    rewrite E in H. cbn in H. injection H as H1 H2. now split. }
  destruct Hl as [H1 H2]. split; [exact H1|]. split; [exact H2|].
  rewrite H2. vm_compute. reflexivity.
Qed.

(** C7.  With a concurrency [C] above zero (3 when the option is
    missing) [scrapeBatch] returns.  The URLs are cut into consecutive
    groups in their order; every group has [C] URLs, except that the
    last has what is left (at least one); there are ceil(N/C) groups.
    Every URL of a group is scraped and gets one outcome, fulfilled or
    rejected, so there are [N] outcomes, in the order of the URLs,
    whatever the progress callback does.  When there is no progress
    callback, or one that does not throw, [delayBetween] ([D], 2000 ms
    when the option is missing) is awaited once between two consecutive
    groups and not after the last: the delays that the scraper has
    awaited when the batch ends are, in order, the delays of the retries
    of the first group, [D], the ones of the second group, [D], and so
    on up to the ones of the last group; their sum is the sum of the
    delays of the retries and ceil(N/C) - 1 times [D], so that, for a
    delay that is not negative, at least (ceil(N/C) - 1) * D is
    awaited. *)
Theorem scrapeBatch_groups_and_delays (env : Env) (urls : list jsstring)
    (options : BatchOptions) (st : State) :
  let C := default 3 (concurrency options) in
  let D := default 2000 (delayBetween options) in
  let N := List.length urls in
  0 < C ->
  exists chunks results st',
    chunkArray urls C = Some chunks /\
    scrapeBatch env urls options st = Some (results, st') /\
    concat chunks = urls /\
    (forall i c, chunks !! i = Some c ->
       (0 < List.length c)%nat /\ Z.of_nat (List.length c) <= C /\
       (S i < List.length chunks -> Z.of_nat (List.length c) = C)%nat) /\
    Z.of_nat (List.length chunks) = (Z.of_nat N + C - 1) / C /\
    List.length results = N /\
    Forall2 (outcomeOf (scrapePrice env)) urls results /\
    ((forall f p, onProgress options = Some f -> exists x, f p = Ok x) ->
     exists groups,
       List.length groups = List.length chunks /\
       Forall (Forall isBackoff) groups /\
       awaited st st' (joinGroups D groups) /\
       totalDelay (slept st')
       = totalDelay (slept st) + totalDelay (concat groups)
         + Z.of_nat (List.length chunks - 1) * D /\
       (0 <= D ->
        totalDelay (slept st) + ((Z.of_nat N + C - 1) / C - 1) * D
        <= totalDelay (slept st'))).
Proof.
  intros C D N HC.
  set (size := Z.to_nat C). assert (Hs : (0 < size)%nat) by (subst size; lia).
  set (chunks := match urls with [] => [] | _ => chunkLoop (List.length urls) size urls end).
  assert (Echunks : chunkArray urls C = Some chunks).
  { unfold chunkArray, chunks. destruct urls; [reflexivity|].
    destruct (Z.leb_spec C 0); [lia | reflexivity]. }
  assert (Eloop : chunks = chunkLoop (List.length urls) size urls).
  { unfold chunks. destruct urls; reflexivity. }
  destruct (batchLoop_entries env (onProgress options) D N chunks [] st)
    as (entries & E & Hf).
  simpl in E.
  assert (Hcat : concat chunks = urls).
  { rewrite Eloop. apply chunkLoop_concat; [exact Hs | lia]. }
  assert (Hcount : Z.of_nat (List.length chunks) = (Z.of_nat N + C - 1) / C).
  { rewrite Eloop, chunkLoop_count by (auto; lia).
    rewrite Nat2Z.inj_div. f_equal; subst size N; lia. }
  exists chunks, entries, (snd (batchLoop env (onProgress options) D N chunks [] st)).
  split; [exact Echunks|].
  split.
  { unfold scrapeBatch. fold C D N. rewrite Echunks. f_equal.
    rewrite <- E. now destruct (batchLoop env _ D N chunks [] st). }
  split; [exact Hcat|].
  split.
  { intros i c Hi. rewrite Eloop in Hi |- *.
    destruct (chunkLoop_sizes size (List.length urls) urls Hs (le_n _) i c Hi)
      as [[H1 H2] H3].
    split; [exact H1|]. split; [subst size; lia|].
    intros Hlt. rewrite (H3 Hlt). subst size. lia. }
  split; [exact Hcount|].
  split; [rewrite Hcat in Hf; symmetry; eapply Forall2_length, Hf|].
  split; [now rewrite Hcat in Hf|].
  intros Hcb.
  destruct (batchLoop_delays env (onProgress options) D N chunks Hcb [] st)
    as (groups & Hl & Hb & Hw).
  exists groups. split; [exact Hl|]. split; [exact Hb|]. split; [exact Hw|].
  assert (Hsum : totalDelay (slept (snd (batchLoop env (onProgress options) D N chunks [] st)))
                 = totalDelay (slept st) + totalDelay (concat groups)
                   + Z.of_nat (List.length chunks - 1) * D).
  { rewrite <- (totalDelay_rev (slept (snd _))), Hw, totalDelay_app, totalDelay_rev,
      totalDelay_joinGroups, Hl. lia. }
  split; [exact Hsum|].
  intros HD. rewrite Hsum, <- Hcount.
  pose proof (totalDelay_groups groups Hb).
  assert (Z.of_nat (List.length chunks) - 1 <= Z.of_nat (List.length chunks - 1)) by lia.
  assert ((Z.of_nat (List.length chunks) - 1) * D
          <= Z.of_nat (List.length chunks - 1) * D)
    by (apply Z.mul_le_mono_nonneg_r; lia).
  lia.
Qed.

(** Four URLs with the default options on a network that answers: two
    groups, and one delay of 2000 ms between them. *)
Lemma scrapeBatch_groups_and_delays_witness :
  0 < default 3 (concurrency noOptions) /\
  exists results st',
    scrapeBatch (toyEnv MoreFixtures.okNet) [trackedUrl; plainUrl; trackedUrl; plainUrl]
      noOptions initialState = Some (results, st') /\
    List.length results = 4%nat /\
    2000 <= totalDelay (slept st').
Proof.
  split; [simpl; lia|].
  destruct (scrapeBatch_groups_and_delays (toyEnv MoreFixtures.okNet)
              [trackedUrl; plainUrl; trackedUrl; plainUrl] noOptions initialState)
    as (chunks & results & st' & _ & H2 & _ & _ & _ & H6 & _ & Hd).
  - simpl. lia.
  - exists results, st'. split; [exact H2|]. split; [exact H6|].
    destruct Hd as (groups & _ & _ & _ & _ & Hbound).
    + intros f p. discriminate.
    + exact (Hbound ltac:(simpl; lia)).
Defined.

(* ================================================================== *)
(** * Properties of the Product model *)
(* ================================================================== *)

Import Db.

Lemma incrementError_found (now id : Z) (message : option jsstring)
    (products : gmap Z Product) (p : Product) :
  products !! id = Some p ->
  incrementError now id message products
  = (Ok tt, <[id := afterFailure now message p]> products).
Proof.
  intros H. unfold incrementError, findById, update. rewrite H. simpl.
  unfold afterFailure. destruct (tooManyErrors p) eqn:E.
  - rewrite lookup_insert_eq, insert_insert_eq.
    destruct p; reflexivity.
  - destruct p; reflexivity.
Qed.

Lemma updatePrice_found (now id : Z) (newPrice : option Q)
    (products : gmap Z Product) (p : Product) :
  products !! id = Some p ->
  updatePrice now id newPrice products
  = (Ok {| oldPrice := current_price p; newPrice := newPrice;
           priceChange := changePercent (current_price p) newPrice |},
     <[id := afterSuccess now newPrice p]> products).
Proof.
  intros H. unfold updatePrice, findById, update. rewrite H. simpl.
  unfold afterSuccess. destruct p; reflexivity.
Qed.

(** C5.  For a product of the store, [updatePrice(id, newPrice)] returns
    the old price and a price change equal to (newPrice - oldPrice) /
    oldPrice * 100 when the product had a price (other than zero, which
    counts as absent), and 0 when it had none; the same update stores the
    new price, sets [last_price] to the previous current price, adds one
    to [check_count], resets [error_count] to 0 and [last_error] to
    [null], and leaves the other products as they were. *)
Theorem updatePrice_change_and_reset (now id : Z) (price : Q)
    (products : gmap Z Product) (p : Product) :
  products !! id = Some p ->
  exists u products' p',
    updatePrice now id (Some price) products = (Ok u, products') /\
    oldPrice u = current_price p /\
    newPrice u = Some price /\
    (forall old, current_price p = Some old -> ~ (old == 0)%Q ->
       priceChange u = ((price - old) / old * 100)%Q) /\
    (forall old, current_price p = Some old -> (old == 0)%Q -> priceChange u = 0%Q) /\
    (current_price p = None -> priceChange u = 0%Q) /\
    products' !! id = Some p' /\
    current_price p' = Some price /\
    last_price p' = current_price p /\
    check_count p' = Some (orZero (check_count p) + 1) /\
    error_count p' = Some 0 /\
    last_error p' = None /\
    last_checked p' = Some now /\
    (target_price p' = target_price p /\
     promotion_threshold p' = promotion_threshold p /\
     is_active p' = is_active p /\ Db.url p' = Db.url p /\ Db.name p' = Db.name p) /\
    (forall j, j <> id -> products' !! j = products !! j).
Proof.
  intros H. rewrite (updatePrice_found _ _ _ _ _ H).
  eexists _, _, (afterSuccess now (Some price) p).
  split; [reflexivity|]. simpl.
  repeat match goal with |- _ /\ _ => split end; try reflexivity.
  - intros old E Hne. unfold changePercent. rewrite E. simpl.
    destruct (Qeq_bool old 0) eqn:Eq; [apply Qeq_bool_iff in Eq; contradiction|].
    reflexivity.
  - intros old E Hz. unfold changePercent. rewrite E. simpl.
    apply Qeq_bool_iff in Hz. now rewrite Hz.
  - intros E. unfold changePercent. now rewrite E.
  - apply lookup_insert_eq.
  - intros j Hj. now apply lookup_insert_ne.
Qed.

(** The notebook at 120 is seen at 95: a change of (95 - 120) / 120 * 100. *)
Lemma updatePrice_change_and_reset_witness :
  shop !! 1 = Some notebook /\
  exists u products',
    updatePrice 1000 1 (Some 95%Q) shop = (Ok u, products') /\
    priceChange u = ((95 - 120) / 120 * 100)%Q.
Proof.
  assert (H : shop !! 1 = Some notebook) by reflexivity.
  split; [exact H|].
  destruct (updatePrice_change_and_reset 1000 1 95%Q shop notebook H)
    as (u & products' & p' & E & _ & _ & Hc & _).
  exists u, products'. split; [exact E|].
  apply (Hc 120%Q); [reflexivity | intros F; vm_compute in F; discriminate].
Defined.

Lemma failTimes_lookup (id : Z) (fs : list (Z * option jsstring)) :
  forall (products : gmap Z Product) (p : Product),
  products !! id = Some p ->
  exists p',
    failTimes fs id products !! id = Some p' /\
    orZero (error_count p') = orZero (error_count p) + Z.of_nat (List.length fs) /\
    (fs <> [] -> error_count p' = Some (orZero (error_count p') )) /\
    is_active p' =
      (if (0 <? Z.of_nat (List.length fs))
          && (5 <=? orZero (error_count p) + Z.of_nat (List.length fs))
       then false else is_active p).
Proof.
  induction fs as [|[now msg] fs IH]; intros products p H.
  - exists p. simpl. repeat split; [exact H | lia | congruence].
  - unfold failTimes. simpl fold_left.
    rewrite (incrementError_found _ _ _ _ _ H). simpl snd.
    destruct (IH (<[id := afterFailure now msg p]> products) (afterFailure now msg p))
      as (p' & E & Hc & Hs & Ha); [apply lookup_insert_eq|].
    exists p'. split; [exact E|]. simpl in Hc, Ha.
    split; [simpl List.length; lia|]. split.
    + intros _. destruct fs as [|f fs].
      * simpl in E. rewrite lookup_insert_eq in E. injection E as <-. reflexivity.
      * now apply Hs.
    + rewrite Ha. unfold tooManyErrors. simpl List.length.
      repeat match goal with
             | |- context [(?a <? ?b)] => destruct (Z.ltb_spec a b)
             | |- context [(?a <=? ?b)] => destruct (Z.leb_spec a b)
             end; simpl; try reflexivity; lia.
Qed.

Lemma findForCheck_elem (now : Z) (interval : nat) (products : gmap Z Product)
    (id : Z) (row : Product) :
  (id, row) ∈ findForCheck now interval products ->
  products !! id = Some row /\ dueForCheck now interval row = true.
Proof.
  unfold findForCheck. intros H.
  assert (Hin : (id, row) ∈ List.filter
            (fun r => dueForCheck now interval (snd r)) (map_to_list products)).
  { rewrite <- (merge_sort_Permutation checkedBefore).
    rewrite <- (take_drop 50 (merge_sort _ _)). apply elem_of_app. now left. }
  apply list_elem_of_In, filter_In in Hin as [Hin Hdue].
  apply list_elem_of_In, elem_of_map_to_list in Hin. now split.
Qed.

Import Monitor.

Lemma checkNotifications_products (env : Monitor.Env) (row : Z * Product)
    (np : option Q) (u : PriceUpdate) (w : World) :
  products (snd (checkNotifications env row np u w)) = products w /\
  history (snd (checkNotifications env row np u w)) = history w /\
  Monitor.scraper (snd (checkNotifications env row np u w)) = Monitor.scraper w.
Proof.
  unfold checkNotifications.
  destruct (chooseCall row np u); [|auto].
  destruct (notificationService (monitor w)); auto.
Qed.

(** The check of a product that is in the store returns a failed
    outcome, whatever the scrape gives: an [INSERT] into the history is
    rejected by the database, so the check of a page that was scraped
    with success writes the price with [updatePrice], throws in
    [PriceHistory.add] and counts an error in its [catch]; the check of
    a page whose scrape failed counts the error of the scrape.  Nothing
    is added to the history, no notification is sent and the statistics
    of the monitor are left as they are. *)
Lemma checkProduct_store (env : Monitor.Env) (now id : Z) (row : Product)
    (w : World) (p : Product) :
  products w !! id = Some p -> id <> 0 ->
  exists r w' q sr,
    checkProduct env now (id, row) w = (Ok r, w') /\
    Scraper.scrapePrice (senv env) (Db.url row) (Monitor.scraper w)
      = (Ok sr, Monitor.scraper w') /\
    r = failedResult (id, row) (last_error q) /\
    products w' = <[id := q]> (products w) /\
    last_checked q = Some now /\
    history w' = history w /\ log w' = log w /\ monitor w' = monitor w /\
    (Scraper.success sr = false -> q = afterFailure now (Scraper.error sr) p) /\
    (Scraper.success sr = true ->
       exists price,
         Scraper.price sr = Some price /\ (0 < price)%Q /\
         q = afterFailure now (Some triggerMessage)
               (afterSuccess now (Some price) p)).
Proof.
  intros Hp Hid. unfold checkProduct, checkProductTry. cbn [fst snd].
  destruct (scrapePrice_wellFormed (senv env) (Db.url row) (Monitor.scraper w))
    as (sr & st' & E & Hwf1 & Hwf2 & _).
  rewrite E.
  destruct (Scraper.success sr) eqn:Es; cbn [negb].
  - destruct (proj1 Hwf1 eq_refl) as (pr & Epr & Hpos). rewrite Epr.
    cbn [products setScraper].
    rewrite (updatePrice_found _ _ _ _ _ Hp).
    unfold historyAdd, insertHistory. cbn [history setProducts setScraper].
    destruct (Z.eqb_spec id 0) as [|_]; [contradiction|].
    cbn [orb negb bool_decide]. rewrite bool_decide_eq_true_2 by eauto. cbn [negb].
    cbn [products setHistory setProducts setScraper].
    rewrite (incrementError_found _ _ _ _ _ (lookup_insert_eq _ _ _)).
    rewrite insert_insert_eq.
    eexists _, _, (afterFailure now (Some triggerMessage)
                     (afterSuccess now (Some pr) p)), sr.
    split; [reflexivity|].
    split; [reflexivity|]. split; [reflexivity|]. split; [reflexivity|].
    split; [reflexivity|]. split; [reflexivity|]. split; [reflexivity|].
    split; [reflexivity|]. split; [congruence|].
    intros _. exists pr. auto.
  - cbn [products setScraper].
    rewrite (incrementError_found _ _ _ _ _ Hp).
    eexists _, _, (afterFailure now (Scraper.error sr) p), sr.
    split; [reflexivity|].
    split; [reflexivity|]. split; [reflexivity|]. split; [reflexivity|].
    split; [reflexivity|]. split; [reflexivity|]. split; [reflexivity|].
    split; [reflexivity|]. split; [intros _; reflexivity | congruence].
Qed.

(** C2.  What the code does with the count of errors, for the check of
    a product of the store (the keys that the store assigns are not
    zero).  Every check returns a failed outcome.  When the scrape
    failed, the count is one above what it was.  When the scrape
    succeeded, [updatePrice] writes the price and resets the count to 0,
    then [PriceHistory.add] throws, because the database rejects every
    [INSERT] into the history, and the [catch] counts an error: the
    count is left at 1, not at 0, with the message of the database as
    last error, and nothing is added to the history.  Five consecutive
    failures counted by [incrementError] on a product whose count was 0
    make it inactive, with a count of 5, and fewer than five leave
    [is_active] as it was; and a product that is inactive, or whose
    count is 5 or more, is in no result of the due-for-check query, so no
    scheduled check takes it. *)
Theorem error_ceiling (env : Monitor.Env) :
  (forall now id row w p,
     products w !! id = Some p -> id <> 0 ->
     exists r w' p' sr,
       checkProduct env now (id, row) w = (Ok r, w') /\
       Scraper.scrapePrice (senv env) (Db.url row) (Monitor.scraper w)
         = (Ok sr, Monitor.scraper w') /\
       products w' !! id = Some p' /\
       success r = false /\
       history w' = history w /\
       (Scraper.success sr = false ->
          error_count p' = Some (orZero (error_count p) + 1) /\
          products w'
          = snd (incrementError now id (Scraper.error sr) (products w))) /\
       (Scraper.success sr = true ->
          current_price p' = Scraper.price sr /\
          error_count p' = Some 1 /\
          last_error p' = Some triggerMessage /\
          is_active p' = is_active p)) /\
  (forall id (store : gmap Z Product) p fs,
     store !! id = Some p -> orZero (error_count p) = 0 ->
     exists p',
       failTimes fs id store !! id = Some p' /\
       ((List.length fs < 5)%nat -> is_active p' = is_active p) /\
       (List.length fs = 5%nat -> is_active p' = false /\ error_count p' = Some 5)) /\
  (forall now interval (store : gmap Z Product) id p,
     store !! id = Some p ->
     is_active p = false \/ 5 <= orZero (error_count p) ->
     forall row, (id, row) ∉ findForCheck now interval store).
Proof.
  split; [|split].
  - intros now id row w p Hp Hid.
    destruct (checkProduct_store env now id row w p Hp Hid)
      as (r & w' & q & sr & E & Esr & Er & Eps & _ & Eh & _ & _ & Hko & Hok).
    exists r, w', q, sr.
    split; [exact E|]. split; [exact Esr|].
    split; [rewrite Eps; apply lookup_insert_eq|].
    split; [rewrite Er; reflexivity|]. split; [exact Eh|]. split.
    + intros Hs. rewrite (Hko Hs). split; [reflexivity|].
      now rewrite Eps, (Hko Hs), (incrementError_found _ _ _ _ _ Hp).
    + intros Hs. destruct (Hok Hs) as (price & Epr & _ & ->).
      rewrite Epr. repeat split.
  - intros id store p fs Hp Hz.
    destruct (failTimes_lookup id fs store p Hp) as (p' & E & Hc & Hs & Ha).
    exists p'. split; [exact E|]. rewrite Hz in *. split.
    + intros Hlt. rewrite Ha.
      destruct (Z.leb_spec 5 (0 + Z.of_nat (List.length fs))); [lia|].
      now rewrite andb_false_r.
    + intros H5. rewrite H5 in *. split; [rewrite Ha; reflexivity|].
      rewrite Hs; [f_equal; lia|]. destruct fs; [discriminate | congruence].
  - intros now interval store id p Hp Hbad row Hin.
    apply findForCheck_elem in Hin as [Hrow Hdue].
    rewrite Hp in Hrow. injection Hrow as <-.
    unfold dueForCheck in Hdue. apply andb_true_iff in Hdue as [Hdue Hec].
    apply andb_true_iff in Hdue as [Hact _].
    destruct Hbad as [Hi|Hc]; [congruence|].
    destruct (error_count p) as [n|]; [|discriminate].
    apply Z.ltb_lt in Hec. simpl in Hc. lia.
Qed.

(** The notebook fails five times in a row: it is inactive and the query
    does not return it. *)
(** A page that shows a price: the check of the notebook is reported as
    failed and leaves a count of 1.  Five failures deactivate it, and the
    query returns nothing then. *)
Lemma error_ceiling_witness :
  let fs := [(10, None); (20, None); (30, None); (40, None); (50, None)] in
  let w := startedWorld shop in
  shop !! 1 = Some notebook /\
  (exists r w' p',
     checkProduct (monitorEnv MoreFixtures.okNet) 1000 (1, notebook) w
       = (Ok r, w') /\
     success r = false /\ products w' !! 1 = Some p' /\
     current_price p' = Some 99.90%Q /\
     error_count p' = Some 1 /\ history w' = []) /\
  (exists p', failTimes fs 1 shop !! 1 = Some p' /\ is_active p' = false) /\
  findForCheck 100000 60 (failTimes fs 1 shop) = [].
Proof.
  intros fs w. assert (H : shop !! 1 = Some notebook) by reflexivity.
  assert (Hw : products w !! 1 = Some notebook) by reflexivity.
  assert (Hid : 1 <> 0) by lia.
  split; [exact H|]. split; [|split].
  - destruct (error_ceiling (monitorEnv MoreFixtures.okNet)) as (Ha & _ & _).
    destruct (Ha 1000 1 notebook w notebook Hw Hid)
      as (r & w' & p' & sr & E & Es & Hp' & Hs & Hh & _ & Hok).
    assert (Esr : Scraper.success sr = true /\ Scraper.price sr = Some 99.90%Q).
    { assert (Ev : match fst (Scraper.scrapePrice
                                (senv (monitorEnv MoreFixtures.okNet))
                                (Db.url notebook) (Monitor.scraper w)) with
                   | Ok s => Scraper.success s = true /\
                             Scraper.price s = Some 99.90%Q
                   | Throw _ => False
                   end)
        by (vm_compute; split; reflexivity).
      rewrite Es in Ev. exact Ev. }
    destruct Esr as [Et Epr]. destruct (Hok Et) as (Hc & He & _).
    exists r, w', p'. split; [exact E|]. split; [exact Hs|]. split; [exact Hp'|].
    split; [now rewrite Hc|]. split; [exact He | exact Hh].
  - destruct (error_ceiling
                {| senv := toyEnv deadNet; notifier := fun _ _ => true;
                   checkIntervalMinutes := 60; requestDelayMs := 2000 |})
      as (_ & Hb & _).
    destruct (Hb 1 shop notebook fs H eq_refl) as (p' & E & _ & H5).
    exists p'. split; [exact E | exact (proj1 (H5 eq_refl))].
  - vm_compute. reflexivity.
Defined.

(* ================================================================== *)
(** * Properties of the notification rules *)
(* ================================================================== *)

Lemma truthyNum_Some (x : option Q) :
  truthyNum x = true <-> exists q, x = Some q /\ ~ (q == 0)%Q.
Proof.
  destruct x as [q|]; simpl.
  - destruct (Qeq_bool q 0) eqn:E; simpl.
    + apply Qeq_bool_iff in E. split; [discriminate|].
      intros (? & [= <-] & H). contradiction.
    + split; [|reflexivity]. intros _. exists q. split; [reflexivity|].
      intros H. apply Qeq_bool_iff in H. congruence.
  - split; [discriminate|]. intros (? & ? & _). discriminate.
Qed.

Lemma targetReached_rule (p : Product) (np : option Q) (u : PriceUpdate) :
  targetReached p np u = true <-> ruleTarget p np u.
Proof.
  unfold targetReached, ruleTarget.
  rewrite !andb_true_iff, Qleb_le, Qltb_lt, truthyNum_Some. split.
  - intros [[H1 (old & E & Hne)] H3]. split; [exact H1|].
    exists old. rewrite E in H3. auto.
  - intros [H1 (old & E & Hne & H3)]. rewrite E. simpl. eauto.
Qed.

Lemma significantDrop_rule (p : Product) (u : PriceUpdate) :
  significantDrop p u = true <-> changed u /\ ruleDrop p u.
Proof.
  unfold significantDrop, ruleDrop, changed.
  rewrite andb_true_iff, Qleb_le, truthyNum_Some. split.
  - intros [(q & Eq & Hne) Hle]. injection Eq as <-. auto.
  - intros [Hne Hle]. eauto.
Qed.

Lemma significantIncrease_rule (p : Product) (u : PriceUpdate) :
  significantIncrease p u = true <-> changed u /\ ruleIncrease p u.
Proof.
  unfold significantIncrease, ruleIncrease, changed.
  rewrite andb_true_iff, Qleb_le, truthyNum_Some. split.
  - intros [(q & Eq & Hne) Hle]. injection Eq as <-. auto.
  - intros [Hne Hle]. eauto.
Qed.

(** What [checkNotifications] fires once the service exists: the call
    chosen, if any. *)
Lemma checkNotifications_fired (env : Monitor.Env) (row : Z * Product)
    (np : option Q) (u : PriceUpdate) (w : World) :
  notificationService (monitor w) = true ->
  let ks := match chooseCall row np u with Some c => [kind c] | None => [] end in
  firedBetween w (snd (checkNotifications env row np u w)) ks /\
  List.map type (fst (checkNotifications env row np u w)) = ks.
Proof.
  intros Hs. unfold checkNotifications. rewrite Hs.
  destruct (chooseCall row np u) as [c|]; simpl.
  - split; [|reflexivity]. now exists [c].
  - split; [|reflexivity]. exists []. now rewrite app_nil_r.
Qed.

(** C1 (counterexample).  A product with a threshold of zero whose price
    stays at 120: the change, 0, is at or under minus the threshold times
    100, so rule (b) as the specification words it applies, and nothing is
    fired. *)
Lemma unchanged_price_fires_nothing :
  let u := priceMove 120 120 in
  let w := startedWorld {[ 1 := steady ]} in
  ~ ruleTarget steady (Some 120%Q) u /\
  ruleDrop steady u /\
  checkNotifications (monitorEnv deadNet) (1, steady) (Some 120%Q) u w = ([], w).
Proof.
  cbv zeta. split; [|split].
  - intros [H _]. vm_compute in H. now apply H.
  - vm_compute. discriminate.
  - vm_compute. reflexivity.
Qed.

Lemma chooseCall_kind (row : Z * Product) (np : option Q) (u : PriceUpdate) :
  match chooseCall row np u with Some c => [kind c] | None => [] end =
  if targetReached (snd row) np u then [target_reached]
  else if significantDrop (snd row) u then [price_drop]
  else if significantIncrease (snd row) u then [price_increase]
  else [].
Proof.
  unfold chooseCall.
  destruct (targetReached (snd row) np u); [reflexivity|].
  destruct (significantDrop (snd row) u); [reflexivity|].
  destruct (significantIncrease (snd row) u); reflexivity.
Qed.

(** C1 (amended).  Once the monitor is started, the rules are evaluated in
    a fixed precedence with first match only: (a) if newPrice <=
    targetPrice and a previous price existed and was above targetPrice,
    only "target reached" fires; otherwise (b) if the price change is not
    zero and is <= -(promotionThreshold * 100), only "price drop" fires;
    otherwise (c) if the price change is not zero and is >=
    promotionThreshold * 200, only "price increase" fires; otherwise
    nothing fires.  At most one rule fires per check.  With a threshold
    above zero a change that meets (b) or (c) is never zero.  For
    targetPrice = 100, promotionThreshold = 0.1, previous price 120 and new
    price 95, only "target reached" fires although the drop exceeds 10%. *)
Theorem notification_precedence (env : Monitor.Env) (row : Z * Product)
    (np : option Q) (u : PriceUpdate) (w : World) :
  notificationService (monitor w) = true ->
  exists ks,
    firedBetween w (snd (checkNotifications env row np u w)) ks /\
    List.map type (fst (checkNotifications env row np u w)) = ks /\
    (List.length ks <= 1)%nat /\
    (ruleTarget (snd row) np u -> ks = [target_reached]) /\
    (~ ruleTarget (snd row) np u -> changed u /\ ruleDrop (snd row) u ->
       ks = [price_drop]) /\
    (~ ruleTarget (snd row) np u -> ~ (changed u /\ ruleDrop (snd row) u) ->
       changed u /\ ruleIncrease (snd row) u -> ks = [price_increase]) /\
    (~ ruleTarget (snd row) np u -> ~ (changed u /\ ruleDrop (snd row) u) ->
       ~ (changed u /\ ruleIncrease (snd row) u) -> ks = []) /\
    ((0 < toNumber (promotion_threshold (snd row)))%Q ->
       (ruleDrop (snd row) u -> changed u) /\
       (ruleIncrease (snd row) u -> changed u)) /\
    (snd row = notebook -> np = Some 95%Q -> u = priceMove 120 95 ->
       ruleDrop notebook u /\ ks = [target_reached]).
Proof.
  intros Hs.
  destruct (checkNotifications_fired env row np u w Hs) as [Hf Ht].
  rewrite chooseCall_kind in Hf, Ht.
  eexists. split; [exact Hf|]. split; [exact Ht|].
  pose proof (targetReached_rule (snd row) np u) as Ra.
  pose proof (significantDrop_rule (snd row) u) as Rb.
  pose proof (significantIncrease_rule (snd row) u) as Rc.
  split; [|split; [|split; [|split; [|split; [|split]]]]].
  - destruct (targetReached _ _ _), (significantDrop _ _), (significantIncrease _ _);
      simpl; lia.
  - intros H. apply Ra in H. now rewrite H.
  - intros Ha Hb. apply Rb in Hb. rewrite Hb.
    destruct (targetReached _ _ _); [now destruct Ha; apply Ra|reflexivity].
  - intros Ha Hb Hc. apply Rc in Hc. rewrite Hc.
    destruct (targetReached _ _ _); [now destruct Ha; apply Ra|].
    destruct (significantDrop _ _); [now destruct Hb; apply Rb|reflexivity].
  - intros Ha Hb Hc.
    destruct (targetReached _ _ _); [now destruct Ha; apply Ra|].
    destruct (significantDrop _ _); [now destruct Hb; apply Rb|].
    destruct (significantIncrease _ _); [now destruct Hc; apply Rc|reflexivity].
  - intros Hpos. unfold ruleDrop, ruleIncrease, changed. split; intros H E.
    + rewrite E in H.
      assert (0 < toNumber (promotion_threshold (snd row)) * 100)%Q
        by (apply Qmult_lt_0_compat; [exact Hpos | reflexivity]).
      apply (Qlt_irrefl 0). eapply Qlt_le_trans; [exact H0|].
      apply Qopp_le_compat in H. rewrite Qopp_involutive in H.
      eapply Qle_trans; [exact H | discriminate].
    + rewrite E in H.
      assert (0 < toNumber (promotion_threshold (snd row)) * 200)%Q
        by (apply Qmult_lt_0_compat; [exact Hpos | reflexivity]).
      apply (Qlt_irrefl 0). eapply Qlt_le_trans; [exact H0 | exact H].
  - intros -> -> ->. split; [vm_compute; discriminate | reflexivity].
Qed.

(** The notebook (target 100, threshold 0.1) goes from 120 to 95. *)
Lemma notification_precedence_witness :
  let w := startedWorld shop in
  notificationService (monitor w) = true /\
  ruleDrop notebook (priceMove 120 95) /\
  List.map type
    (fst (checkNotifications (monitorEnv deadNet) (1, notebook) (Some 95%Q)
            (priceMove 120 95) w)) = [target_reached].
Proof.
  intros w. assert (Hs : notificationService (monitor w) = true) by reflexivity.
  split; [exact Hs|].
  destruct (notification_precedence (monitorEnv deadNet) (1, notebook) (Some 95%Q)
              (priceMove 120 95) w Hs)
    as (ks & _ & Ht & _ & _ & _ & _ & _ & _ & Hcase).
  destruct (Hcase eq_refl eq_refl eq_refl) as [Hd ->].
  split; [exact Hd | exact Ht].
Defined.

(* ================================================================== *)
(** * Properties of the check cycle *)
(* ================================================================== *)

Lemma executeCheckLeave_clears (env : Monitor.Env) (now : Z) (w : World) :
  currentCheck (monitor (executeCheckLeave env now w)) = None.
Proof.
  unfold executeCheckLeave.
  destruct (executeCheckTry env now w) as [[|] w1]; reflexivity.
Qed.

Lemma step_guarded (env : Monitor.Env) (s : System) (e : Event) :
  guarded s -> guarded (step env s e).
Proof.
  intros [[Hi Hc]|[Hi Hc]]; destruct e as [|now]; unfold step, executeCheckEnter.
  - rewrite Hc. right. rewrite Hi. split; [reflexivity | discriminate].
  - rewrite Hi. left. auto.
  - destruct (currentCheck (monitor (world s))) eqn:E; [|contradiction].
    right. simpl. rewrite E. split; [exact Hi | discriminate].
  - rewrite Hi. left. simpl. split; [reflexivity | apply executeCheckLeave_clears].
Qed.

Lemma run_guarded (env : Monitor.Env) (es : list Event) (s : System) :
  guarded s -> guarded (run env s es).
Proof.
  revert s. induction es as [|e es IH]; intros s H; [exact H|].
  apply IH, step_guarded, H.
Qed.

(** C6.  From an idle monitor and whatever the sequence of triggers and
    of cycles finishing, at most one cycle is in flight, and one is in
    flight exactly when the guard [currentCheck] is set.  A trigger that
    arrives while a cycle is in flight is dropped: it changes nothing in
    the world and starts nothing, then or later.  When the cycle finishes
    the guard is cleared, and the next trigger starts a cycle. *)
Theorem one_cycle_at_a_time (env : Monitor.Env) (w0 : World) (es : list Event) :
  currentCheck (monitor w0) = None ->
  let s := run env (idle w0) es in
  (inflight s <= 1)%nat /\
  (inflight s = 1%nat <-> currentCheck (monitor (world s)) <> None) /\
  (inflight s = 1%nat ->
     step env s Trigger
     = {| world := world s; inflight := 1; dropped := S (dropped s) |}) /\
  (inflight s = 1%nat -> forall now,
     let s' := step env s (Finish now) in
     inflight s' = 0%nat /\ currentCheck (monitor (world s')) = None /\
     inflight (step env s' Trigger) = 1%nat) /\
  (inflight s = 0%nat -> inflight (step env s Trigger) = 1%nat).
Proof.
  intros H0 s.
  assert (G : guarded s).
  { apply run_guarded. left. simpl. auto. }
  split; [destruct G as [[-> _]|[-> _]]; lia|].
  split; [destruct G as [[Hi Hc]|[Hi Hc]]; rewrite Hi; split; intros; try lia; congruence|].
  split; [|split].
  - intros Hi. destruct G as [[Hi' _]|[_ Hc]]; [lia|].
    unfold step, executeCheckEnter.
    destruct (currentCheck (monitor (world s))); [|contradiction].
    now rewrite Hi.
  - intros Hi now s'.
    assert (E : s' = {| world := executeCheckLeave env now (world s); inflight := 0;
                        dropped := dropped s |}).
    { unfold s', step. now rewrite Hi. }
    rewrite E. simpl. split; [reflexivity|].
    split; [apply executeCheckLeave_clears|].
    unfold executeCheckEnter. now rewrite executeCheckLeave_clears.
  - intros Hi. destruct G as [[_ Hc]|[Hi' _]]; [|lia].
    unfold step, executeCheckEnter. rewrite Hc, Hi. reflexivity.
Qed.

(** Two triggers in a row, then the end of the cycle, then a trigger. *)
Lemma one_cycle_at_a_time_witness :
  let w0 := startedWorld shop in
  let s := run (monitorEnv deadNet) (idle w0) [Trigger; Trigger] in
  currentCheck (monitor w0) = None /\
  inflight s = 1%nat /\ dropped s = 1%nat /\
  inflight (step (monitorEnv deadNet) s (Finish 100000)) = 0%nat.
Proof.
  intros w0 s. assert (H0 : currentCheck (monitor w0) = None) by reflexivity.
  assert (Hi : inflight s = 1%nat) by reflexivity.
  split; [exact H0|]. split; [exact Hi|]. split; [reflexivity|].
  destruct (one_cycle_at_a_time (monitorEnv deadNet) w0 [Trigger; Trigger] H0)
    as (_ & _ & _ & Hfin & _).
  exact (proj1 (Hfin Hi 100000)).
Defined.

Lemma count_app (f : Effect -> bool) (a b : list Effect) :
  count f (a ++ b) = (count f a + count f b)%nat.
Proof. unfold count. now rewrite List.filter_app, length_app. Qed.

Lemma quietLog_refl (w w' : World) : log w' = log w -> quietLog w w' 0.
Proof. intros E. exists []. rewrite app_nil_r. auto. Qed.

Lemma quietLog_trans (w1 w2 w3 : World) (n m : nat) :
  quietLog w1 w2 n -> quietLog w2 w3 m -> quietLog w1 w3 (n + m).
Proof.
  intros (e1 & E1 & N1 & S1 & M1 & B1) (e2 & E2 & N2 & S2 & M2 & B2).
  exists (e1 ++ e2). rewrite E2, E1, <- app_assoc, !count_app. repeat split; lia.
Qed.

Lemma sameCycle_trans (w1 w2 w3 : World) :
  sameCycle w1 w2 -> sameCycle w2 w3 -> sameCycle w1 w3.
Proof. unfold sameCycle. intros (A1 & B1 & C1) (A2 & B2 & C2). repeat split; congruence. Qed.

Lemma quietStep_trans (w1 w2 w3 : World) (n m : nat) :
  quietStep w1 w2 n -> quietStep w2 w3 m -> quietStep w1 w3 (n + m).
Proof.
  intros [L1 C1] [L2 C2].
  split; [eapply quietLog_trans | eapply sameCycle_trans]; eassumption.
Qed.

(** A step that leaves the log and the monitor as they are. *)
Lemma quietStep_silent (w w' : World) :
  log w' = log w -> sameCycle w w' -> quietStep w w' 0.
Proof. intros E C. split; [now apply quietLog_refl | exact C]. Qed.

Lemma sameCycle_refl (w w' : World) : monitor w' = monitor w -> sameCycle w w'.
Proof. intros E. unfold sameCycle. now rewrite E. Qed.

Lemma quietStep_then_silent (w1 w2 w3 : World) (n : nat) :
  quietStep w1 w2 n -> log w3 = log w2 -> sameCycle w2 w3 -> quietStep w1 w3 n.
Proof.
  intros H E C. replace n with (n + 0)%nat by lia.
  apply (quietStep_trans w1 w2 w3 n 0); [exact H | now apply quietStep_silent].
Qed.

Lemma quietStep_after_silent (w1 w2 w3 : World) (n : nat) :
  log w2 = log w1 -> sameCycle w1 w2 -> quietStep w2 w3 n -> quietStep w1 w3 n.
Proof.
  intros E C H.
  apply (quietStep_trans w1 w2 w3 0 n); [now apply quietStep_silent | exact H].
Qed.

Lemma checkNotifications_quiet (env : Monitor.Env) (row : Z * Product)
    (np : option Q) (u : PriceUpdate) (w : World) :
  quietStep w (snd (checkNotifications env row np u w))
    (List.length (fst (checkNotifications env row np u w))).
Proof.
  unfold checkNotifications.
  destruct (chooseCall row np u) as [c|];
    [|apply quietStep_silent; [reflexivity | now apply sameCycle_refl]].
  destruct (notificationService (monitor w)) eqn:Es;
    [|apply quietStep_silent; [reflexivity | now apply sameCycle_refl]].
  split.
  - exists [Notified c]. simpl. repeat split; reflexivity.
  - unfold sameCycle. simpl. auto.
Qed.

Lemma checkProduct_quiet (env : Monitor.Env) (now : Z) (row : Z * Product) (w : World) :
  quietStep w (snd (checkProduct env now row w))
    (paid (recorded row (fst (checkProduct env now row w)))).
Proof.
  unfold checkProduct, checkProductTry.
  destruct (Scraper.scrapePrice (senv env) (Db.url (snd row)) (Monitor.scraper w))
    as [[sd|m] s1].
  2: { destruct (incrementError _ _ _ _) as [[|] ps]; simpl;
         (apply quietStep_silent; [reflexivity | now apply sameCycle_refl]). }
  destruct (negb (Scraper.success sd)).
  { destruct (incrementError now (fst row) (Scraper.error sd) _) as [[|m] ps]; simpl.
    - apply quietStep_silent; [reflexivity | now apply sameCycle_refl].
    - destruct (incrementError _ _ _ _) as [[|] ps2]; simpl;
        (apply quietStep_silent; [reflexivity | now apply sameCycle_refl]). }
  destruct (updatePrice now (fst row) (Scraper.price sd) _) as [[u|m] ps].
  2: { simpl. destruct (incrementError _ _ _ _) as [[|] ps2]; simpl;
         (apply quietStep_silent; [reflexivity | now apply sameCycle_refl]). }
  destruct (historyAdd now (fst row) (Scraper.price sd) _ _) as [[|m] h].
  2: { simpl. destruct (incrementError _ _ _ _) as [[|] ps2]; simpl;
         (apply quietStep_silent; [reflexivity | now apply sameCycle_refl]). }
  match goal with |- context [checkNotifications env ?a ?b ?c ?d] =>
    pose proof (checkNotifications_quiet env a b c d) as Hq;
    destruct (checkNotifications env a b c d) as [notifs w4] end.
  cbn [fst snd] in Hq |- *.
  change (paid _) with (List.length notifs).
  eapply quietStep_then_silent; [eapply quietStep_after_silent; [| |exact Hq]| |].
  - reflexivity.
  - now apply sameCycle_refl.
  - reflexivity.
  - unfold sameCycle. simpl. auto.
Qed.

Lemma fold_sum_shift (f : CheckResult -> nat) (l : list CheckResult) (a : nat) :
  fold_left (fun sum r => (sum + f r)%nat) l a
  = (a + fold_left (fun sum r => (sum + f r)%nat) l 0)%nat.
Proof.
  revert a. induction l as [|r l IH]; intros a; simpl; [lia|].
  rewrite (IH (a + f r)%nat), (IH (f r)). lia.
Qed.

Lemma notifiedBy_cons (r : CheckResult) (rs : list CheckResult) :
  notifiedBy (r :: rs) = (paid r + notifiedBy rs)%nat.
Proof.
  unfold notifiedBy, paid. simpl. destruct (success r); simpl; [|reflexivity].
  apply fold_sum_shift.
Qed.

Lemma notifiedBy_app (rs1 rs2 : list CheckResult) :
  notifiedBy (rs1 ++ rs2) = (notifiedBy rs1 + notifiedBy rs2)%nat.
Proof.
  induction rs1 as [|r rs1 IH]; [reflexivity|].
  simpl app. rewrite !notifiedBy_cons, IH. lia.
Qed.

Lemma checkBatch_quiet (env : Monitor.Env) (now : Z) (batch : list (Z * Product)) :
  forall w,
  quietStep w (snd (checkBatch env now batch w))
    (notifiedBy (fst (checkBatch env now batch w))).
Proof.
  induction batch as [|row batch IH]; intros w; simpl.
  - apply quietStep_silent; [reflexivity | now apply sameCycle_refl].
  - pose proof (checkProduct_quiet env now row w) as H1.
    destruct (checkProduct env now row w) as [r w1]. cbn [fst snd] in H1.
    specialize (IH w1). destruct (checkBatch env now batch w1) as [rs w2].
    cbn [fst snd] in IH |- *.
    fold (recorded row r). rewrite notifiedBy_cons.
    eapply quietStep_trans; eassumption.
Qed.

(** The loop over the batches of a cycle in flight: it returns, the
    outcomes of all the checks are added to the current cycle, and its
    effects are notifications and delays. *)
Lemma runBatches_spec (env : Monitor.Env) (now : Z) (batches : list (list (Z * Product))) :
  forall w c,
  currentCheck (monitor w) = Some c ->
  exists rs w',
    runBatches env now batches w = (Ok tt, w') /\
    currentCheck (monitor w')
      = Some {| checkProducts := checkProducts c; results := results c ++ rs |} /\
    quietLog w w' (notifiedBy rs) /\
    totalChecks (stats (monitor w')) = totalChecks (stats (monitor w)).
Proof.
  induction batches as [|batch batches IH]; intros w c Hc.
  - exists [], w. simpl. rewrite app_nil_r. destruct c.
    repeat split; [exact Hc | now apply quietLog_refl].
  - cbn [runBatches].
    pose proof (checkBatch_quiet env now batch w) as [Hl (Ht & Hcur & _)].
    destruct (checkBatch env now batch w) as [rs w1]. cbn [fst snd] in *.
    unfold pushResults. rewrite Hcur, Hc.
    set (w2 := setMonitor _ w1).
    assert (Hc2 : currentCheck (monitor w2)
              = Some {| checkProducts := checkProducts c; results := results c ++ rs |})
      by reflexivity.
    assert (Hl2 : quietLog w w2 (notifiedBy rs)) by exact Hl.
    assert (Ht2 : totalChecks (stats (monitor w2)) = totalChecks (stats (monitor w)))
      by exact Ht.
    destruct batches as [|b2 batches].
    + destruct (IH w2 _ Hc2) as (rs' & w' & E & Hc' & Hl' & Ht').
      rewrite E. exists (rs ++ rs'), w'. split; [reflexivity|].
      split; [rewrite Hc'; simpl; now rewrite <- app_assoc|].
      split; [rewrite notifiedBy_app; eapply quietLog_trans; eassumption | congruence].
    + set (w3 := emit (Slept (requestDelayMs env)) w2).
      assert (Hl3 : quietLog w2 w3 0).
      { exists [Slept (requestDelayMs env)]. repeat split; reflexivity. }
      destruct (IH w3 _ Hc2) as (rs' & w' & E & Hc' & Hl' & Ht').
      rewrite E. exists (rs ++ rs'), w'. split; [reflexivity|].
      split; [rewrite Hc'; simpl; now rewrite <- app_assoc|].
      split; [|rewrite Ht'; exact Ht2].
      rewrite notifiedBy_app.
      replace (notifiedBy rs + notifiedBy rs')%nat
        with (notifiedBy rs + 0 + notifiedBy rs')%nat by lia.
      eapply quietLog_trans; [eapply quietLog_trans|]; eassumption.
Qed.

Lemma mod_50_10 (n : nat) : (n mod 50 =? 0)%nat = true -> (n mod 10 =? 0)%nat = true.
Proof.
  rewrite !Nat.eqb_eq. intros H.
  pose proof (Nat.div_mod_eq n 50) as E. rewrite H in E.
  rewrite E. replace (50 * (n / 50) + 0)%nat with ((5 * (n / 50)) * 10)%nat by lia.
  apply Nat.Div0.mod_mul.
Qed.

(** What [processCheckResults] adds to the log of a cycle in flight. *)
Lemma processCheckResults_log (now : Z) (w : World) (c : Check) :
  currentCheck (monitor w) = Some c ->
  let n := totalChecks (stats (monitor w)) in
  exists e,
    log (processCheckResults now w) = log w ++ e /\
    count isNotified e = 0%nat /\
    count isSummary e = (if (5 <=? notifiedBy (results c))%nat then 1 else 0)%nat /\
    count isMaintenance e = (if (n mod 10 =? 0)%nat then 1 else 0)%nat /\
    count isBackup e = (if (n mod 50 =? 0)%nat then 1 else 0)%nat /\
    totalChecks (stats (monitor (processCheckResults now w))) = n.
Proof.
  intros Hc n. unfold processCheckResults. rewrite Hc.
  change (notificationCount (cycleStats (results c))) with (notifiedBy (results c)).
  destruct (5 <=? notifiedBy (results c))%nat;
    cbn [monitor emit stats];
    fold n;
    (destruct (n mod 10 =? 0)%nat eqn:E10;
     [ unfold performMaintenance;
       destruct (reactivateErrorProducts now _) as [re ps];
       destruct (historyCleanup now 90 _) as [cl h];
       cbn [monitor emit setHistory setProducts stats]; fold n;
       destruct (n mod 50 =? 0)%nat eqn:E50
     | destruct (n mod 50 =? 0)%nat eqn:E50;
       [apply mod_50_10 in E50; subst n; congruence|] ]);
    cbn [log emit setHistory setProducts monitor];
    first [ exists []; split; [now rewrite app_nil_r|]
          | eexists; split; [rewrite <- ?app_assoc; reflexivity|] ];
    repeat split; reflexivity.
Qed.

(** The effects of one whole cycle, started on an idle monitor that has
    counted [n] cycles. *)
Lemma executeCheck_effects (env : Monitor.Env) (now : Z) (w : World) :
  currentCheck (monitor w) = None ->
  let n := totalChecks (stats (monitor w)) in
  let due := findForCheck now (checkIntervalMinutes env) (products w) in
  totalChecks (stats (monitor (executeCheck env now w))) = S n /\
  currentCheck (monitor (executeCheck env now w)) = None /\
  exists effs,
    log (executeCheck env now w) = log w ++ effs /\
    count isSummary effs = (if (5 <=? count isNotified effs)%nat then 1 else 0)%nat /\
    count isMaintenance effs
      = (if nonEmpty due && (n mod 10 =? 0)%nat then 1 else 0)%nat /\
    count isBackup effs
      = (if nonEmpty due && (n mod 50 =? 0)%nat then 1 else 0)%nat.
Proof.
  intros Hc n due. unfold executeCheck, executeCheckEnter. rewrite Hc.
  set (w1 := setMonitor _ w).
  split; [|split; [apply executeCheckLeave_clears|]].
  - unfold executeCheckLeave, executeCheckTry.
    change (products w1) with (products w). fold due.
    destruct due as [|r due'] eqn:Ed; [reflexivity|].
    set (w1' := setCheckProducts _ w1).
    destruct (runBatches_spec env now
                (Scraper.chunkLoop (List.length (r :: due')) 5 (r :: due')) w1'
                {| checkProducts := r :: due'; results := [] |} eq_refl)
      as (rs & w2 & E & Hc2 & _ & Ht2).
    rewrite E.
    destruct (processCheckResults_log now w2 _ Hc2) as (e & _ & _ & _ & _ & _ & Ht3).
    cbn [monitor setMonitor stats setStats countCycle totalChecks setCurrentCheck].
    rewrite Ht3, Ht2. reflexivity.
  - unfold executeCheckLeave, executeCheckTry.
    change (products w1) with (products w). fold due.
    destruct due as [|r due'] eqn:Ed.
    + exists []. rewrite app_nil_r. repeat split.
    + set (w1' := setCheckProducts _ w1).
      destruct (runBatches_spec env now
                  (Scraper.chunkLoop (List.length (r :: due')) 5 (r :: due')) w1'
                  {| checkProducts := r :: due'; results := [] |} eq_refl)
        as (rs & w2 & E & Hc2 & (eb & Elog & Nb & Sb & Mb & Bb) & Ht2).
      rewrite E.
      destruct (processCheckResults_log now w2 _ Hc2)
        as (ep & Elog' & Np & Sp & Mp & Bp & _).
      exists (eb ++ ep).
      cbn [log setMonitor].
      rewrite Elog', Elog, <- app_assoc, !count_app, Nb, Sb, Mb, Bb, Np, Sp, Mp, Bp.
      change (log w1') with (log w). cbn [results app nonEmpty andb].
      rewrite Ht2. change (totalChecks (stats (monitor w1'))) with n.
      rewrite Nat.add_0_r. repeat split.
Qed.

Lemma performMaintenance_store (now : Z) (w : World) :
  products (performMaintenance now w)
    = ((fun p => if staleErrored now p then reactivate p else p) <$> products w) /\
  history (performMaintenance now w)
    = List.filter (fun r => negb (checked_at r <? now - 90 * 86400)) (history w).
Proof.
  unfold performMaintenance, reactivateErrorProducts, historyCleanup.
  cbn [history setProducts].
  destruct (totalChecks _ mod 50 =? 0)%nat; split; reflexivity.
Qed.

Lemma staleErrored_iff (now : Z) (p : Product) :
  staleErrored now p = true <->
  is_active p = false /\
  (exists k, error_count p = Some k /\ 0 < k) /\
  (exists t, last_checked p = Some t /\ t < now - 24 * 3600).
Proof.
  unfold staleErrored. rewrite !andb_true_iff, negb_true_iff.
  destruct (error_count p) as [k|], (last_checked p) as [t|];
    rewrite ?Z.ltb_lt; split.
  - intros [[H1 H2] H3]. eauto 8.
  - intros (H1 & (k' & [= <-] & H2) & (t' & [= <-] & H3)). auto.
  - intros [[_ _] H]. discriminate.
  - intros (_ & _ & (t' & H & _)). discriminate.
  - intros [[_ H] _]. discriminate.
  - intros (_ & (k' & H & _) & _). discriminate.
  - intros [[_ H] _]. discriminate.
  - intros (_ & (k' & H & _) & _). discriminate.
Qed.

(** C9 (counterexample).  On a monitor that has counted no cycle yet, the
    first cycle, which finds one product due, runs the maintenance and
    requests a backup; on a monitor that has counted nine cycles, the
    tenth cycle runs no maintenance. *)
Lemma maintenance_on_first_cycle_not_tenth :
  let first := executeCheck (monitorEnv deadNet) 100000 (worldAfter 0 shop) in
  let tenth := executeCheck (monitorEnv deadNet) 100000 (worldAfter 9 shop) in
  totalChecks (stats (monitor first)) = 1%nat /\
  count isMaintenance (log first) = 1%nat /\
  count isBackup (log first) = 1%nat /\
  totalChecks (stats (monitor tenth)) = 10%nat /\
  count isMaintenance (log tenth) = 0%nat.
Proof. cbv zeta. repeat split; vm_compute; reflexivity. Qed.

(** C9 (amended).  A cycle started on an idle monitor is counted when it
    ends.  A summary notification is requested, once, if and only if at
    least 5 notifications fired during the cycle.  The maintenance runs,
    once, if and only if the cycle found products due and the number of
    cycles counted before it is a multiple of 10 (the count is
    incremented after the results are processed: the 1st, 11th, 21st ...
    cycle); it reactivates the inactive products with errors whose last
    check is more than 24 hours old (active again, error count 0, no last
    error) and deletes the history older than 90 days.  A backup is
    requested, once, if and only if the cycle found products due and
    that number is a multiple of 50. *)
Theorem cycle_summary_and_maintenance (env : Monitor.Env) (now : Z) (w : World) :
  currentCheck (monitor w) = None ->
  let n := totalChecks (stats (monitor w)) in
  let due := findForCheck now (checkIntervalMinutes env) (products w) in
  totalChecks (stats (monitor (executeCheck env now w))) = S n /\
  (exists effs,
     log (executeCheck env now w) = log w ++ effs /\
     count isSummary effs = (if (5 <=? count isNotified effs)%nat then 1 else 0)%nat /\
     count isMaintenance effs
       = (if nonEmpty due && (n mod 10 =? 0)%nat then 1 else 0)%nat /\
     count isBackup effs
       = (if nonEmpty due && (n mod 50 =? 0)%nat then 1 else 0)%nat) /\
  (forall w0 id p, products w0 !! id = Some p ->
     products (performMaintenance now w0) !! id
       = Some (if staleErrored now p then reactivate p else p) /\
     (staleErrored now p = true <->
        is_active p = false /\
        (exists k, error_count p = Some k /\ 0 < k) /\
        (exists t, last_checked p = Some t /\ t < now - 24 * 3600)) /\
     is_active (reactivate p) = true /\
     error_count (reactivate p) = Some 0 /\
     last_error (reactivate p) = None) /\
  (forall w0,
     history (performMaintenance now w0)
       = List.filter (fun r => negb (checked_at r <? now - 90 * 86400)) (history w0)).
Proof.
  intros Hc n due.
  destruct (executeCheck_effects env now w Hc) as (Ht & _ & Heffs).
  split; [exact Ht|]. split; [exact Heffs|]. split.
  - intros w0 id p Hp.
    destruct (performMaintenance_store now w0) as [-> _].
    rewrite lookup_fmap, Hp. split; [reflexivity|].
    split; [apply staleErrored_iff|]. repeat split.
  - intros w0. apply performMaintenance_store.
Qed.

(** The first cycle on the shop: it is counted, and it runs the
    maintenance. *)
Lemma cycle_summary_and_maintenance_witness :
  let w := worldAfter 0 shop in
  currentCheck (monitor w) = None /\
  totalChecks (stats (monitor (executeCheck (monitorEnv deadNet) 100000 w))) = 1%nat.
Proof.
  intros w. assert (Hc : currentCheck (monitor w) = None) by reflexivity.
  split; [exact Hc|].
  exact (proj1 (cycle_summary_and_maintenance (monitorEnv deadNet) 100000 w Hc)).
Defined.

(* ================================================================== *)
(** * Further properties of the scraper *)
(* ================================================================== *)

Import MoreNotions.
Import Scraper.

Lemma makeRequest_schedule_aux (env : Scraper.Env) (u d : jsstring) :
  forall n st,
  (maxRetries env - retryCountOf st u = n)%nat ->
  exists k,
    (k <= n)%nat /\
    fst (makeRequest env u d st) = attempt (net env (sent st + k) u) /\
    sent (snd (makeRequest env u d st)) = (sent st + k + 1)%nat /\
    slept (snd (makeRequest env u d st))
      = rev (backoffs (retryCountOf st u) k) ++ slept st /\
    retryAttempts (snd (makeRequest env u d st))
      = (if (k =? 0)%nat then retryAttempts st
         else <[u := (retryCountOf st u + k)%nat]> (retryAttempts st)) /\
    siteConfigs (snd (makeRequest env u d st)) = siteConfigs st /\
    (forall j, (j < k)%nat ->
       exists m, attempt (net env (sent st + j) u) = Throw m /\ shouldRetry m = true) /\
    (forall m, fst (makeRequest env u d st) = Throw m ->
       k = n \/ shouldRetry m = false).
Proof.
  assert (Hstop : forall n st (r : Result Response),
            fst (r, countRequest st) = attempt (net env (sent st) u) ->
            (forall m, r = Throw m ->
               0%nat = n \/ shouldRetry m = false) ->
            exists k,
              (k <= n)%nat /\
              fst (r, countRequest st) = attempt (net env (sent st + k) u) /\
              sent (snd (r, countRequest st)) = (sent st + k + 1)%nat /\
              slept (snd (r, countRequest st))
                = rev (backoffs (retryCountOf st u) k) ++ slept st /\
              retryAttempts (snd (r, countRequest st))
                = (if (k =? 0)%nat then retryAttempts st
                   else <[u := (retryCountOf st u + k)%nat]> (retryAttempts st)) /\
              siteConfigs (snd (r, countRequest st)) = siteConfigs st /\
              (forall j, (j < k)%nat ->
                 exists m, attempt (net env (sent st + j) u) = Throw m /\
                           shouldRetry m = true) /\
              (forall m, fst (r, countRequest st) = Throw m ->
                 k = n \/ shouldRetry m = false)).
  { intros n st r Hr Hlast. exists 0%nat. rewrite Nat.add_0_r.
    split; [lia|]. split; [exact Hr|]. split; [simpl; lia|].
    split; [reflexivity|]. split; [reflexivity|]. split; [reflexivity|].
    split; [intros j Hj; lia | exact Hlast]. }
  induction n as [|n IH]; intros st Hn; rewrite makeRequest_eq;
    destruct (attempt (net env (sent st) u)) as [resp|m] eqn:E.
  - apply Hstop; [now rewrite E | discriminate].
  - assert ((retryCountOf st u <? maxRetries env)%nat = false) as ->
      by (apply Nat.ltb_ge; lia).
    apply Hstop; [now rewrite E | auto].
  - apply Hstop; [now rewrite E | discriminate].
  - assert ((retryCountOf st u <? maxRetries env)%nat = true) as ->
      by (apply Nat.ltb_lt; lia).
    destruct (shouldRetry m) eqn:Er; cbn [andb].
    2: { apply Hstop; [now rewrite E|]. intros m' [= <-]. now right. }
    set (st1 := delay _ _).
    assert (Hrc : retryCountOf st1 u = (retryCountOf st u + 1)%nat)
      by apply retryCountOf_insert.
    destruct (IH st1) as (k & Hk & Hr & Hsent & Hslept & Hra & Hsc & Hall & Hlast);
      [rewrite Hrc; lia|].
    exists (S k). split; [lia|].
    change (sent st1) with (S (sent st)) in *.
    change (slept st1) with (backoff (retryCountOf st u) :: slept st) in *.
    change (siteConfigs st1) with (siteConfigs st) in *.
    change (retryAttempts st1)
      with (<[u := (retryCountOf st u + 1)%nat]> (retryAttempts st)) in *.
    rewrite Hrc in *.
    split; [rewrite Hr; do 2 f_equal; lia|].
    split; [rewrite Hsent; lia|].
    split.
    { rewrite Hslept. unfold backoffs. simpl seq. simpl List.map. simpl rev.
      rewrite <- app_assoc. simpl. do 3 f_equal. f_equal. lia. }
    split.
    { rewrite Hra. cbn [Nat.eqb]. destruct (k =? 0)%nat eqn:Ek.
      - apply Nat.eqb_eq in Ek. subst k. reflexivity.
      - rewrite insert_insert_eq. f_equal. lia. }
    split; [exact Hsc|]. split.
    { intros [|j] Hj.
      - exists m. rewrite Nat.add_0_r. auto.
      - destruct (Hall j) as (m' & Hm & Hs); [lia|].
        exists m'. split; [|exact Hs]. rewrite <- Hm. do 2 f_equal. lia. }
    intros m' Hm'. destruct (Hlast m' Hm') as [->|H]; auto.
Qed.

Import MoreFixtures.

(** X1.  [makeRequest] makes one request and then one more after each
    failure that may be retried, as long as the counter of the URL is
    under [maxRetries]: with [k] the number of retries, [k] is at most
    [maxRetries] minus the counter on entry, every attempt before the
    last failed with a retryable message, the result is the outcome of
    the last attempt, the delays awaited are 2^c * 1000 ms for c the
    counter on entry, c + 1, ..., the counter of the URL ends [k] higher,
    the site configurations are untouched, and a failure is returned
    only when the retries are exhausted or the message is not
    retryable. *)
Theorem makeRequest_schedule (env : Scraper.Env) (u d : jsstring) (st : State) :
  exists k,
    (k <= maxRetries env - retryCountOf st u)%nat /\
    fst (makeRequest env u d st) = attempt (net env (sent st + k) u) /\
    sent (snd (makeRequest env u d st)) = (sent st + k + 1)%nat /\
    slept (snd (makeRequest env u d st))
      = rev (backoffs (retryCountOf st u) k) ++ slept st /\
    retryAttempts (snd (makeRequest env u d st))
      = (if (k =? 0)%nat then retryAttempts st
         else <[u := (retryCountOf st u + k)%nat]> (retryAttempts st)) /\
    siteConfigs (snd (makeRequest env u d st)) = siteConfigs st /\
    (forall j, (j < k)%nat ->
       exists m, attempt (net env (sent st + j) u) = Throw m /\ shouldRetry m = true) /\
    (forall m, fst (makeRequest env u d st) = Throw m ->
       k = (maxRetries env - retryCountOf st u)%nat \/ shouldRetry m = false).
Proof.
  destruct (makeRequest_schedule_aux env u d
              (maxRetries env - retryCountOf st u)%nat st eq_refl)
    as (k & Hk & Hres & Hsent & Hslept & Hretry & Hcfg & Hfailed & Hlast).
  exists k.
  split; [exact Hk|]. split; [exact Hres|]. split; [exact Hsent|].
  split; [exact Hslept|]. split; [exact Hretry|]. split; [exact Hcfg|].
  split; [exact Hfailed | exact Hlast].
Qed.

Lemma scrapePriceTry_state (env : Scraper.Env) (u : jsstring) (st : State) :
  isValidUrl env u = true ->
  let st1 := snd (makeRequest env (normalizeUrl env u)
                    (extractDomain env (normalizeUrl env u)) st) in
  snd (scrapePrice env u st) = st1 \/
  snd (scrapePrice env u st) = setRetryAttempts (delete u) st1.
Proof.
  intros Hv st1. unfold scrapePrice, scrapePriceTry. rewrite Hv. cbn [negb].
  subst st1.
  destruct (makeRequest env (normalizeUrl env u) _ st) as [[resp|m] s1]; cbn [snd].
  - destruct (success (extractData env (data resp) _ _ s1)); auto.
  - now left.
Qed.

(** X2.  What a scrape touches.  [scrapePrice] never changes the site
    configurations nor the retry counter of a URL other than the given one
    and its normalized form.  For an invalid URL it makes no request and
    changes nothing, and the result carries the invalid-URL message; for a
    valid one it makes at least one request and at most one more than the
    retries that the counter of the normalized URL still allows. *)
Theorem scrapePrice_footprint (env : Scraper.Env) (u : jsstring) (st : State) :
  let st' := snd (scrapePrice env u st) in
  siteConfigs st' = siteConfigs st /\
  (forall v, v <> u -> v <> normalizeUrl env u ->
     retryAttempts st' !! v = retryAttempts st !! v) /\
  (isValidUrl env u = false ->
     scrapePrice env u st
     = (Ok {| price := None; name := None; success := false;
              error := Some invalidUrlMessage; url := u;
              domain := extractDomain env u |}, st)) /\
  (isValidUrl env u = true ->
     (sent st < sent st')%nat /\
     (sent st' <= sent st + (maxRetries env - retryCountOf st (normalizeUrl env u)) + 1)%nat).
Proof.
  intros st'. destruct (isValidUrl env u) eqn:Hv.
  - destruct (makeRequest_schedule env (normalizeUrl env u)
                (extractDomain env (normalizeUrl env u)) st)
      as (k & Hk & _ & Hsent & _ & Hra & Hsc & _).
    assert (Hother : forall v, v <> normalizeUrl env u ->
              retryAttempts (snd (makeRequest env (normalizeUrl env u)
                 (extractDomain env (normalizeUrl env u)) st)) !! v
              = retryAttempts st !! v).
    { intros v Hne. rewrite Hra. destruct (k =? 0)%nat; [reflexivity|].
      now apply lookup_insert_ne. }
    destruct (scrapePriceTry_state env u st Hv) as [E|E]; subst st'; rewrite E.
    + split; [exact Hsc|]. split; [intros v _ Hn; now apply Hother|].
      split; [discriminate|]. intros _. rewrite Hsent. lia.
    + cbn [siteConfigs sent retryAttempts setRetryAttempts].
      split; [exact Hsc|]. split.
      * intros v Hu Hn. rewrite lookup_delete_ne by congruence. now apply Hother.
      * split; [discriminate|]. intros _. rewrite Hsent. lia.
  - assert (E : scrapePrice env u st
              = (Ok {| price := None; name := None; success := false;
                       error := Some invalidUrlMessage; url := u;
                       domain := extractDomain env u |}, st)).
    { unfold scrapePrice, scrapePriceTry. now rewrite Hv. }
    subst st'. rewrite E. cbn [snd]. repeat split; auto; discriminate.
Qed.

Lemma startsWith_app (p s : jsstring) : startsWith p (p ++ s) = true.
Proof.
  induction p as [|c p IH]; simpl; [reflexivity|].
  unfold char_eqb. now rewrite N.eqb_refl.
Qed.

Lemma includes_app (p a b : jsstring) : includes p (a ++ p ++ b) = true.
Proof.
  induction a as [|c a IH]; simpl.
  - pose proof (startsWith_app p b) as H. destruct (p ++ b); simpl; now rewrite H.
  - rewrite IH. apply orb_true_r.
Qed.

(** X3.  A page whose body holds a block indicator in any letter case,
    such as the word "robot" of a product name, counts as blocked: the
    scrape of a valid URL that gets such a page (with a status under 400)
    as its first answer fails with the blocked-request message after that
    single request, without retry or delay. *)
Theorem scrapePrice_blocked_page (env : Scraper.Env) (u : jsstring) (st : State)
    (status : N) (text pre mid post : jsstring) :
  isValidUrl env u = true ->
  net env (sent st) (normalizeUrl env u) = HttpReply status text (pre ++ mid ++ post) ->
  (status < 400)%N ->
  In (toLowerCase mid) blockIndicators ->
  isBlocked (pre ++ mid ++ post) = true /\
  scrapePrice env u st
  = (Ok {| price := None; name := None; success := false;
           error := Some blockedMessage; url := u; domain := extractDomain env u |},
     countRequest st).
Proof.
  intros Hv Hnet Hst Hin.
  assert (Hb : isBlocked (pre ++ mid ++ post) = true).
  { unfold isBlocked. apply existsb_exists. exists (toLowerCase mid).
    split; [exact Hin|]. unfold toLowerCase. rewrite !List.map_app.
    apply includes_app. }
  split; [exact Hb|].
  unfold scrapePrice, scrapePriceTry. rewrite Hv. cbn [negb].
  rewrite makeRequest_eq, Hnet. unfold attempt, axios.
  assert ((status <? 500)%N = true) as -> by (apply N.ltb_lt; lia).
  cbn [Scraper.status Scraper.data].
  assert ((400 <=? status)%N = false) as -> by (apply N.leb_gt; lia).
  rewrite Hb.
  replace (shouldRetry blockedMessage) with false by (vm_compute; reflexivity).
  rewrite andb_false_r. reflexivity.
Qed.

(** A page about a robot vacuum cleaner. *)
Lemma scrapePrice_blocked_page_witness :
  isValidUrl (toyEnv robotNet) plainUrl = true /\
  fst (scrapePrice (toyEnv robotNet) plainUrl initialState)
  = Ok {| price := None; name := None; success := false;
          error := Some blockedMessage; url := plainUrl;
          domain := extractDomain (toyEnv robotNet) plainUrl |}.
Proof.
  assert (Hv : isValidUrl (toyEnv robotNet) plainUrl = true) by reflexivity.
  split; [exact Hv|].
  rewrite (proj2 (scrapePrice_blocked_page (toyEnv robotNet) plainUrl initialState
             200 (lit "OK") (lit "<h1>Aspirador ") (lit "Robot") (lit " X</h1>") Hv
             eq_refl eq_refl
             (or_intror (or_intror (or_intror (or_intror (or_intror (or_introl eq_refl)))))))).
  reflexivity.
Defined.

Lemma lowerChar_not_upper (c : char) :
  ((65 <=? lowerChar c) && (lowerChar c <=? 90))%N = false.
Proof.
  unfold lowerChar.
  destruct ((65 <=? c) && (c <=? 90))%N eqn:E1; cbn [orb].
  - apply andb_true_iff in E1 as [H1 H2].
    apply N.leb_le in H1. apply N.leb_le in H2.
    apply andb_false_iff. right. apply N.leb_gt. lia.
  - destruct ((192 <=? c) && (c <=? 222) && negb (c =? 215))%N eqn:E2; [|exact E1].
    apply andb_true_iff in E2 as [E2 _]. apply andb_true_iff in E2 as [H1 _].
    apply N.leb_le in H1. apply andb_false_iff. right. apply N.leb_gt. lia.
Qed.

Lemma startsWith_head (c : char) (p s : jsstring) :
  startsWith (c :: p) s = true -> exists s', s = c :: s'.
Proof.
  destruct s as [|b s]; simpl; [discriminate|].
  unfold char_eqb. intros H. apply andb_true_iff in H as [H _].
  apply N.eqb_eq in H. subst. eauto.
Qed.

Lemma includes_head (c : char) (p s : jsstring) :
  includes (c :: p) s = true -> In c s.
Proof.
  induction s as [|b s IH].
  - simpl. discriminate.
  - intros H. cbn [includes] in H. apply orb_true_iff in H as [H|H].
    + apply startsWith_head in H as [s' [= <- _]]. now left.
    + right. now apply IH.
Qed.

(** A text in lower case holds none of the letters A to Z. *)
Lemma includes_upper_lower (p s : jsstring) :
  match p with
  | c :: _ => ((65 <=? c) && (c <=? 90))%N
  | [] => false
  end = true ->
  includes p (toLowerCase s) = false.
Proof.
  destruct p as [|c p]; [discriminate|].
  intros Hc. destruct (includes (c :: p) (toLowerCase s)) eqn:E; [|reflexivity].
  apply includes_head in E. unfold toLowerCase in E.
  apply in_map_iff in E as (x & Hx & _).
  pose proof (lowerChar_not_upper x) as H. rewrite Hx, Hc in H. discriminate.
Qed.

(** X4.  [shouldRetry] compares the message in lower case with its
    indicators, so the three written in upper case (ECONNRESET,
    ECONNREFUSED, ETIMEDOUT) never match: a failure is retryable exactly
    when its message in lower case holds "timeout", "network", the digit
    5 or "rate limit". *)
Theorem shouldRetry_lower_case_only (message : jsstring) :
  shouldRetry message
  = existsb (fun indicator => includes indicator (toLowerCase message))
      lowerCaseIndicators.
Proof.
  unfold shouldRetry, retryableErrors, lowerCaseIndicators. cbn [existsb].
  rewrite (includes_upper_lower (lit "ECONNRESET")) by reflexivity.
  rewrite (includes_upper_lower (lit "ECONNREFUSED")) by reflexivity.
  rewrite (includes_upper_lower (lit "ETIMEDOUT")) by reflexivity.
  reflexivity.
Qed.

Lemma deleteParams_fold (ps : list jsstring) :
  forall o : URL,
  fold_left (fun u0 param => deleteParam param u0) ps o
  = {| protocol := protocol o; hostname := hostname o; pathname := pathname o;
       searchParams :=
         List.filter (fun kv => negb (existsb (str_eqb (fst kv)) ps)) (searchParams o);
       hash := hash o |}.
Proof.
  induction ps as [|p ps IH]; intros o; simpl.
  - destruct o; simpl. f_equal. induction searchParams0; simpl; congruence.
  - rewrite IH. unfold deleteParam. simpl. f_equal.
    induction (searchParams o) as [|kv l IHl]; simpl; [reflexivity|].
    destruct (str_eqb (fst kv) p) eqn:E; simpl; [exact IHl|].
    destruct (existsb (str_eqb (fst kv)) ps); simpl; [exact IHl | now rewrite IHl].
Qed.

(** X5.  [normalizeUrl] serializes the URL with the query parameters that
    are not tracking parameters, all of them and in their order, every
    occurrence of a tracking parameter being removed and the rest of the
    URL kept; a text that does not parse as a URL is returned as it
    is. *)
Theorem normalizeUrl_keeps_other_params (env : Scraper.Env) (u : jsstring) :
  (forall o, parseURL env u = Some o ->
     normalizeUrl env u
     = urlToString env
         {| protocol := protocol o; hostname := hostname o; pathname := pathname o;
            searchParams := List.filter keptParam (searchParams o);
            hash := hash o |}) /\
  (forall o kv, parseURL env u = Some o ->
     (In kv (List.filter keptParam (searchParams o)) <->
      In kv (searchParams o) /\ ~ In (fst kv) trackingParams)) /\
  (parseURL env u = None -> normalizeUrl env u = u).
Proof.
  split; [|split].
  - intros o Ho. unfold normalizeUrl. rewrite Ho, deleteParams_fold. reflexivity.
  - intros o kv _. rewrite filter_In. unfold keptParam.
    rewrite negb_true_iff. split; intros [H1 H2]; split; auto.
    + intros Hin. assert (existsb (str_eqb (fst kv)) trackingParams = true); [|congruence].
      apply existsb_exists. exists (fst kv). split; [exact Hin|].
      unfold str_eqb. now apply bool_decide_eq_true_2.
    + destruct (existsb (str_eqb (fst kv)) trackingParams) eqn:E; [|reflexivity].
      apply existsb_exists in E as (x & Hx & Hb). unfold str_eqb in Hb.
      apply bool_decide_eq_true_1 in Hb. subst. contradiction.
  - intros Ho. unfold normalizeUrl. now rewrite Ho.
Qed.

(** The tracked URL of the shop loses its only parameter. *)
Lemma normalizeUrl_keeps_other_params_witness :
  parseURL (toyEnv deadNet) trackedUrl = Some (lojaUrl [(lit "utm_source", lit "x")]) /\
  normalizeUrl (toyEnv deadNet) trackedUrl = plainUrl.
Proof.
  assert (H : parseURL (toyEnv deadNet) trackedUrl
              = Some (lojaUrl [(lit "utm_source", lit "x")])) by reflexivity.
  split; [exact H|].
  rewrite (proj1 (normalizeUrl_keeps_other_params (toyEnv deadNet) trackedUrl) _ H).
  reflexivity.
Defined.

Lemma clean_idempotent (s : jsstring) : clean (clean s) = clean s.
Proof.
  unfold clean. induction s as [|c s IH]; simpl; [reflexivity|].
  destruct (isDigit c || (c =? 46)%N || (c =? 44)%N) eqn:E; simpl; [|exact IH].
  now rewrite E, IH.
Qed.

(** X6.  [parsePrice] reads only the digits, dots and commas of a text:
    the text and what is left of it after every other character is
    removed parse alike, so two texts that differ in other characters
    only (currency signs, letters, spaces, a minus sign) give the same
    price. *)
Theorem parsePrice_reads_clean_text (s : jsstring) :
  parsePrice s = parsePrice (clean s) /\
  (forall s', clean s' = clean s -> parsePrice s' = parsePrice s).
Proof.
  assert (H : forall x, parsePrice x = parsePrice (clean x)).
  { intros x. unfold parsePrice. rewrite clean_idempotent.
    destruct (clean x) as [|c r] eqn:E.
    - simpl. destruct x; reflexivity.
    - destruct x as [|a x]; [discriminate|]. reflexivity. }
  split; [apply H|]. intros s' E. now rewrite (H s'), (H s), E.
Qed.

(** Two price texts with the digits 99,90. *)
Lemma parsePrice_reads_clean_text_witness :
  clean (lit "por R$ 99,90 cada") = clean (lit "99,90") /\
  parsePrice (lit "por R$ 99,90 cada") = parsePrice (lit "99,90").
Proof.
  assert (E : clean (lit "por R$ 99,90 cada") = clean (lit "99,90")) by reflexivity.
  split; [exact E|].
  exact (proj2 (parsePrice_reads_clean_text (lit "99,90")) _ E).
Defined.

Lemma trimStart_head (l : jsstring) :
  trimStart l = [] \/ exists c r, trimStart l = c :: r /\ isSpace c = false.
Proof.
  induction l as [|c l IH]; simpl; [now left|].
  destruct (isSpace c) eqn:E; [exact IH|]. right. eauto.
Qed.

Lemma trimStart_last (a : jsstring) (c : char) :
  isSpace c = false -> exists a', trimStart (a ++ [c]) = a' ++ [c].
Proof.
  intros Hc. induction a as [|x a IH]; simpl.
  - rewrite Hc. now exists [].
  - destruct (isSpace x); [exact IH|]. now exists (x :: a).
Qed.

Lemma trimEnd_head (c : char) (r : jsstring) :
  isSpace c = false -> exists r', trimEnd (c :: r) = c :: r'.
Proof.
  intros Hc. unfold trimEnd. simpl rev.
  destruct (trimStart_last (rev r) c Hc) as [a' ->].
  rewrite rev_app_distr. simpl. eauto.
Qed.

Lemma trim_head (l : jsstring) :
  trim l = [] \/ exists c r, trim l = c :: r /\ isSpace c = false.
Proof.
  unfold trim. destruct (trimStart_head l) as [->|(c & r & -> & Hc)].
  - now left.
  - right. destruct (trimEnd_head c r Hc) as [r' ->]. eauto.
Qed.

Lemma trim_of_head (c : char) (r : jsstring) :
  isSpace c = false -> exists r', trim (c :: r) = c :: r'.
Proof.
  intros Hc. unfold trim. simpl. rewrite Hc. now apply trimEnd_head.
Qed.

Lemma cleanProductName_head (c : char) (r : jsstring) :
  isSpace c = false ->
  exists r', cleanProductName (c :: r) = dashSeparator c :: r'.
Proof.
  intros Hc. rewrite cleanProductName_eq. unfold collapseSpaces. simpl.
  rewrite Hc. simpl.
  destruct (trim_of_head (dashSeparator c)
              (List.map dashSeparator (collapseFrom false r))) as [r' ->].
  - now rewrite (proj1 (dashSeparator_space c)).
  - simpl. eauto.
Qed.

Lemma firstText_trimmed (doc : Document) (sel cand : jsstring) :
  firstText doc sel = Ok cand ->
  cand = [] \/ exists c r, cand = c :: r /\ isSpace c = false.
Proof.
  unfold firstText. destruct (select doc sel) as [[|e es]|m]; [| |discriminate].
  - intros [= <-]. now left.
  - intros [= <-]. apply trim_head.
Qed.

Lemma accepted_name_head (cand : jsstring) :
  (cand = [] \/ exists c r, cand = c :: r /\ isSpace c = false) ->
  (0 < List.length cand)%nat ->
  exists c rest, cleanProductName cand = c :: rest /\
    isSpace c = false /\ isSeparator c = false.
Proof.
  intros [->|(c & r & -> & Hc)] Hlen; [simpl in Hlen; lia|].
  destruct (cleanProductName_head c r Hc) as [r' ->].
  exists (dashSeparator c), r'. destruct (dashSeparator_space c) as (E1 & _ & E3).
  rewrite E1. auto.
Qed.

(** X7.  A product name that [extractProductName] returns is never empty
    and starts with a code unit that is neither white space nor a
    separator glyph; so the name of a result of [extractData] is [null]
    (after an exception) or a text that is not empty, the default name
    standing in only when no name was found. *)
Theorem extractProductName_not_blank (doc : Document) (cfg : SiteConfig) :
  (forall n, extractProductName doc cfg = Ok (Some n) ->
     exists c rest, n = c :: rest /\ isSpace c = false /\ isSeparator c = false) /\
  (forall env h d u st, Scraper.load env h = Ok doc ->
     configOf st d = cfg ->
     name (extractData env h d u st) <> Some [] /\
     (forall n, extractProductName doc cfg = Ok (Some n) ->
        name (extractData env h d u st) = Some n)).
Proof.
  assert (H1 : forall n, extractProductName doc cfg = Ok (Some n) ->
            exists c rest, n = c :: rest /\ isSpace c = false /\ isSeparator c = false).
  { intros n. unfold extractProductName. fold (siteNames doc cfg).
    destruct (siteNames doc cfg) as [[s|]|] eqn:Es; [| |discriminate].
    - intros [= <-]. unfold siteNames in Es.
      destruct (nameSelectors cfg); [|discriminate].
      apply tryNameSelectors_Some in Es as (sel & c & _ & Hf & [Hl _] & ->).
      apply accepted_name_head; [eapply firstText_trimmed, Hf | exact Hl].
    - destruct (tryNameSelectors doc genericNameSelectors) as [[g|]|] eqn:Eg;
        [| |discriminate].
      + intros [= <-].
        apply tryNameSelectors_Some in Eg as (sel & c & _ & Hf & [Hl _] & ->).
        apply accepted_name_head; [eapply firstText_trimmed, Hf | exact Hl].
      + intros H. apply titleFallback_Some in H as (c & Hc & Hl & ->).
        apply accepted_name_head; [|exact Hl].
        unfold pageTitleText in Hc. destruct (select doc (lit "title")); [|discriminate].
        injection Hc as <-. apply trim_head. }
  split; [exact H1|].
  intros env h d u st Hload Hcfg. unfold extractData, extractDataTry.
  rewrite Hload, Hcfg.
  destruct (extractProductName doc cfg) as [[n|]|m] eqn:E; cbn [name].
  - destruct (H1 n eq_refl) as (c & rest & -> & _). cbn [truthy].
    split; [discriminate|]. now intros n' [= <-].
  - split; [discriminate | discriminate].
  - split; [discriminate | discriminate].
Qed.

(** The page with the heading "  Notebook  Gamer | 16GB ". *)
Lemma extractProductName_not_blank_witness :
  extractProductName headingPage noConfig = Ok (Some (lit "Notebook Gamer - 16GB")) /\
  exists c rest, lit "Notebook Gamer - 16GB" = c :: rest /\ isSpace c = false.
Proof.
  assert (E : extractProductName headingPage noConfig
              = Ok (Some (lit "Notebook Gamer - 16GB"))) by (vm_compute; reflexivity).
  split; [exact E|].
  destruct (proj1 (extractProductName_not_blank headingPage noConfig) _ E)
    as (c & rest & H & Hs & _).
  exists c, rest. split; assumption.
Defined.

(* ================================================================== *)
(** * Further properties of the Product model *)
(* ================================================================== *)

Import Db.

Lemma checkedBefore_total : Total checkedBefore.
Proof.
  intros a b. unfold checkedBefore.
  destruct (last_checked (snd a)), (last_checked (snd b)); auto. lia.
Qed.

Lemma checkedBefore_trans : Transitive checkedBefore.
Proof.
  intros a b c. unfold checkedBefore.
  destruct (last_checked (snd a)), (last_checked (snd b)), (last_checked (snd c));
    auto; try contradiction. lia.
Qed.

Lemma filter_sublist {A} (f : A -> bool) (l : list A) : List.filter f l `sublist_of` l.
Proof.
  induction l as [|x l IH]; simpl; [constructor|].
  destruct (f x); now constructor.
Qed.

Lemma findForCheck_sorted_rows (now : Z) (interval : nat) (products : gmap Z Product) :
  findForCheck now interval products
  = take 50 (merge_sort checkedBefore (dueRows now interval products)).
Proof. reflexivity. Qed.

(** X8.  [findForCheck] returns at most 50 rows of the store, each once,
    all of them due (active, fewer than 5 errors, never checked or last
    checked before the interval), ordered with the never-checked first
    and then by the time of the last check.  When the limit leaves due
    products out, none of them was checked earlier than a product
    returned; when at most 50 products are due all are returned. *)
Theorem findForCheck_result (now : Z) (interval : nat) (products : gmap Z Product) :
  let rows := findForCheck now interval products in
  (List.length rows <= 50)%nat /\
  StronglySorted checkedBefore rows /\
  NoDup rows.*1 /\
  (forall id p, (id, p) ∈ rows ->
     products !! id = Some p /\ is_active p = true /\
     (exists n, error_count p = Some n /\ n < 5) /\
     (last_checked p = None \/
      exists t, last_checked p = Some t /\ t < now - 60 * Z.of_nat interval)) /\
  (forall id p, products !! id = Some p -> dueForCheck now interval p = true ->
     (id, p) ∉ rows ->
     (50 < List.length (dueRows now interval products))%nat /\
     forall kept, kept ∈ rows -> checkedBefore kept (id, p)).
Proof.
  intros rows. subst rows. rewrite findForCheck_sorted_rows.
  set (sorted := merge_sort checkedBefore (dueRows now interval products)).
  assert (Hperm : sorted ≡ₚ dueRows now interval products)
    by apply merge_sort_Permutation.
  assert (Hss : StronglySorted checkedBefore sorted).
  { apply (@StronglySorted_merge_sort _ checkedBefore _
             checkedBefore_trans checkedBefore_total). }
  split; [rewrite length_take; lia|].
  split.
  { rewrite <- (take_drop 50 sorted) in Hss. eapply StronglySorted_app_1_l, Hss. }
  split.
  { assert (S1 : (take 50 sorted).*1 `sublist_of` sorted.*1)
      by apply fmap_sublist, sublist_take.
    refine (sublist_NoDup _ _ _ S1). rewrite Hperm.
    assert (S2 : (dueRows now interval products).*1 `sublist_of` (map_to_list products).*1)
      by apply fmap_sublist, filter_sublist.
    refine (sublist_NoDup _ _ _ S2). apply NoDup_fst_map_to_list. }
  split.
  { intros id p Hin.
    destruct (findForCheck_elem now interval products id p) as [Hp Hdue].
    { rewrite findForCheck_sorted_rows. exact Hin. }
    split; [exact Hp|]. unfold dueForCheck in Hdue.
    apply andb_true_iff in Hdue as [Hdue Hec].
    apply andb_true_iff in Hdue as [Hact Hlc].
    split; [exact Hact|]. split.
    - destruct (error_count p) as [n|]; [|discriminate].
      exists n. split; [reflexivity | now apply Z.ltb_lt].
    - destruct (last_checked p) as [t|]; [|now left].
      right. exists t. split; [reflexivity | now apply Z.ltb_lt]. }
  intros id p Hp Hdue Hnot.
  assert (Hin : (id, p) ∈ sorted).
  { rewrite Hperm. unfold dueRows. apply list_elem_of_In, filter_In.
    split; [|exact Hdue]. now apply list_elem_of_In, elem_of_map_to_list. }
  rewrite <- (take_drop 50 sorted) in Hin, Hss.
  apply elem_of_app in Hin as [Hin|Hin]; [contradiction|].
  split.
  - rewrite <- Hperm.
    destruct (Nat.le_gt_cases (List.length sorted) 50) as [Hle|Hgt]; [|exact Hgt].
    rewrite drop_ge in Hin by exact Hle. now apply elem_of_nil in Hin.
  - intros kept Hk. eapply StronglySorted_app_1_elem_of; eassumption.
Qed.

Lemma update_found (now id : Z) (updates : list Assign)
    (products : gmap Z Product) (p : Product) :
  products !! id = Some p -> List.filter allowed updates <> [] ->
  update now id updates products
  = (Ok tt,
     <[id := touch now (fold_left (fun q a => assign a q) (List.filter allowed updates) p)]>
       products).
Proof.
  intros Hp Hf. unfold update. rewrite Hp.
  destruct (List.filter allowed updates); [contradiction | reflexivity].
Qed.

Lemma assign_keeps (a : Assign) (p : Product) :
  Db.url (assign a p) = Db.url p /\ channel_id (assign a p) = channel_id p /\
  guild_id (assign a p) = guild_id p /\ user_id (assign a p) = user_id p /\
  last_checked (assign a p) = last_checked p.
Proof. destruct a; simpl; auto. Qed.

Lemma assigns_keep (l : list Assign) :
  forall p,
  Db.url (fold_left (fun q a => assign a q) l p) = Db.url p /\
  channel_id (fold_left (fun q a => assign a q) l p) = channel_id p /\
  guild_id (fold_left (fun q a => assign a q) l p) = guild_id p /\
  user_id (fold_left (fun q a => assign a q) l p) = user_id p.
Proof.
  induction l as [|a l IH]; intros p; simpl; [auto|].
  destruct (IH (assign a p)) as (H1 & H2 & H3 & H4).
  destruct (assign_keeps a p) as (K1 & K2 & K3 & K4 & _).
  repeat split; congruence.
Qed.

(** X9.  [Product.update] throws and changes nothing when the object
    holds no allowed field, and when no product has the key.  Otherwise
    it changes the row of that key only, stamps it with the time of the
    update, whatever the fields, and never changes its URL nor its
    channel, guild and user.  [metadata] is an allowed field: an update
    of the metadata alone succeeds and stamps the row, whose other
    columns stay as they are. *)
Theorem update_contract (now id : Z) (updates : list Assign)
    (products : gmap Z Product) :
  (List.filter allowed updates = [] ->
     update now id updates products = (Throw noFieldsMessage, products)) /\
  (List.filter allowed updates <> [] -> products !! id = None ->
     update now id updates products = (Throw notFoundMessage, products)) /\
  (forall p, List.filter allowed updates <> [] -> products !! id = Some p ->
     exists p',
       update now id updates products = (Ok tt, <[id := p']> products) /\
       last_checked p' = Some now /\
       Db.url p' = Db.url p /\ channel_id p' = channel_id p /\
       guild_id p' = guild_id p /\ user_id p' = user_id p /\
       forall j, j <> id -> (<[id := p']> products) !! j = products !! j) /\
  (forall p v, products !! id = Some p ->
     update now id [SetMetadata v] products
     = (Ok tt, <[id := touch now p]> products)).
Proof.
  split; [|split; [|split]].
  4: { intros p v Hp. unfold update. cbn [List.filter allowed]. rewrite Hp.
       cbn [fold_left]. now destruct p. }
  - intros E. unfold update. now rewrite E.
  - intros Hf Hn. unfold update. rewrite Hn.
    destruct (List.filter allowed updates); [contradiction | reflexivity].
  - intros p Hf Hp. rewrite (update_found _ _ _ _ _ Hp Hf).
    eexists. split; [reflexivity|].
    destruct (assigns_keep (List.filter allowed updates) p) as (H1 & H2 & H3 & H4).
    cbn [touch last_checked Db.url channel_id guild_id user_id].
    repeat split; auto. intros j Hj. now apply lookup_insert_ne.
Qed.

(** The notebook is renamed. *)
Lemma update_contract_witness :
  List.filter allowed [SetName (lit "Laptop")] <> [] /\
  shop !! 1 = Some notebook /\
  exists p', fst (update 500 1 [SetName (lit "Laptop")] shop) = Ok tt /\
             snd (update 500 1 [SetName (lit "Laptop")] shop) !! 1 = Some p' /\
             last_checked p' = Some 500.
Proof.
  assert (Hf : List.filter allowed [SetName (lit "Laptop")] <> []) by discriminate.
  assert (Hp : shop !! 1 = Some notebook) by reflexivity.
  split; [exact Hf|]. split; [exact Hp|].
  destruct (proj1 (proj2 (proj2 (update_contract 500 1 [SetName (lit "Laptop")] shop)))
              notebook Hf Hp) as (p' & E & Hl & _).
  exists p'. rewrite E. cbn [fst snd]. split; [reflexivity|].
  split; [apply lookup_insert_eq | exact Hl].
Defined.

(** X10.  A product that was just written is not due: after a successful
    [Product.update], [updatePrice] or [incrementError] at time [now], no
    due-for-check query asked before [now] plus the interval returns the
    product.  Any update counts, a change of name or of target price
    included, since every update stamps [last_checked]. *)
Theorem no_recheck_within_interval (now id : Z) (products : gmap Z Product)
    (p : Product) (t : Z) (interval : nat) :
  products !! id = Some p ->
  t - 60 * Z.of_nat interval <= now ->
  (forall updates row, List.filter allowed updates <> [] ->
     (id, row) ∉ findForCheck t interval (snd (update now id updates products))) /\
  (forall price row,
     (id, row) ∉ findForCheck t interval (snd (updatePrice now id price products))) /\
  (forall message row,
     (id, row) ∉ findForCheck t interval (snd (incrementError now id message products))).
Proof.
  intros Hp Ht.
  assert (Hstamp : forall (ps : gmap Z Product) p' row,
            ps !! id = Some p' -> last_checked p' = Some now ->
            (id, row) ∉ findForCheck t interval ps).
  { intros ps p' row Hps Hl Hin.
    apply findForCheck_elem in Hin as [Hrow Hdue]. rewrite Hps in Hrow.
    injection Hrow as <-. unfold dueForCheck in Hdue. rewrite Hl in Hdue.
    apply andb_true_iff in Hdue as [Hdue _]. apply andb_true_iff in Hdue as [_ Hlt].
    apply Z.ltb_lt in Hlt. lia. }
  split; [|split].
  - intros updates row Hf. rewrite (update_found _ _ _ _ _ Hp Hf). cbn [snd].
    eapply Hstamp; [apply lookup_insert_eq | reflexivity].
  - intros price row. rewrite (updatePrice_found _ _ _ _ _ Hp). cbn [snd].
    eapply Hstamp; [apply lookup_insert_eq | reflexivity].
  - intros message row. rewrite (incrementError_found _ _ _ _ _ Hp). cbn [snd].
    eapply Hstamp; [apply lookup_insert_eq | reflexivity].
Qed.

(** The notebook, whose metadata alone is written at time 1000, is asked
    for 59 minutes later with an interval of 60 minutes. *)
Lemma no_recheck_within_interval_witness :
  shop !! 1 = Some notebook /\ 4540 - 60 * Z.of_nat 60 <= 1000 /\
  forall row,
    (1, row) ∉ findForCheck 4540 60
                 (snd (update 1000 1 [SetMetadata (lit "{}")] shop)).
Proof.
  assert (Hp : shop !! 1 = Some notebook) by reflexivity.
  assert (Ht : 4540 - 60 * Z.of_nat 60 <= 1000) by (simpl; lia).
  assert (Hf : List.filter allowed [SetMetadata (lit "{}")] <> []) by discriminate.
  split; [exact Hp|]. split; [exact Ht|].
  intros row.
  exact (proj1 (no_recheck_within_interval 1000 1 shop notebook 4540 60 Hp Ht)
           [SetMetadata (lit "{}")] row Hf).
Defined.

Lemma reactivate_not_stale (now : Z) (p : Product) :
  staleErrored now (if staleErrored now p then reactivate p else p) = false.
Proof.
  destruct (staleErrored now p) eqn:E; [|exact E].
  unfold staleErrored, reactivate. simpl. reflexivity.
Qed.

Lemma filter_none {A} (f : A -> bool) (l : list A) :
  (forall x, In x l -> f x = false) -> List.filter f l = [].
Proof.
  induction l as [|x l IH]; simpl; [reflexivity|].
  intros H. rewrite (H x) by now left. apply IH. intros y Hy. apply H. now right.
Qed.

(** X11.  [reactivateErrorProducts] changes the inactive products that
    have errors and a last check older than 24 hours, and no other:
    active products, products without errors and products checked in the
    last 24 hours are left as they are, and no product is added or
    removed.  A product it changes is active with no error, and is due
    for a check at once for any interval of at most 1440 minutes.  Run
    again at the same time it changes nothing and reports 0. *)
Theorem reactivateErrorProducts_effect (now : Z) (products : gmap Z Product) :
  let products' := snd (reactivateErrorProducts now products) in
  (forall id, products' !! id
     = (fun p => if staleErrored now p then reactivate p else p) <$> products !! id) /\
  (forall id p, products !! id = Some p ->
     is_active p = true \/ orZero (error_count p) <= 0 \/
     (forall t, last_checked p = Some t -> now - 24 * 3600 <= t) ->
     products' !! id = Some p) /\
  (forall id p, products !! id = Some p -> staleErrored now p = true ->
     exists p', products' !! id = Some p' /\
       is_active p' = true /\ error_count p' = Some 0 /\ last_error p' = None /\
       last_checked p' = last_checked p /\ current_price p' = current_price p /\
       forall interval, (interval <= 1440)%nat ->
         dueForCheck now interval p' = true) /\
  reactivateErrorProducts now products' = (0%nat, products').
Proof.
  intros products'. subst products'. unfold reactivateErrorProducts. cbn [snd].
  split; [|split; [|split]].
  - intros id. apply lookup_fmap.
  - intros id p Hp Hkeep. rewrite lookup_fmap, Hp. simpl.
    destruct (staleErrored now p) eqn:E; [|reflexivity].
    apply staleErrored_iff in E as (Ha & (k & Hk & Hpos) & (t & Ht & Hold)).
    destruct Hkeep as [H|[H|H]].
    + congruence.
    + rewrite Hk in H. simpl in H. lia.
    + specialize (H t Ht). lia.
  - intros id p Hp Hst. rewrite lookup_fmap, Hp. simpl. rewrite Hst.
    eexists. split; [reflexivity|].
    apply staleErrored_iff in Hst as (Ha & _ & (t & Ht & Hold)).
    repeat split. intros interval Hi. unfold dueForCheck, reactivate. simpl.
    rewrite Ht. apply andb_true_iff. split; [|reflexivity].
    apply Z.ltb_lt. lia.
  - f_equal.
    + rewrite filter_none; [reflexivity|].
      intros [i x] Hin. apply list_elem_of_In, elem_of_map_to_list in Hin.
      rewrite lookup_fmap in Hin. simpl.
      destruct (products !! i) as [p|]; [|discriminate].
      injection Hin as <-. apply reactivate_not_stale.
    + apply map_eq. intros i. rewrite !lookup_fmap.
      destruct (products !! i) as [p|]; [|reflexivity]. simpl.
      now rewrite reactivate_not_stale.
Qed.

(** A product with five errors, checked at time 0, a day and a second
    later. *)
Lemma reactivateErrorProducts_effect_witness :
  brokenShop !! 1 = Some broken /\ staleErrored 86401 broken = true /\
  exists p', snd (reactivateErrorProducts 86401 brokenShop) !! 1 = Some p' /\
             is_active p' = true /\ dueForCheck 86401 60 p' = true.
Proof.
  assert (Hp : brokenShop !! 1 = Some broken) by reflexivity.
  assert (Hs : staleErrored 86401 broken = true) by reflexivity.
  split; [exact Hp|]. split; [exact Hs|].
  destruct (proj1 (proj2 (proj2 (reactivateErrorProducts_effect 86401 brokenShop)))
              1 broken Hp Hs) as (p' & E & Ha & _ & _ & _ & _ & Hdue).
  exists p'. split; [exact E|]. split; [exact Ha|]. apply Hdue. lia.
Defined.

Lemma filter_split_length {A} (f : A -> bool) (l : list A) :
  List.length l
  = (List.length (List.filter f l) + List.length (List.filter (fun x => negb (f x)) l))%nat.
Proof.
  induction l as [|x l IH]; simpl; [reflexivity|].
  destruct (f x); simpl; lia.
Qed.

Lemma filter_all {A} (f : A -> bool) (l : list A) :
  (forall x, In x l -> f x = true) -> List.filter f l = l.
Proof.
  induction l as [|x l IH]; simpl; [reflexivity|].
  intros H. rewrite (H x) by now left. f_equal. apply IH. intros y Hy. apply H. now right.
Qed.

(** X12.  [PriceHistory.cleanup] with a number of days that is not
    negative deletes exactly the records older than the days to keep:
    the records kept are those checked within the period.  With a
    negative number of days it deletes nothing and reports 0.  In both
    cases the number reported and the records kept add up to the records
    there were, the records kept are in their order, and a second
    cleanup at the same time deletes nothing. *)
Theorem historyCleanup_effect (now days : Z) (history : list HistoryRecord) :
  let n := fst (historyCleanup now days history) in
  let kept := snd (historyCleanup now days history) in
  List.length history = (n + List.length kept)%nat /\
  kept `sublist_of` history /\
  (0 <= days ->
   forall r, In r kept <-> In r history /\ now - days * 86400 <= checked_at r) /\
  (days < 0 -> historyCleanup now days history = (0%nat, history)) /\
  historyCleanup now days kept = (0%nat, kept).
Proof.
  intros n kept. subst n kept. unfold historyCleanup. cbn [fst snd].
  split; [apply filter_split_length|].
  split; [apply filter_sublist|].
  split.
  { intros Hd r. rewrite filter_In, negb_true_iff.
    replace (0 <=? days) with true by (symmetry; apply Z.leb_le; exact Hd).
    cbn [andb]. rewrite Z.ltb_ge. reflexivity. }
  split.
  { intros Hd.
    replace (0 <=? days) with false by (symmetry; apply Z.leb_gt; exact Hd).
    cbn [andb negb]. f_equal.
    - rewrite filter_none; [reflexivity|]. reflexivity.
    - apply filter_all. reflexivity. }
  f_equal.
  - rewrite filter_none; [reflexivity|].
    intros r Hr. apply filter_In in Hr as [_ Hr]. now apply negb_true_iff.
  - apply filter_all. intros r Hr. now apply filter_In in Hr as [_ Hr].
Qed.

(** An old record and a recent one, 90 days kept. *)
Lemma historyCleanup_effect_witness :
  0 <= 90 /\
  historyCleanup 8000000 90 [oldRecord; newRecord] = (1%nat, [newRecord]) /\
  List.length [oldRecord; newRecord]
  = (fst (historyCleanup 8000000 90 [oldRecord; newRecord])
     + List.length (snd (historyCleanup 8000000 90 [oldRecord; newRecord])))%nat.
Proof.
  split; [lia|]. split; [reflexivity|].
  exact (proj1 (historyCleanup_effect 8000000 90 [oldRecord; newRecord])).
Defined.

(* ================================================================== *)
(** * Further properties of the monitor *)
(* ================================================================== *)

Import Monitor.

(** X13.  What a check leaves behind.  The check of a product of the
    store (its key not zero) always returns a failed outcome, without a
    new price and without notifications: the history, the log of the
    notifications and the statistics of the monitor are as before, and
    no other product is changed.  The product itself is stamped with the
    time of the check and carries a last error.  When the scrape failed
    its price is kept; when the scrape succeeded the store holds the new
    price, which is above zero, the previous one as [last_price] and one
    more in [check_count], although the check is reported as failed and
    the history has no record of the price. *)
Theorem checkProduct_ledger (env : Monitor.Env) (now id : Z) (row : Product)
    (w : World) (p : Product) :
  products w !! id = Some p -> id <> 0 ->
  exists r w' p' sr,
    checkProduct env now (id, row) w = (Ok r, w') /\
    Scraper.scrapePrice (senv env) (Db.url row) (Monitor.scraper w)
      = (Ok sr, Monitor.scraper w') /\
    success r = false /\ newPrice r = None /\ notifications r = None /\
    error r = last_error p' /\
    history w' = history w /\ log w' = log w /\ monitor w' = monitor w /\
    (forall id', id' <> id -> products w' !! id' = products w !! id') /\
    products w' !! id = Some p' /\
    last_checked p' = Some now /\ is_Some (last_error p') /\
    (Scraper.success sr = false ->
       current_price p' = current_price p /\ last_price p' = last_price p /\
       check_count p' = check_count p /\ last_error p' = Scraper.error sr) /\
    (Scraper.success sr = true ->
       exists price,
         (0 < price)%Q /\ current_price p' = Some price /\
         last_price p' = current_price p /\
         check_count p' = Some (orZero (check_count p) + 1) /\
         last_error p' = Some triggerMessage).
Proof.
  intros Hp Hid.
  destruct (scrapePrice_wellFormed (senv env) (Db.url row) (Monitor.scraper w))
    as (sr0 & st0 & E0 & _ & Hwf & _).
  destruct (checkProduct_store env now id row w p Hp Hid)
    as (r & w' & q & sr & E & Esr & Er & Eps & Hl & Eh & El & Em & Hko & Hok).
  rewrite E0 in Esr. injection Esr as <- Est.
  exists r, w', q, sr0.
  split; [exact E|]. split; [now rewrite E0, Est|].
  rewrite Er. cbn [success newPrice notifications error failedResult].
  split; [reflexivity|]. split; [reflexivity|]. split; [reflexivity|].
  split; [reflexivity|]. split; [exact Eh|]. split; [exact El|].
  split; [exact Em|].
  split; [intros id' Hne; rewrite Eps; now apply lookup_insert_ne|].
  split; [rewrite Eps; apply lookup_insert_eq|]. split; [exact Hl|].
  destruct (Scraper.success sr0) eqn:Es.
  - destruct (Hok eq_refl) as (price & Epr & Hpos & ->).
    split; [cbn; eauto|]. split; [discriminate|].
    intros _. exists price. repeat split. exact Hpos.
  - rewrite (Hko eq_refl).
    destruct (Hwf eq_refl) as (_ & m & Em').
    split; [cbn; rewrite Em'; eauto|].
    split; [intros _; repeat split | discriminate].
Qed.

(** The notebook on a network that serves its page: the price of the
    page is in the store, the check is reported as failed and the error
    is counted. *)
Lemma checkProduct_ledger_witness :
  let w := startedWorld shop in
  products w !! 1 = Some notebook /\ 1 <> 0 /\
  exists r w' p',
    checkProduct (monitorEnv okNet) 1000 (1, notebook) w = (Ok r, w') /\
    success r = false /\
    products w' !! 1 = Some p' /\
    current_price p' = Some 99.90%Q /\ error_count p' = Some 1 /\
    history w' = [].
Proof.
  intros w. assert (Hp : products w !! 1 = Some notebook) by reflexivity.
  assert (Hid : 1 <> 0) by lia.
  split; [exact Hp|]. split; [exact Hid|].
  destruct (checkProduct_ledger (monitorEnv okNet) 1000 1 notebook w notebook Hp Hid)
    as (r & w' & p' & sr & E & _ & Hs & _ & _ & _ & Hh & _ & _ & _ & Hp' & _).
  exists r, w', p'. split; [exact E|]. split; [exact Hs|].
  split; [exact Hp'|].
  assert (Ew : products (snd (checkProduct (monitorEnv okNet) 1000 (1, notebook) w)) !! 1
               = Some (afterFailure 1000 (Some triggerMessage)
                         (afterSuccess 1000 (Some 99.90%Q) notebook)))
    by (vm_compute; reflexivity).
  rewrite E in Ew. cbn [snd] in Ew. rewrite Hp' in Ew. injection Ew as ->.
  split; [reflexivity|]. split; [reflexivity | exact Hh].
Defined.

Lemma findForCheck_none (now : Z) (interval : nat) (products : gmap Z Product) :
  (forall id p, products !! id = Some p -> dueForCheck now interval p = false) ->
  findForCheck now interval products = [].
Proof.
  intros H. unfold findForCheck. rewrite filter_none; [reflexivity|].
  intros [id p] Hin. apply list_elem_of_In, elem_of_map_to_list in Hin.
  now apply (H id p).
Qed.

Lemma executeCheck_nothing_due (env : Monitor.Env) (now : Z) (w : World) :
  currentCheck (monitor w) = None ->
  findForCheck now (checkIntervalMinutes env) (products w) = [] ->
  executeCheck env now w
  = setMonitor (setStats (countCycle (stats (monitor w))) (monitor w)) w.
Proof.
  intros Hc Hdue. unfold executeCheck, executeCheckEnter. rewrite Hc.
  unfold executeCheckLeave, executeCheckTry. cbn [products setMonitor].
  rewrite Hdue. destruct w as [ps h s m l]. destruct m as [r c st ns].
  cbn in *. subst c. reflexivity.
Qed.

Lemma cycles_nothing_due (env : Monitor.Env) (w : World) (times : list Z) :
  currentCheck (monitor w) = None ->
  (forall t id p, In t times -> products w !! id = Some p ->
     dueForCheck t (checkIntervalMinutes env) p = false) ->
  products (cycles env times w) = products w /\
  history (cycles env times w) = history w /\
  log (cycles env times w) = log w /\
  Monitor.scraper (cycles env times w) = Monitor.scraper w /\
  totalChecks (stats (monitor (cycles env times w)))
    = (totalChecks (stats (monitor w)) + List.length times)%nat.
Proof.
  revert w. induction times as [|t times IH]; intros w Hc Hdue.
  - simpl. repeat split; auto.
  - unfold cycles. simpl fold_left. fold (cycles env times (executeCheck env t w)).
    assert (E : executeCheck env t w
                = setMonitor (setStats (countCycle (stats (monitor w))) (monitor w)) w).
    { apply executeCheck_nothing_due; [exact Hc|].
      apply findForCheck_none. intros id p Hp. apply (Hdue t id p); [now left | exact Hp]. }
    rewrite E.
    destruct (IH (setMonitor (setStats (countCycle (stats (monitor w))) (monitor w)) w))
      as (H1 & H2 & H3 & H4 & H5).
    + exact Hc.
    + intros t' id p Ht' Hp. apply (Hdue t' id p); [now right | exact Hp].
    + rewrite H1, H2, H3, H4, H5. cbn. repeat split; auto; try lia.
Qed.

(** X14.  A cycle that finds no product due does nothing but count
    itself: the store, the history, the scraper and the log are as
    before, and no maintenance runs.  So when every product of the store
    is inactive, or not due at any of the times at which the cycles run,
    no sequence of cycles changes the store: the maintenance that
    reactivates products is only reached by a cycle that found a product
    due. *)
Theorem idle_cycles_change_nothing (env : Monitor.Env) (w : World) (times : list Z) :
  currentCheck (monitor w) = None ->
  (forall id p, products w !! id = Some p ->
     is_active p = false \/
     forall t, In t times -> dueForCheck t (checkIntervalMinutes env) p = false) ->
  products (cycles env times w) = products w /\
  history (cycles env times w) = history w /\
  log (cycles env times w) = log w /\
  Monitor.scraper (cycles env times w) = Monitor.scraper w /\
  totalChecks (stats (monitor (cycles env times w)))
    = (totalChecks (stats (monitor w)) + List.length times)%nat.
Proof.
  intros Hc Hidle. apply cycles_nothing_due; [exact Hc|].
  intros t id p Ht Hp. destruct (Hidle id p Hp) as [Hina|Hnot].
  - unfold dueForCheck. now rewrite Hina.
  - now apply Hnot.
Qed.

(** The shop whose only product is inactive, through three cycles. *)
Lemma idle_cycles_change_nothing_witness :
  let w := startedWorld brokenShop in
  currentCheck (monitor w) = None /\
  products (cycles (monitorEnv deadNet) [100; 90000; 200000] w) = brokenShop.
Proof.
  intros w. assert (Hc : currentCheck (monitor w) = None) by reflexivity.
  split; [exact Hc|].
  refine (proj1 (idle_cycles_change_nothing (monitorEnv deadNet) w
                   [100; 90000; 200000] Hc _)).
  intros id p Hp. change (products w) with brokenShop in Hp.
  unfold brokenShop in Hp. apply lookup_singleton_Some in Hp as [_ <-].
  left. reflexivity.
Defined.

Lemma advance_refl (now : Z) (ps : gmap Z Product) : advance now ps ps.
Proof. intros id p Hp. exists p. auto. Qed.

Lemma advance_trans (now : Z) (ps1 ps2 ps3 : gmap Z Product) :
  advance now ps1 ps2 -> advance now ps2 ps3 -> advance now ps1 ps3.
Proof.
  intros H12 H23 id p Hp.
  destruct (H12 id p Hp) as (p2 & Hp2 & Hs2).
  destruct (H23 id p2 Hp2) as (p3 & Hp3 & Hs3).
  exists p3. auto.
Qed.

Lemma stamped_advance (now id : Z) (ps ps' : gmap Z Product) :
  stamped now id ps -> advance now ps ps' -> stamped now id ps'.
Proof.
  intros (p & Hp & Hs) Hadv. destruct (Hadv id p Hp) as (p' & Hp' & Hs').
  exists p'. auto.
Qed.

Lemma advance_insert (now id : Z) (ps : gmap Z Product) (q : Product) :
  last_checked q = Some now ->
  advance now ps (<[id := q]> ps) /\ stamped now id (<[id := q]> ps).
Proof.
  intros Hq. split.
  - intros id' p Hp. destruct (decide (id' = id)) as [->|Hne].
    + exists q. rewrite lookup_insert_eq. auto.
    + exists p. rewrite lookup_insert_ne by congruence. auto.
  - exists q. rewrite lookup_insert_eq. auto.
Qed.

Lemma checkProduct_advance (env : Monitor.Env) (now id : Z) (row : Product)
    (w : World) :
  is_Some (products w !! id) -> id <> 0 ->
  advance now (products w) (products (snd (checkProduct env now (id, row) w))) /\
  stamped now id (products (snd (checkProduct env now (id, row) w))).
Proof.
  intros [p Hp] Hid.
  destruct (checkProduct_store env now id row w p Hp Hid)
    as (r & w' & q & sr & E & _ & _ & Eps & Hl & _).
  rewrite E. cbn [snd]. rewrite Eps. now apply advance_insert.
Qed.

Lemma checkBatch_advance (env : Monitor.Env) (now : Z) (batch : list (Z * Product)) :
  forall w,
  (forall r, r ∈ batch -> fst r <> 0 /\ is_Some (products w !! fst r)) ->
  advance now (products w) (products (snd (checkBatch env now batch w))) /\
  (forall r, r ∈ batch ->
     stamped now (fst r) (products (snd (checkBatch env now batch w)))).
Proof.
  induction batch as [|[id row] batch IH]; intros w Hin.
  - split; [apply advance_refl|]. intros r Hr. inversion Hr.
  - cbn [checkBatch].
    destruct (Hin (id, row)) as [Hid Hs]; [left|]. cbn [fst] in Hid, Hs.
    destruct (checkProduct_advance env now id row w Hs Hid) as [Ha Hst].
    destruct (checkProduct env now (id, row) w) as [r w1]. cbn [snd] in Ha, Hst.
    destruct (IH w1) as [Ha' Hst'].
    { intros r' Hr'. destruct (Hin r') as [Hid' [p' Hp']]; [now right|].
      split; [exact Hid'|]. destruct (Ha _ _ Hp') as (q & Hq & _). eauto. }
    destruct (checkBatch env now batch w1) as [rs w2]. cbn [snd] in *.
    split; [eapply advance_trans; eassumption|].
    intros r' Hr'. apply elem_of_cons in Hr' as [->|Hr'].
    + cbn [fst]. eapply stamped_advance; eassumption.
    + now apply Hst'.
Qed.

Lemma runBatches_advance (env : Monitor.Env) (now : Z)
    (batches : list (list (Z * Product))) :
  forall w c,
  currentCheck (monitor w) = Some c ->
  (forall r, r ∈ concat batches -> fst r <> 0 /\ is_Some (products w !! fst r)) ->
  advance now (products w) (products (snd (runBatches env now batches w))) /\
  (forall r, r ∈ concat batches ->
     stamped now (fst r) (products (snd (runBatches env now batches w)))).
Proof.
  induction batches as [|batch batches IH]; intros w c Hc Hin.
  - split; [apply advance_refl|]. intros r Hr. inversion Hr.
  - cbn [runBatches].
    pose proof (checkBatch_quiet env now batch w) as [_ (_ & Hcur & _)].
    destruct (checkBatch_advance env now batch w) as [Ha Hst].
    { intros r Hr. apply Hin. simpl. apply elem_of_app. now left. }
    destruct (checkBatch env now batch w) as [rs w1]. cbn [fst snd] in *.
    unfold pushResults. rewrite Hcur, Hc.
    set (w2 := setMonitor _ w1).
    assert (Hc2 : currentCheck (monitor w2)
              = Some {| checkProducts := checkProducts c; results := results c ++ rs |})
      by reflexivity.
    assert (Hin2 : forall r, r ∈ concat batches ->
              fst r <> 0 /\ is_Some (products w1 !! fst r)).
    { intros r Hr. destruct (Hin r) as [Hid [p Hp]].
      { simpl. apply elem_of_app. now right. }
      split; [exact Hid|]. destruct (Ha _ _ Hp) as (q & Hq & _). eauto. }
    assert (Hgoal : forall w3, products w3 = products w1 ->
              currentCheck (monitor w3) = currentCheck (monitor w2) ->
              advance now (products w) (products (snd (runBatches env now batches w3))) /\
              (forall r, r ∈ concat (batch :: batches) ->
                 stamped now (fst r) (products (snd (runBatches env now batches w3))))).
    { intros w3 Hps Hc3. rewrite Hc2 in Hc3.
      destruct (IH w3 _ Hc3) as [Ha' Hst'].
      { rewrite Hps. exact Hin2. }
      rewrite Hps in Ha'.
      split; [eapply advance_trans; eassumption|].
      intros r Hr. simpl in Hr. apply elem_of_app in Hr as [Hr|Hr].
      - eapply stamped_advance; [now apply Hst | exact Ha'].
      - now apply Hst'. }
    destruct batches as [|b2 batches].
    + apply Hgoal; reflexivity.
    + apply Hgoal; reflexivity.
Qed.

Lemma performMaintenance_advance (now : Z) (w : World) :
  advance now (products w) (products (performMaintenance now w)).
Proof.
  rewrite (proj1 (performMaintenance_store now w)).
  intros id p Hp. rewrite lookup_fmap, Hp. cbn.
  eexists. split; [reflexivity|].
  destruct (staleErrored now p); [|auto]. destruct p; auto.
Qed.

Lemma processCheckResults_advance (now : Z) (w : World) :
  advance now (products w) (products (processCheckResults now w)).
Proof.
  unfold processCheckResults.
  destruct (currentCheck (monitor w)) as [c|]; [|apply advance_refl].
  destruct (5 <=? notificationCount (cycleStats (results c)))%nat;
    match goal with |- context [if ?b then _ else _] => destruct b end;
    try apply advance_refl;
    match goal with |- context [performMaintenance now ?w0] =>
      apply (performMaintenance_advance now w0) end.
Qed.

(** X15.  A cycle started on an idle monitor checks every product that
    the due-for-check query returns: whether its check succeeded or
    failed, the product carries the time of the cycle as [last_checked]
    afterwards (the keys that the store assigns are not zero).  The cycle
    loses no product of the store, and a product that it has stamped is
    not returned by the query at the same time again. *)
Theorem executeCheck_stamps_due_products (env : Monitor.Env) (now : Z) (w : World) :
  currentCheck (monitor w) = None ->
  products w !! 0 = None ->
  let due := findForCheck now (checkIntervalMinutes env) (products w) in
  let after := products (executeCheck env now w) in
  (forall id row, (id, row) ∈ due -> stamped now id after) /\
  (forall id, is_Some (products w !! id) -> is_Some (after !! id)) /\
  (forall id row row', (id, row) ∈ due ->
     (id, row') ∉ findForCheck now (checkIntervalMinutes env) after).
Proof.
  intros Hc H0 due after.
  assert (Hcore : advance now (products w) after /\
                  forall id row, (id, row) ∈ due -> stamped now id after).
  { subst after. unfold executeCheck, executeCheckEnter. rewrite Hc.
    unfold executeCheckLeave, executeCheckTry. cbn [products setMonitor].
    fold due.
    assert (Hdue : forall r, r ∈ due -> fst r <> 0 /\ is_Some (products w !! fst r)).
    { intros [id row] Hr. apply findForCheck_elem in Hr as [Hp _]. cbn [fst].
      split; [intros ->; congruence | eauto]. }
    destruct due as [|r0 due'] eqn:Edue.
    - cbn. split; [apply advance_refl|]. intros id row Hr. inversion Hr.
    - rewrite <- Edue in *. unfold setCheckProducts. cbn [currentCheck monitor setMonitor setCurrentCheck].
      set (w1 := setMonitor _ (setMonitor _ w)).
      assert (Hc1 : currentCheck (monitor w1)
                = Some {| checkProducts := due; results := [] |}) by reflexivity.
      assert (Hcat : concat (Scraper.chunkLoop (List.length due) 5 due) = due)
        by (apply chunkLoop_concat; lia).
      destruct (runBatches_advance env now
                  (Scraper.chunkLoop (List.length due) 5 due) w1 _ Hc1) as [Ha Hst].
      { rewrite Hcat. exact Hdue. }
      rewrite Hcat in Hst.
      destruct (runBatches_spec env now
                  (Scraper.chunkLoop (List.length due) 5 due) w1 _ Hc1)
        as (rs & w' & E & _).
      rewrite E in *. cbn [snd products setMonitor] in *.
      change (products w1) with (products w) in Ha.
      pose proof (processCheckResults_advance now w') as Hp.
      split; [eapply advance_trans; eassumption|].
      intros id row Hr. eapply stamped_advance; [exact (Hst _ Hr) | exact Hp]. }
  destruct Hcore as [Hadv Hst]. split; [exact Hst|]. split.
  - intros id [p Hp]. destruct (Hadv id p Hp) as (q & Hq & _). eauto.
  - intros id row row' Hr Hr'.
    destruct (Hst id row Hr) as (q & Hq & Hs).
    apply findForCheck_elem in Hr' as [Hq' Hd].
    rewrite Hq in Hq'. injection Hq' as <-.
    unfold dueForCheck in Hd. rewrite Hs in Hd.
    apply andb_true_iff in Hd as [Hd _]. apply andb_true_iff in Hd as [_ Hd].
    apply Z.ltb_lt in Hd. lia.
Qed.

(** The notebook of the shop on a dead network. *)
Lemma executeCheck_stamps_due_products_witness :
  let w := startedWorld shop in
  currentCheck (monitor w) = None /\ products w !! 0 = None /\
  stamped 1000 1 (products (executeCheck (monitorEnv deadNet) 1000 w)).
Proof.
  intros w. assert (Hc : currentCheck (monitor w) = None) by reflexivity.
  assert (H0 : products w !! 0 = None) by reflexivity.
  split; [exact Hc|]. split; [exact H0|].
  refine (proj1 (executeCheck_stamps_due_products (monitorEnv deadNet) 1000 w Hc H0)
            1 notebook _).
  vm_compute. left.
Defined.

(* ================================================================== *)
(** * Creation, removal and reactivation of products *)
(* ================================================================== *)

Import ManualNotions.

Lemma urlTaken_spec (u : jsstring) (products : gmap Z Product) :
  ProductOps.urlTaken u products = true <->
  exists id p, products !! id = Some p /\ Db.url p = u.
Proof.
  unfold ProductOps.urlTaken. rewrite existsb_exists. split.
  - intros ([id p] & Hin & Hu). apply list_elem_of_In, elem_of_map_to_list in Hin.
    apply bool_decide_eq_true in Hu. eauto.
  - intros (id & p & Hp & Hu). exists (id, p). split.
    + apply list_elem_of_In, elem_of_map_to_list. exact Hp.
    + apply bool_decide_eq_true. exact Hu.
Qed.

Lemma urlTaken_false (u : jsstring) (products : gmap Z Product) :
  (forall id p, products !! id = Some p -> Db.url p <> u) ->
  ProductOps.urlTaken u products = false.
Proof.
  intros H. destruct (ProductOps.urlTaken u products) eqn:E; [|reflexivity].
  apply urlTaken_spec in E as (id & p & Hp & Hu). now destruct (H id p Hp).
Qed.

(** X16.  [Product.create] with its required fields, an address that no
    row has and a fresh key adds one row and changes no other: the row
    is active, its counters are 0, its threshold is the one given
    ([NULL] when none is given, not the default of the configuration)
    and it is stamped with the time of the creation.  So the new product
    is in no result of the due-for-check query until a whole interval
    has passed, and it is due afterwards.  Without a required field (a
    target price of 0 counts as missing) it throws and adds nothing. *)
Theorem create_first_check (now rowid : Z) (data : ProductOps.ProductData)
    (products : gmap Z Product) :
  products !! rowid = None ->
  (forall id p, products !! id = Some p ->
     Db.url p <> default [] (ProductOps.url data)) ->
  (ProductOps.complete data = false ->
     ProductOps.create now rowid data products
     = (Throw ProductOps.requiredMessage, products)) /\
  (ProductOps.complete data = true ->
     exists row,
       ProductOps.create now rowid data products
       = (Ok rowid, <[rowid := row]> products) /\
       is_active row = true /\ error_count row = Some 0 /\ check_count row = Some 0 /\
       promotion_threshold row = ProductOps.promotionThreshold data /\
       target_price row = ProductOps.targetPrice data /\
       (forall id, id <> rowid -> (<[rowid := row]> products) !! id = products !! id) /\
       (forall t interval row',
          t - 60 * Z.of_nat interval <= now ->
          (rowid, row') ∉ findForCheck t interval (<[rowid := row]> products)) /\
       (forall t interval,
          now < t - 60 * Z.of_nat interval -> dueForCheck t interval row = true)).
Proof.
  intros Hfresh Hurl. unfold ProductOps.create. split.
  - intros ->. reflexivity.
  - intros ->. cbn [negb]. rewrite (urlTaken_false _ _ Hurl).
    exists (ProductOps.newRow now data). split; [reflexivity|].
    repeat split.
    + intros id Hne. now apply lookup_insert_ne.
    + intros t interval row' Ht Hin.
      apply findForCheck_elem in Hin as [Hrow Hdue].
      rewrite lookup_insert_eq in Hrow. injection Hrow as <-.
      unfold dueForCheck in Hdue. cbn in Hdue.
      apply andb_true_iff in Hdue as [Hdue _]. apply Z.ltb_lt in Hdue. lia.
    + intros t interval Ht. unfold dueForCheck. cbn.
      rewrite andb_true_r. apply Z.ltb_lt. lia.
Qed.

(** A second product registered in the shop. *)
Lemma create_first_check_witness :
  shop !! 2 = None /\
  fst (ProductOps.create 500 2 (registration (lit "https://loja.com/tv") 900) shop)
  = Ok 2.
Proof.
  assert (Hf : shop !! 2 = None) by reflexivity.
  assert (Hu : forall id p, shop !! id = Some p ->
            Db.url p <> default [] (ProductOps.url
                                      (registration (lit "https://loja.com/tv") 900))).
  { intros id p Hp. unfold shop in Hp. apply lookup_singleton_Some in Hp as [_ <-].
    vm_compute. discriminate. }
  split; [exact Hf|].
  destruct (proj2 (create_first_check 500 2
                     (registration (lit "https://loja.com/tv") 900) shop Hf Hu)
              eq_refl) as (row & E & _).
  now rewrite E.
Defined.

Lemma selected_Some (id : Z) (guild : option jsstring) (products : gmap Z Product)
    (p : Product) :
  ProductOps.selected id guild products = Some p -> products !! id = Some p.
Proof.
  unfold ProductOps.selected. destruct (products !! id) as [q|]; [|discriminate].
  destruct (ProductOps.truthyStr guild); [|auto].
  destruct (bool_decide _); [auto | discriminate].
Qed.

(** X17.  A deactivated product keeps its address: after
    [Product.deactivate] a registration of the same address is refused
    by the database, as it was before, while after [Product.delete] it
    is accepted when no other row has the address.  Both methods throw
    and change nothing when a guild is given (an empty text counts as
    none) and is not the product's. *)
Theorem deactivated_url_stays_taken (now rowid id : Z) (guild : option jsstring)
    (data : ProductOps.ProductData) (products : gmap Z Product) (p : Product) :
  products !! id = Some p ->
  ProductOps.complete data = true ->
  ProductOps.url data = Some (Db.url p) ->
  (forall id' p', products !! id' = Some p' -> id' <> id -> Db.url p' <> Db.url p) ->
  (ProductOps.truthyStr guild = true /\ guild <> Some (guild_id p) ->
     ProductOps.deactivate id guild products = (Throw ProductOps.deniedMessage, products) /\
     ProductOps.delete id guild products = (Throw ProductOps.deniedMessage, products)) /\
  (ProductOps.truthyStr guild = false \/ guild = Some (guild_id p) ->
     let off := snd (ProductOps.deactivate id guild products) in
     let gone := snd (ProductOps.delete id guild products) in
     off = <[id := assign (SetIsActive false) p]> products /\
     gone = base.delete id products /\
     ProductOps.create now rowid data off = (Throw ProductOps.uniqueMessage, off) /\
     ProductOps.create now rowid data gone
     = (Ok rowid, <[rowid := ProductOps.newRow now data]> gone)).
Proof.
  intros Hp Hc Hu Huniq. split.
  - intros [Hg Hne]. unfold ProductOps.deactivate, ProductOps.delete, ProductOps.selected.
    rewrite Hp, Hg. destruct guild as [g|]; [|discriminate]. cbn [default from_option Datatypes.id].
    rewrite bool_decide_eq_false_2; [split; reflexivity|]. congruence.
  - intros Hg.
    assert (Hsel : ProductOps.selected id guild products = Some p).
    { unfold ProductOps.selected. rewrite Hp. destruct Hg as [->| ->]; [reflexivity|].
      cbn [default from_option Datatypes.id]. rewrite bool_decide_eq_true_2 by reflexivity.
      now destruct (ProductOps.truthyStr _). }
    unfold ProductOps.deactivate, ProductOps.delete. rewrite Hsel. cbn [snd].
    split; [reflexivity|]. split; [reflexivity|].
    unfold ProductOps.create. rewrite Hc, Hu. cbn [negb default from_option Datatypes.id]. split.
    + replace (ProductOps.urlTaken _ _) with true; [reflexivity|].
      symmetry. apply urlTaken_spec. exists id, (assign (SetIsActive false) p).
      rewrite lookup_insert_eq. split; [reflexivity | now destruct p].
    + rewrite urlTaken_false; [reflexivity|].
      intros id' p' Hp'. apply lookup_delete_Some in Hp' as [Hne Hp'].
      apply (Huniq id' p' Hp'). congruence.
Qed.

(** The notebook of the shop, deactivated by its guild. *)
Lemma deactivated_url_stays_taken_witness :
  fst (ProductOps.create 500 2 (registration plainUrl 900)
         (snd (ProductOps.deactivate 1 (Some (lit "g")) shop)))
  = Throw ProductOps.uniqueMessage.
Proof.
  assert (Hp : shop !! 1 = Some notebook) by reflexivity.
  assert (Hu : forall id' p', shop !! id' = Some p' -> id' <> 1 ->
            Db.url p' <> Db.url notebook).
  { intros id' p' Hp' Hne. unfold shop in Hp'.
    apply lookup_singleton_Some in Hp' as [<- _]. congruence. }
  destruct (proj2 (deactivated_url_stays_taken 500 2 1 (Some (lit "g"))
                     (registration plainUrl 900) shop notebook Hp eq_refl eq_refl Hu)
              (or_intror eq_refl)) as (_ & _ & E & _).
  cbv zeta in E. now rewrite E.
Defined.

(** X18.  [Product.deactivate] writes [is_active] only: it leaves the
    count of errors and the time of the last check as they were.  So the
    maintenance reactivates a product that was deactivated by hand
    exactly when it had a count of errors above zero and a last check
    more than 24 hours old; any other deactivated product stays
    inactive through [reactivateErrorProducts]. *)
Theorem deactivate_undone_by_maintenance (now id : Z) (guild : option jsstring)
    (products : gmap Z Product) (p : Product) :
  ProductOps.selected id guild products = Some p ->
  let off := snd (ProductOps.deactivate id guild products) in
  let back := snd (reactivateErrorProducts now off) in
  (exists q, off !! id = Some q /\ is_active q = false /\
     error_count q = error_count p /\ last_checked q = last_checked p) /\
  (exists q, back !! id = Some q /\
     (is_active q = true <->
        (exists k, error_count p = Some k /\ 0 < k) /\
        (exists t, last_checked p = Some t /\ t < now - 24 * 3600))).
Proof.
  intros Hsel off back. subst off back.
  unfold ProductOps.deactivate. rewrite Hsel. cbn [snd]. split.
  - eexists. rewrite lookup_insert_eq. split; [reflexivity|]. now destruct p.
  - unfold reactivateErrorProducts. cbn [snd].
    rewrite lookup_fmap, lookup_insert_eq.
    assert (Hq : is_active (assign (SetIsActive false) p) = false /\
                 error_count (assign (SetIsActive false) p) = error_count p /\
                 last_checked (assign (SetIsActive false) p) = last_checked p)
      by now destruct p.
    destruct Hq as (Ha & He & Hl).
    set (q0 := assign (SetIsActive false) p) in *.
    exists (if staleErrored now q0 then reactivate q0 else q0).
    split; [reflexivity|].
    pose proof (staleErrored_iff now q0) as Hiff. rewrite He, Hl in Hiff.
    destruct (staleErrored now q0).
    + split; [intros _ | reflexivity]. now apply Hiff.
    + rewrite Ha. split; [discriminate|].
      intros [Hk Ht]. apply (proj2 Hiff). auto.
Qed.

(** The notebook after one failed check at time 0, deactivated by hand a
    week later. *)
Lemma deactivate_undone_by_maintenance_witness :
  exists q,
    snd (reactivateErrorProducts 700000
           (snd (ProductOps.deactivate 1 None
                   {[ 1 := afterFailure 0 None notebook ]}))) !! 1 = Some q /\
    is_active q = true.
Proof.
  assert (Hs : ProductOps.selected 1 None {[ 1 := afterFailure 0 None notebook ]}
               = Some (afterFailure 0 None notebook)) by reflexivity.
  destruct (deactivate_undone_by_maintenance 700000 1 None
              {[ 1 := afterFailure 0 None notebook ]} (afterFailure 0 None notebook)
              Hs) as (_ & q & Hq & Hiff).
  exists q. split; [exact Hq|]. apply Hiff. split.
  - exists 1. split; [reflexivity | lia].
  - exists 0. split; [reflexivity | lia].
Defined.

(* ================================================================== *)
(** * The manual check *)
(* ================================================================== *)

Import ManualCheck.

Lemma quietStep_calm (w w' : World) (n : nat) :
  quietStep w w' n -> calm w w'.
Proof.
  intros [(e & El & _ & Hs & Hm & Hb) _]. unfold calm.
  rewrite El, !count_app, Hs, Hm, Hb. lia.
Qed.

Lemma checkNotifications_sleeps (env : Monitor.Env) (row : Z * Product)
    (np : option Q) (u : PriceUpdate) (w : World) :
  sleeps (snd (checkNotifications env row np u w)) = sleeps w.
Proof.
  unfold checkNotifications, sleeps.
  destruct (chooseCall row np u) as [c|]; [|reflexivity].
  destruct (notificationService (monitor w)); [|reflexivity].
  cbn [snd log setMonitor emit]. rewrite count_app. cbn. lia.
Qed.

Lemma checkProduct_sleeps (env : Monitor.Env) (now : Z) (row : Z * Product) (w : World) :
  sleeps (snd (checkProduct env now row w)) = sleeps w.
Proof.
  unfold checkProduct, checkProductTry.
  destruct (Scraper.scrapePrice (senv env) (Db.url (snd row)) (Monitor.scraper w))
    as [[sd|m] s1].
  2: { destruct (incrementError _ _ _ _) as [[|] ps]; reflexivity. }
  destruct (negb (Scraper.success sd)).
  { destruct (incrementError now (fst row) (Scraper.error sd) _) as [[|m] ps]; simpl.
    - reflexivity.
    - destruct (incrementError _ _ _ _) as [[|] ps2]; reflexivity. }
  destruct (updatePrice now (fst row) (Scraper.price sd) _) as [[u|m] ps].
  2: { simpl. destruct (incrementError _ _ _ _) as [[|] ps2]; reflexivity. }
  destruct (historyAdd now (fst row) (Scraper.price sd) _ _) as [[|m] h].
  2: { simpl. destruct (incrementError _ _ _ _) as [[|] ps2]; reflexivity. }
  match goal with |- context [checkNotifications env ?a ?b ?c ?d] =>
    pose proof (checkNotifications_sleeps env a b c d) as Hq;
    destruct (checkNotifications env a b c d) as [notifs w4] end.
  cbn [fst snd] in Hq |- *. exact Hq.
Qed.

Lemma checkProduct_product (env : Monitor.Env) (now : Z) (row : Z * Product)
    (w w' : World) (r : CheckResult) :
  checkProduct env now row w = (Ok r, w') -> product r = row.
Proof.
  unfold checkProduct, checkProductTry.
  destruct (Scraper.scrapePrice (senv env) (Db.url (snd row)) (Monitor.scraper w))
    as [[sd|m] s1].
  2: { destruct (incrementError _ _ _ _) as [[|] ps]; intros [= <- _]; reflexivity
       || discriminate. }
  destruct (negb (Scraper.success sd)).
  { destruct (incrementError now (fst row) (Scraper.error sd) _) as [[|m] ps]; simpl.
    - now intros [= <- _].
    - destruct (incrementError _ _ _ _) as [[|] ps2]; [now intros [= <- _] | discriminate]. }
  destruct (updatePrice now (fst row) (Scraper.price sd) _) as [[u|m] ps].
  2: { simpl. destruct (incrementError _ _ _ _) as [[|] ps2];
         [now intros [= <- _] | discriminate]. }
  destruct (historyAdd now (fst row) (Scraper.price sd) _ _) as [[|m] h].
  2: { simpl. destruct (incrementError _ _ _ _) as [[|] ps2];
         [now intros [= <- _] | discriminate]. }
  destruct (checkNotifications env _ _ _ _) as [notifs w4].
  now intros [= <- _].
Qed.

Lemma calm_refl (w w' : World) : log w' = log w -> calm w w'.
Proof. intros E. unfold calm. now rewrite E. Qed.

Lemma calm_trans (w1 w2 w3 : World) : calm w1 w2 -> calm w2 w3 -> calm w1 w3.
Proof. unfold calm. intros (A & B & C) (A' & B' & C'). repeat split; congruence. Qed.

Lemma calm_slept (w : World) (ms : Z) : calm w (emit (Slept ms) w).
Proof. unfold calm. cbn [log emit]. rewrite !count_app. cbn. lia. Qed.

(** The loop of the manual check over rows of the store: it returns an
    outcome for every row, in order. *)
Lemma forceLoop_spec (env : Monitor.Env) (now : Z) (many : bool)
    (rows : list (Z * Product)) :
  forall w,
  (forall r, r ∈ rows -> fst r <> 0 /\ is_Some (products w !! fst r)) ->
  exists rs w',
    forceLoop env now many rows w = (Ok rs, w') /\
    List.map product rs = rows /\
    advance now (products w) (products w') /\
    (forall r, r ∈ rows -> stamped now (fst r) (products w')) /\
    (forall id, id ∉ List.map fst rows -> products w' !! id = products w !! id) /\
    sameCycle w w' /\ calm w w' /\
    sleeps w' = (sleeps w + (if many then List.length rows else 0))%nat.
Proof.
  induction rows as [|[id row] rows IH]; intros w Hin.
  - exists [], w. cbn. repeat split; auto using advance_refl; try lia.
    + intros r Hr. inversion Hr.
    + destruct many; lia.
  - cbn [forceLoop].
    destruct (Hin (id, row)) as [Hid [p Hp]]; [left|]. cbn [fst] in Hid, Hp.
    destruct (checkProduct_advance env now id row w (ex_intro _ p Hp) Hid) as [Ha Hst].
    pose proof (checkProduct_quiet env now (id, row) w) as Hq.
    pose proof (checkProduct_sleeps env now (id, row) w) as Hsl.
    destruct (checkProduct_store env now id row w p Hp Hid)
      as (r & w1 & q1 & sr & E & _ & _ & Eps & _).
    pose proof (checkProduct_product env now (id, row) w w1 r E) as Hprod.
    rewrite E in *. cbn [fst snd] in *.
    assert (Hother : forall id', id' <> id -> products w1 !! id' = products w !! id').
    { intros id' Hne. rewrite Eps. now apply lookup_insert_ne. }
    set (w2 := if many then emit (Slept 1000) w1 else w1).
    assert (Hps2 : products w2 = products w1) by (subst w2; now destruct many).
    assert (Hm2 : monitor w2 = monitor w1) by (subst w2; now destruct many).
    assert (Hc2 : calm w1 w2).
    { subst w2. destruct many; [apply calm_slept | now apply calm_refl]. }
    assert (Hs2 : sleeps w2 = (sleeps w1 + (if many then 1 else 0))%nat).
    { subst w2. destruct many; [|lia]. unfold sleeps. cbn [log emit].
      rewrite count_app. reflexivity. }
    destruct (IH w2) as (rs & w3 & E3 & Hmap & Ha3 & Hst3 & Hoth3 & Hcy3 & Hcalm3 & Hsl3).
    { intros r' Hr'. destruct (Hin r') as [Hid' [p' Hp']]; [now right|].
      split; [exact Hid'|]. rewrite Hps2.
      destruct (Ha _ _ Hp') as (q & Hq' & _). eauto. }
    rewrite E3. exists (r :: rs), w3. split; [reflexivity|].
    rewrite Hps2 in Ha3.
    split; [cbn; now rewrite Hprod, Hmap|].
    split; [eapply advance_trans; eassumption|].
    split.
    { intros r' Hr'. apply elem_of_cons in Hr' as [->|Hr'].
      - cbn [fst]. eapply stamped_advance; eassumption.
      - now apply Hst3. }
    split.
    { intros id' Hni. cbn in Hni. apply not_elem_of_cons in Hni as [Hne Hni].
      rewrite (Hoth3 id' Hni), Hps2. now apply Hother. }
    split.
    { destruct Hq as [_ (T1 & C1 & N1)]. destruct Hcy3 as (T3 & C3 & N3).
      rewrite Hm2 in T3, C3, N3. unfold sameCycle. repeat split; congruence. }
    split.
    { eapply calm_trans; [|exact Hcalm3].
      eapply calm_trans; [eapply quietStep_calm; exact Hq | exact Hc2]. }
    rewrite Hsl3, Hs2, Hsl. cbn [List.length]. destruct many; lia.
Qed.



Lemma findActive_elem (products : gmap Z Product) (id : Z) (p : Product) :
  (id, p) ∈ ProductOps.findActive products <->
  products !! id = Some p /\ is_active p = true.
Proof.
  unfold ProductOps.findActive. rewrite merge_sort_Permutation.
  rewrite list_elem_of_In, filter_In, <- list_elem_of_In, elem_of_map_to_list.
  reflexivity.
Qed.

(** X20.  [forceCheck] without a key checks every active product of the
    store once, whether it is due or not, and no inactive one: it
    returns one outcome per active product, in the order in which
    [findActive] lists them, the counts of the successful and of the
    failed ones add up to the total, every active product is stamped and every inactive one
    is left as it was.  With more than one product it awaits a delay
    after each check, the last one included; it runs no maintenance and
    does not count as a cycle. *)
Theorem forceCheck_all_active (env : Monitor.Env) (now : Z) (w : World) :
  products w !! 0 = None ->
  let rows := ProductOps.findActive (products w) in
  exists s w',
    forceCheck env now None w = (Ok s, w') /\
    List.map product (results s) = rows /\
    total s = List.length rows /\
    (successful s + failed s = total s)%nat /\
    (forall id p, products w !! id = Some p -> is_active p = true ->
       stamped now id (products w')) /\
    (forall id p, products w !! id = Some p -> is_active p = false ->
       products w' !! id = Some p) /\
    sleeps w'
    = (sleeps w + (if (1 <? List.length rows)%nat then List.length rows else 0))%nat /\
    calm w w' /\
    totalChecks (stats (monitor w')) = totalChecks (stats (monitor w)).
Proof.
  intros H0 rows. unfold forceCheck. fold rows.
  destruct (forceLoop_spec env now (1 <? List.length rows)%nat rows w)
    as (rs & w' & E & Hmap & Ha & Hst & Hoth & (T & _) & Hcalm & Hsl).
  { intros [id p] Hr. apply findActive_elem in Hr as [Hp _]. cbn [fst].
    split; [intros ->; congruence | eauto]. }
  rewrite E. exists (summarize rs), w'. split; [reflexivity|].
  assert (Hlen : List.length rs = List.length rows)
    by (rewrite <- Hmap; now rewrite length_map).
  split; [exact Hmap|]. split; [exact Hlen|].
  split.
  { cbn. pose proof (filter_split_length success rs) as Hf. 
    assert (List.length (List.filter success rs) <= List.length rs)%nat; [|lia].
    clear. induction rs as [|r rs IH]; cbn; [lia|]. destruct (success r); cbn; lia. }
  split.
  { intros id p Hp Hact. apply (Hst (id, p)). apply findActive_elem. auto. }
  split.
  { intros id p Hp Hina. rewrite Hoth; [exact Hp|].
    intros Hin. apply list_elem_of_fmap in Hin as ([id' p'] & Heq & Hin).
    cbn in Heq. subst id'. apply findActive_elem in Hin as [Hp' Hact].
    congruence. }
  split; [exact Hsl|]. split; [exact Hcalm | exact T].
Qed.

(** The shop, checked by hand on a dead network. *)
Lemma forceCheck_all_active_witness :
  products (startedWorld shop) !! 0 = None /\
  exists s w',
    forceCheck (monitorEnv deadNet) 1000 None (startedWorld shop) = (Ok s, w') /\
    total s = 1%nat.
Proof.
  assert (H0 : products (startedWorld shop) !! 0 = None) by reflexivity.
  split; [exact H0|].
  destruct (forceCheck_all_active (monitorEnv deadNet) 1000 (startedWorld shop) H0)
    as (s & w' & E & _ & Ht & _).
  exists s, w'. split; [exact E|]. rewrite Ht. vm_compute. reflexivity.
Defined.

(** X21.  [resetStats] sets the count of cycles to 0 and leaves the
    store, the history and the guard as they are.  As the maintenance is
    decided on that count, the first cycle after it that finds a product
    due runs the maintenance and requests a backup, however few cycles
    ran since the last ones. *)
Theorem resetStats_rearms_maintenance (env : Monitor.Env) (now : Z) (w : World) :
  currentCheck (monitor w) = None ->
  findForCheck now (checkIntervalMinutes env) (products w) <> [] ->
  products (resetStats w) = products w /\
  history (resetStats w) = history w /\
  exists effs,
    log (executeCheck env now (resetStats w)) = log w ++ effs /\
    count isMaintenance effs = 1%nat /\ count isBackup effs = 1%nat /\
    totalChecks (stats (monitor (executeCheck env now (resetStats w)))) = 1%nat.
Proof.
  intros Hc Hdue. split; [reflexivity|]. split; [reflexivity|].
  destruct (executeCheck_effects env now (resetStats w)) as (Ht & _ & effs & El & _ & Hm & Hb).
  { exact Hc. }
  exists effs. split; [exact El|].
  change (products (resetStats w)) with (products w) in Hm, Hb.
  change (totalChecks (stats (monitor (resetStats w)))) with 0%nat in Hm, Hb, Ht.
  destruct (findForCheck now (checkIntervalMinutes env) (products w));
    [contradiction|].
  repeat split; assumption.
Qed.

(** The shop after 37 cycles, reset. *)
Lemma resetStats_rearms_maintenance_witness :
  let w := worldAfter 37 shop in
  currentCheck (monitor w) = None /\
  exists effs,
    log (executeCheck (monitorEnv deadNet) 100000 (resetStats w)) = log w ++ effs /\
    count isMaintenance effs = 1%nat.
Proof.
  intros w. assert (Hc : currentCheck (monitor w) = None) by reflexivity.
  split; [exact Hc|].
  destruct (resetStats_rearms_maintenance (monitorEnv deadNet) 100000 w Hc)
    as (_ & _ & effs & El & Hm & _).
  { vm_compute. discriminate. }
  exists effs. split; [exact El | exact Hm].
Defined.

(* ================================================================== *)
(** * The notification service *)
(* ================================================================== *)

Import Notifier NotifierNotions.

Lemma chooseCall_product (row : Z * Product) (np : option Q) (u : PriceUpdate)
    (call : Monitor.NotifierCall) :
  chooseCall row np u = Some call -> Monitor.callProduct call = row.
Proof.
  unfold chooseCall.
  destruct (targetReached _ _ _); [now intros [= <-]|].
  destruct (significantDrop _ _); [now intros [= <-]|].
  destruct (significantIncrease _ _); [now intros [= <-] | discriminate].
Qed.

(** X22.  What the monitor learns from the service.  The three
    notification methods return [sent: true] exactly when the numbers
    they print are there and the embed is built, also when the
    notification is then withheld by its cooldown: the service is left
    as it was and nothing is sent.  They return [sent: false], changing
    nothing, otherwise.  As every method prints the target price, no
    rule of the monitor notifies for a product that has none: whatever
    call [checkNotifications] chooses for it, the answer is
    [sent: false] and nothing is queued. *)
Theorem send_outcome {Payload : Type} (env : Notifier.Env Payload) (now : Z)
    (call : Monitor.NotifierCall) (st : Notifier.State Payload) :
  (fst (send env now call st) = true <->
     printable call = true /\ exists body, embed env call = Ok body) /\
  (fst (send env now call st) = false -> snd (send env now call st) = st) /\
  (forall body,
     printable call = true -> embed env call = Ok body ->
     inCooldown env now
       {| type := typeName (Monitor.kind call);
          productId := fst (Monitor.callProduct call); payload := body |} st = true ->
     send env now call st = (true, st)) /\
  (forall row np u,
     target_price (snd row) = None -> chooseCall row np u = Some call ->
     send env now call st = (false, st)).
Proof.
  unfold send. repeat split.
  - destruct (printable call); [|discriminate].
    destruct (embed env call) as [body|m]; [eauto | discriminate].
  - destruct (printable call); [|discriminate].
    destruct (embed env call) as [body|m]; [eauto | discriminate].
  - intros [-> (body & ->)]. reflexivity.
  - destruct (printable call); [|reflexivity].
    destruct (embed env call) as [body|m]; [discriminate | reflexivity].
  - intros body -> -> Hc. unfold queueNotification. now rewrite Hc.
  - intros row np u Ht Hcall. apply chooseCall_product in Hcall.
    unfold printable. rewrite Hcall, Ht.
    rewrite (bool_decide_eq_false_2 (is_Some None)) by (intros [x Hx]; discriminate).
    now rewrite andb_false_r.
Qed.

Lemma processNotificationQueue_cooldowns {Payload : Type} (env : Notifier.Env Payload)
    (st : Notifier.State Payload) :
  notificationCooldowns (processNotificationQueue env st) = notificationCooldowns st.
Proof.
  unfold processNotificationQueue.
  destruct (isProcessingQueue st || _); reflexivity.
Qed.

Lemma queueNotification_cooldown {Payload : Type} (env : Notifier.Env Payload)
    (now : Z) (d : NotificationData Payload) (st : Notifier.State Payload) :
  inCooldown env now d st = false ->
  notificationCooldowns (queueNotification env now d st)
  = <[cooldownKey d := now]> (notificationCooldowns st).
Proof.
  intros Hc. unfold queueNotification. rewrite Hc. cbn [isProcessingQueue].
  destruct (isProcessingQueue st); [reflexivity|].
  now rewrite processNotificationQueue_cooldowns.
Qed.

(** X23.  A notification that [queueNotification] accepts at time [now]
    closes its key for the whole cooldown, whether its message is then
    sent or lost: a later notification of the same product and type is
    dropped, leaving the service as it is, as long as less than the
    cooldown has passed since [now], and is accepted again from then on.
    In particular a message whose sending threw is not tried again
    within the cooldown. *)
Theorem lost_notification_not_retried {Payload : Type} (env : Notifier.Env Payload)
    (now : Z) (d : NotificationData Payload) (st : Notifier.State Payload) :
  inCooldown env now d st = false ->
  let st' := queueNotification env now d st in
  (forall t d', cooldownKey d' = cooldownKey d -> t - now < cooldownTime env ->
     queueNotification env t d' st' = st') /\
  (forall t d', cooldownKey d' = cooldownKey d -> cooldownTime env <= t - now ->
     inCooldown env t d' st' = false) /\
  (atRest st -> deliver env (attempts (outbox st)) d = false ->
     outbox st' = outbox st ++ [Lost d] /\ atRest st').
Proof.
  intros Hc st'.
  assert (Hk : notificationCooldowns st' !! cooldownKey d = Some now).
  { subst st'. rewrite queueNotification_cooldown by exact Hc.
    apply lookup_insert_eq. }
  split; [|split].
  - intros t d' Hkey Ht. unfold queueNotification at 1, inCooldown.
    rewrite Hkey, Hk.
    replace (t - now <? cooldownTime env) with true; [reflexivity|].
    symmetry. apply Z.ltb_lt. exact Ht.
  - intros t d' Hkey Ht. unfold inCooldown. rewrite Hkey, Hk.
    apply Z.ltb_ge. exact Ht.
  - intros [Hq Hp] Hd. subst st'. unfold queueNotification. rewrite Hc.
    cbn [isProcessingQueue]. rewrite Hp.
    unfold processNotificationQueue. cbn [isProcessingQueue notificationQueue outbox].
    rewrite Hq. cbn [app orb drain]. rewrite Hd.
    split; [reflexivity | split; reflexivity].
Qed.

(** An alert on a service whose client is not configured: it is lost,
    and the same alert a minute later is dropped. *)
Lemma lost_notification_not_retried_witness :
  let st' := queueNotification muteEnv 0 (alert 1) fresh in
  inCooldown muteEnv 0 (alert 1) fresh = false /\
  queueNotification muteEnv 60000 (alert 1) st' = st' /\
  outbox st' = [Lost (alert 1)].
Proof.
  intros st'.
  assert (Hc : inCooldown muteEnv 0 (alert 1) fresh = false) by reflexivity.
  destruct (lost_notification_not_retried muteEnv 0 (alert 1) fresh Hc)
    as (Hdrop & _ & Hlost).
  split; [exact Hc|]. split.
  - apply Hdrop; [reflexivity|]. vm_compute. reflexivity.
  - apply Hlost; [split; reflexivity | reflexivity].
Defined.

Lemma tried_app {Payload : Type} (a b : list (Notifier.Effect Payload)) :
  tried (a ++ b) = tried a ++ tried b.
Proof. unfold tried. apply omap_app. Qed.

Lemma filter_length_app {A} (f : A -> bool) (a b : list A) :
  List.length (List.filter f (a ++ b))
  = (List.length (List.filter f a) + List.length (List.filter f b))%nat.
Proof. now rewrite List.filter_app, length_app. Qed.

(** The loop of the queue: what it adds to the outbox. *)
Lemma drain_spec {Payload : Type} (env : Notifier.Env Payload)
    (queue : list (NotificationData Payload)) :
  forall out,
  exists e,
    drain env queue out = out ++ e /\
    tried e = queue /\
    Forall (fun x => isDelay x = true -> x = Delay 2000) e /\
    List.length (List.filter isDelay e)
    = List.length (List.filter isDelivered (removelast e)) /\
    (forall x, last e = Some x -> isDelay x = false).
Proof.
  induction queue as [|d queue IH]; intros out.
  - exists []. cbn. rewrite app_nil_r. repeat split; [constructor | discriminate].
  - cbn [drain]. destruct (deliver env (attempts out) d).
    + destruct queue as [|d2 queue].
      * exists [Delivered d]. cbn. repeat split.
        -- constructor; [discriminate | constructor].
        -- now intros x [= <-].
      * destruct (IH (out ++ [Delivered d; Delay 2000]))
          as (e & E & Ht & Hf & Hn & Hl).
        exists ([Delivered d; Delay 2000] ++ e). rewrite E, <- app_assoc.
        split; [reflexivity|].
        assert (Hne : e <> []) by (intros ->; discriminate).
        split; [rewrite tried_app, Ht; reflexivity|].
        split; [repeat constructor; [discriminate | exact Hf]|].
        split.
        -- rewrite removelast_app by exact Hne.
           rewrite !filter_length_app, Hn. reflexivity.
        -- intros x Hx. apply Hl. rewrite last_app in Hx.
           destruct (last e) eqn:El; [exact Hx|].
           apply last_None in El. contradiction.
    + destruct queue as [|d2 queue].
      * exists [Lost d]. cbn. repeat split.
        -- constructor; [discriminate | constructor].
        -- now intros x [= <-].
      * destruct (IH (out ++ [Lost d])) as (e & E & Ht & Hf & Hn & Hl).
        exists ([Lost d] ++ e). rewrite E, <- app_assoc.
        split; [reflexivity|].
        split; [rewrite tried_app, Ht; reflexivity|].
        split; [constructor; [discriminate | exact Hf]|].
        assert (Hne : e <> []) by (intros ->; discriminate).
        split.
        -- rewrite removelast_app by exact Hne.
           rewrite !filter_length_app, Hn. reflexivity.
        -- intros x Hx. apply Hl. rewrite last_app in Hx.
           destruct (last e) eqn:El; [exact Hx|].
           apply last_None in El. contradiction.
Qed.

(** X24.  [processNotificationQueue], started while no loop runs, empties
    the queue and leaves the cooldowns as they are: every queued
    notification is tried once, in the order of the queue, whether an
    earlier one was lost or not.  Every delay is of two seconds, there
    is one delay for every message that was sent other than the last
    one tried, and the loop does not end on a delay.  Started while a
    loop runs, it does nothing. *)
Theorem processNotificationQueue_drains {Payload : Type} (env : Notifier.Env Payload)
    (st : Notifier.State Payload) :
  (isProcessingQueue st = true -> processNotificationQueue env st = st) /\
  (isProcessingQueue st = false ->
     let st' := processNotificationQueue env st in
     atRest st' /\
     notificationCooldowns st' = notificationCooldowns st /\
     exists e,
       outbox st' = outbox st ++ e /\
       tried e = notificationQueue st /\
       Forall (fun x => isDelay x = true -> x = Delay 2000) e /\
       List.length (List.filter isDelay e)
       = List.length (List.filter isDelivered (removelast e)) /\
       (forall x, last e = Some x -> isDelay x = false)).
Proof.
  split.
  - intros Hp. unfold processNotificationQueue. now rewrite Hp.
  - intros Hp st'. subst st'. unfold processNotificationQueue. rewrite Hp.
    cbn [orb]. destruct (notificationQueue st) as [|d q] eqn:Eq.
    + split; [split; assumption|]. split; [reflexivity|].
      exists []. rewrite app_nil_r. cbn.
      repeat split; [constructor | discriminate].
    + cbn [atRest notificationQueue isProcessingQueue notificationCooldowns outbox].
      split; [split; reflexivity|]. split; [reflexivity|].
      apply drain_spec.
Qed.

(** Two alerts queued on a service whose client is not configured. *)
Lemma processNotificationQueue_drains_witness :
  let st := {| notificationCooldowns := ∅; notificationQueue := [alert 1; alert 2];
               isProcessingQueue := false; outbox := [] |} in
  isProcessingQueue st = false /\
  atRest (processNotificationQueue muteEnv st).
Proof.
  intros st. assert (Hp : isProcessingQueue st = false) by reflexivity.
  split; [exact Hp|].
  exact (proj1 (proj2 (processNotificationQueue_drains muteEnv st) Hp)).
Defined.

Lemma inCooldown_cleanup {Payload : Type} (env : Notifier.Env Payload)
    (now t : Z) (d : NotificationData Payload) (st : Notifier.State Payload) :
  now <= t ->
  inCooldown env t d (cleanupCooldowns env now st) = inCooldown env t d st.
Proof.
  intros Ht. unfold inCooldown, cleanupCooldowns. cbn [notificationCooldowns].
  destruct (notificationCooldowns st !! cooldownKey d) as [ts|] eqn:E.
  - destruct (decide (now - ts > cooldownTime env)) as [Hold|Hnew].
    + rewrite (proj2 (map_lookup_filter_None _ _ _)).
      * symmetry. apply Z.ltb_ge. lia.
      * right. intros x Hx. rewrite E in Hx. injection Hx as <-. cbn. tauto.
    + rewrite (map_lookup_filter_Some_2 _ _ _ ts E); [reflexivity|]. exact Hnew.
  - rewrite (proj2 (map_lookup_filter_None _ _ _)); [reflexivity|]. now left.
Qed.

(** X25.  [cleanupCooldowns] deletes only cooldowns that are over: at any
    later time, a notification is withheld after the cleanup exactly
    when it would have been withheld without it, and queueing it gives
    the same outbox, the same queue and the same flag; the cooldowns
    kept are among the ones of the service that was not cleaned. *)
Theorem cleanupCooldowns_transparent {Payload : Type} (env : Notifier.Env Payload)
    (now t : Z) (d : NotificationData Payload) (st : Notifier.State Payload) :
  now <= t ->
  let cleaned := queueNotification env t d (cleanupCooldowns env now st) in
  let plain := queueNotification env t d st in
  inCooldown env t d (cleanupCooldowns env now st) = inCooldown env t d st /\
  outbox cleaned = outbox plain /\
  notificationQueue cleaned = notificationQueue plain /\
  isProcessingQueue cleaned = isProcessingQueue plain /\
  notificationCooldowns cleaned ⊆ notificationCooldowns plain.
Proof.
  intros Ht cleaned plain.
  pose proof (inCooldown_cleanup env now t d st Ht) as Hc.
  split; [exact Hc|].
  subst cleaned plain. unfold queueNotification. rewrite Hc.
  destruct (inCooldown env t d st).
  - cbn. repeat split. apply map_filter_subseteq.
  - cbn [isProcessingQueue cleanupCooldowns notificationQueue outbox
         notificationCooldowns].
    destruct (isProcessingQueue st) eqn:Hp.
    + cbn. repeat split. apply insert_mono, map_filter_subseteq.
    + unfold processNotificationQueue.
      cbn [isProcessingQueue notificationQueue outbox notificationCooldowns orb].
      destruct (notificationQueue st ++ [d]); cbn; repeat split;
        apply insert_mono, map_filter_subseteq.
Qed.

(** The alert of the lost notification, queued an hour later with and
    without a cleanup in between. *)
Lemma cleanupCooldowns_transparent_witness :
  let st := queueNotification muteEnv 0 (alert 1) fresh in
  2000000 <= 3600000 /\
  outbox (queueNotification muteEnv 3600000 (alert 1) (cleanupCooldowns muteEnv 2000000 st))
  = outbox (queueNotification muteEnv 3600000 (alert 1) st).
Proof.
  intros st. assert (Ht : 2000000 <= 3600000) by lia.
  split; [exact Ht|].
  exact (proj1 (proj2 (cleanupCooldowns_transparent muteEnv 2000000 3600000
                         (alert 1) st Ht))).
Defined.

(* ================================================================== *)
(** * The supported sites *)
(* ================================================================== *)

Lemma split_nonempty (sep : char) (s : jsstring) : Sites.split sep s <> [].
Proof.
  destruct s as [|c s]; [discriminate|]. unfold Sites.split. cbn [fold_right].
  destruct (char_eqb c sep); [discriminate|].
  destruct (fold_right _ _ s); discriminate.
Qed.

Lemma split_app (sep : char) (a b : jsstring) :
  Sites.split sep (a ++ sep :: b) = Sites.split sep a ++ Sites.split sep b.
Proof.
  induction a as [|c a IH].
  - unfold Sites.split. cbn [app fold_right]. unfold char_eqb. now rewrite N.eqb_refl.
  - pose proof (split_nonempty sep a) as Hne.
    change (Sites.split sep ((c :: a) ++ sep :: b))
      with (if char_eqb c sep then [] :: Sites.split sep (a ++ sep :: b)
            else match Sites.split sep (a ++ sep :: b) with
                 | h :: t => (c :: h) :: t
                 | [] => [[c]]
                 end).
    change (Sites.split sep (c :: a))
      with (if char_eqb c sep then [] :: Sites.split sep a
            else match Sites.split sep a with
                 | h :: t => (c :: h) :: t
                 | [] => [[c]]
                 end).
    rewrite IH. destruct (char_eqb c sep); [reflexivity|].
    destruct (Sites.split sep a); [contradiction | reflexivity].
Qed.

Lemma lastTwoLabels_com_br (h : jsstring) :
  Sites.lastTwoLabels (h ++ lit ".com.br") = lit "com.br".
Proof.
  unfold Sites.lastTwoLabels.
  change (h ++ lit ".com.br") with (h ++ 46%N :: lit "com.br").
  rewrite split_app.
  change (Sites.split 46%N (lit "com.br")) with [lit "com"; lit "br"].
  rewrite length_app. cbn [List.length].
  replace (List.length (Sites.split 46%N h) + 2 - 2)%nat
    with (List.length (Sites.split 46%N h)) by lia.
  rewrite drop_app_length. reflexivity.
Qed.

(** X26.  [isSupportedSite] answers [supported: true] for every address
    whose domain ends in [.com.br], whatever the shop: with the
    configurations of the constructor, the confidence is [high] when the
    domain is one of the six configured ones and [medium] otherwise,
    because the last two labels of the domain, [com.br], are part of the
    first configured domain.  An address that cannot be parsed is not
    supported.  The keys tested are the ones of the initial
    configurations. *)
Theorem com_br_domains_are_supported (env : Scraper.Env) (url h : jsstring) :
  Scraper.extractDomain env url = h ++ lit ".com.br" ->
  Sites.isSupportedSite env Sites.initialDomains url
  = {| Sites.supported := true;
       Sites.confidence :=
         if bool_decide (h ++ lit ".com.br" ∈ Sites.initialDomains)
         then Sites.high else Sites.medium |} /\
  (forall u, Scraper.parseURL env u = None ->
     Sites.isSupportedSite env Sites.initialDomains u
     = {| Sites.supported := false; Sites.confidence := Sites.none |}) /\
  Sites.keysOf Sites.initialDomains Scraper.initialState.
Proof.
  intros Hd. split; [|split].
  - unfold Sites.isSupportedSite, Sites.supportOf. rewrite Hd.
    destruct (bool_decide _); [reflexivity|].
    rewrite lastTwoLabels_com_br.
    unfold Sites.initialDomains at 1. cbn [List.find].
    replace (includes (lit "com.br") (lit "amazon.com.br")) with true
      by (vm_compute; reflexivity).
    rewrite orb_true_r. reflexivity.
  - intros u Hu. unfold Sites.isSupportedSite, Scraper.extractDomain. rewrite Hu.
    vm_compute. reflexivity.
  - intros k. unfold Scraper.initialState, Scraper.initialSiteConfigs.
    cbn [Scraper.siteConfigs]. unfold Sites.initialDomains.
    rewrite !elem_of_cons, elem_of_nil.
    rewrite !lookup_insert_is_Some, lookup_empty, is_Some_alt.
    destruct (decide (lit "amazon.com.br" = k)) as [<-|N1]; [split; auto|].
    destruct (decide (lit "mercadolivre.com.br" = k)) as [<-|N2]; [split; auto|].
    destruct (decide (lit "americanas.com.br" = k)) as [<-|N3]; [split; auto 7|].
    destruct (decide (lit "magazineluiza.com.br" = k)) as [<-|N4]; [split; auto 9|].
    destruct (decide (lit "submarino.com.br" = k)) as [<-|N5]; [split; auto 11|].
    destruct (decide (lit "casasbahia.com.br" = k)) as [<-|N6]; [split; auto 13|].
    split; intros H; exfalso; intuition congruence.
Qed.

(** A bakery that no configuration names. *)
Lemma com_br_domains_are_supported_witness :
  Scraper.extractDomain SitesFixtures.padariaEnv SitesFixtures.padariaUrl
  = lit "padaria" ++ lit ".com.br" /\
  Sites.isSupportedSite SitesFixtures.padariaEnv Sites.initialDomains
    SitesFixtures.padariaUrl
  = {| Sites.supported := true; Sites.confidence := Sites.medium |}.
Proof.
  assert (Hd : Scraper.extractDomain SitesFixtures.padariaEnv SitesFixtures.padariaUrl
               = lit "padaria" ++ lit ".com.br") by reflexivity.
  split; [exact Hd|].
  exact (proj1 (com_br_domains_are_supported SitesFixtures.padariaEnv
                  SitesFixtures.padariaUrl (lit "padaria") Hd)).
Defined.

(** X27.  [addSiteConfig] installs, for its domain only, the object
    given over the defaults (no selectors, [BRL], two seconds).
    [removeSiteConfig] after it answers [true]; for a domain other than
    [__proto__] it leaves the domain without any configuration: the one
    that the domain had before, built-in or not, is not restored, so the
    scraper is back as it was only when the domain had none.  For
    [__proto__] the assignment installs a prototype, which
    [removeSiteConfig] does not remove: the configuration stays.  For a
    domain without a configuration of its own [removeSiteConfig] changes
    nothing, and it answers [true] exactly when the name is inherited
    from the prototype, as [constructor] is: it answers [false] for the
    other names as long as no prototype was installed.  Neither function
    touches the retry counters or the requests sent. *)
Theorem siteConfig_add_then_remove (domain : jsstring) (config : Sites.ConfigPatch)
    (st : Scraper.State) :
  let added := Sites.addSiteConfig domain config st in
  let removed := Sites.removeSiteConfig domain added in
  configOf added domain = Sites.withDefaults config /\
  (forall d, d <> domain -> configOf added d = configOf st d) /\
  fst removed = true /\
  (domain <> Sites.protoKey ->
     siteConfigs (snd removed) = delete domain (siteConfigs st) /\
     configOf (snd removed) domain = noConfig /\
     (siteConfigs st !! domain = None -> snd removed = st)) /\
  (domain = Sites.protoKey -> snd removed = added) /\
  (forall d, siteConfigs st !! d = None ->
     Sites.removeSiteConfig d st = (Sites.inheritedTruthy st d, st)) /\
  Sites.inheritedTruthy st (lit "constructor") = true /\
  (siteConfigs st !! Sites.protoKey = None ->
   forall d, d ∉ Sites.objectPrototypeKeys -> Sites.inheritedTruthy st d = false) /\
  retryAttempts (snd removed) = retryAttempts st /\
  Scraper.sent (snd removed) = Scraper.sent st /\
  slept (snd removed) = slept st.
Proof.
  intros added removed. subst added removed.
  unfold Sites.removeSiteConfig, Sites.addSiteConfig, configOf.
  cbn [siteConfigs Sites.setSiteConfigs]. rewrite lookup_insert_eq.
  split; [reflexivity|].
  split; [intros d Hne; rewrite lookup_insert_ne by congruence; reflexivity|].
  split; [now destruct (str_eqb domain Sites.protoKey)|].
  split.
  { intros Hne. unfold str_eqb. rewrite bool_decide_eq_false_2 by exact Hne.
    cbn [snd siteConfigs Sites.setSiteConfigs].
    rewrite delete_insert_eq, lookup_delete_eq.
    split; [reflexivity|]. split; [reflexivity|].
    intros Hnone. rewrite delete_id by exact Hnone. now destruct st. }
  split.
  { intros ->. unfold str_eqb. now rewrite bool_decide_eq_true_2. }
  split.
  { intros d Hnone. rewrite Hnone. unfold str_eqb at 1.
    destruct (bool_decide_reflect (d = Sites.protoKey)) as [->|_]; reflexivity. }
  split; [reflexivity|].
  split.
  { intros Hproto d Hd. unfold Sites.inheritedTruthy.
    rewrite Hproto, bool_decide_eq_false_2 by exact Hd. reflexivity. }
  destruct (str_eqb domain Sites.protoKey); repeat split.
Qed.

(* ================================================================== *)
(** * The delays of a cycle *)
(* ================================================================== *)








(* ================================================================== *)
(** * Selectors that the query engine rejects *)
(* ================================================================== *)

(** X29.  A selector that the query engine rejects is treated in two
    ways.  In the search of the price it is skipped: the price is the
    one that the other selectors, the generic ones and the patterns
    give.  In the search of the name the exception leaves
    [extractProductName] and [extractData] answers with its failure,
    whose message is the one of the engine behind the extraction
    prefix: the price is [null] and the name is [null], whatever price
    the page shows. *)
Theorem rejected_selector_asymmetry (env : Scraper.Env) (h d u : jsstring)
    (st : Scraper.State) (doc : Document) (s m : jsstring) (rest : list jsstring) :
  Scraper.load env h = Ok doc ->
  select doc s = Throw m ->
  (selectors (configOf st d) = Some (s :: rest) ->
     extractPrice doc (configOf st d)
     = extractPrice doc (Sites.withSelectors rest (configOf st d))) /\
  (nameSelectors (configOf st d) = Some (s :: rest) ->
     extractData env h d u st
     = {| Scraper.price := None; Scraper.name := None; Scraper.success := false;
          Scraper.error := Some (extractionErrorPrefix ++ m);
          Scraper.url := u; Scraper.domain := d |}).
Proof.
  intros Hload Hsel. split.
  - intros Hcfg. unfold extractPrice. rewrite Hcfg.
    cbn [Sites.withSelectors selectors trySelectors].
    unfold tryExtractPrice at 1. rewrite Hsel. reflexivity.
  - intros Hcfg. unfold extractData, extractDataTry. rewrite Hload.
    unfold extractProductName. rewrite Hcfg. cbn [tryNameSelectors].
    unfold firstText. rewrite Hsel. reflexivity.
Qed.

(** A page that shows a price, scraped with a configuration whose name
    selector is rejected, and with one whose price selector is. *)
Lemma rejected_selector_asymmetry_witness :
  extractPrice SitesFixtures.pickyPage
    (configOf SitesFixtures.pickyPrices (lit "loja.com")) = Some 99.90%Q /\
  Scraper.success
    (extractData SitesFixtures.pickyEnv [] (lit "loja.com") plainUrl
       SitesFixtures.pickyNames) = false.
Proof.
  assert (Hl : Scraper.load SitesFixtures.pickyEnv [] = Ok SitesFixtures.pickyPage)
    by reflexivity.
  assert (Hs : select SitesFixtures.pickyPage (lit "h1[")
               = Throw (lit "Unmatched selector: [")) by reflexivity.
  split.
  - rewrite (proj1 (rejected_selector_asymmetry SitesFixtures.pickyEnv []
                      (lit "loja.com") plainUrl SitesFixtures.pickyPrices
                      SitesFixtures.pickyPage (lit "h1[") _ [] Hl Hs) eq_refl).
    vm_compute. reflexivity.
  - rewrite (proj2 (rejected_selector_asymmetry SitesFixtures.pickyEnv []
                      (lit "loja.com") plainUrl SitesFixtures.pickyNames
                      SitesFixtures.pickyPage (lit "h1[") _ [] Hl Hs) eq_refl).
    reflexivity.
Defined.

(* ================================================================== *)
(** * Instances of the properties above *)
(* ================================================================== *)

(** A scrape of the tracked address on a dead network leaves the
    counter of another address alone. *)
Lemma scrapePrice_footprint_witness :
  lit "https://outra.com" <> trackedUrl /\
  Scraper.retryAttempts
    (snd (scrapePrice (toyEnv deadNet) trackedUrl Scraper.initialState))
    !! lit "https://outra.com" = None.
Proof.
  assert (H1 : lit "https://outra.com" <> trackedUrl) by (vm_compute; discriminate).
  assert (H2 : lit "https://outra.com" <> normalizeUrl (toyEnv deadNet) trackedUrl)
    by (vm_compute; discriminate).
  split; [exact H1|].
  exact (proj1 (proj2 (scrapePrice_footprint (toyEnv deadNet) trackedUrl
                         Scraper.initialState)) _ H1 H2).
Defined.

(** The notebook is the one row of the query on the shop. *)
Lemma findForCheck_result_witness :
  (List.length (findForCheck 100000 60 shop) <= 50)%nat.
Proof.
  exact (proj1 (findForCheck_result 100000 60 shop)).
Defined.

(** The drop of the notebook without a target price is not notified. *)
Lemma send_outcome_witness :
  chooseCall untargeted (Some 95%Q) (priceMove 120 95) = Some dropCall /\
  send muteEnv 0 dropCall fresh = (false, fresh).
Proof.
  assert (Hc : chooseCall untargeted (Some 95%Q) (priceMove 120 95) = Some dropCall)
    by (vm_compute; reflexivity).
  split; [exact Hc|].
  exact (proj2 (proj2 (proj2 (send_outcome muteEnv 0 dropCall fresh)))
           untargeted (Some 95%Q) (priceMove 120 95) eq_refl Hc).
Defined.

(** A configuration for the bakery, added and removed. *)
Lemma siteConfig_add_then_remove_witness :
  Scraper.siteConfigs Scraper.initialState !! lit "padaria.com.br" = None /\
  snd (Sites.removeSiteConfig (lit "padaria.com.br")
         (Sites.addSiteConfig (lit "padaria.com.br") SitesFixtures.padariaPatch
            Scraper.initialState))
  = Scraper.initialState.
Proof.
  assert (Hn : Scraper.siteConfigs Scraper.initialState !! lit "padaria.com.br" = None)
    by (vm_compute; reflexivity).
  split; [exact Hn|].
  assert (Hd : lit "padaria.com.br" <> Sites.protoKey) by (vm_compute; discriminate).
  destruct (siteConfig_add_then_remove (lit "padaria.com.br") SitesFixtures.padariaPatch
              Scraper.initialState) as (_ & _ & _ & Hback & _).
  exact (proj2 (proj2 (Hback Hd)) Hn).
Defined.
